(** * static/dashboard.js: the dashboard controller, embedded in Rocq

    The script is a set of (async) functions over a handful of page-wide
    variables, the DOM of the page, the browser's timer table and the
    network.  The embedding keeps that shape:

    - JavaScript values are the inductive [jsval]; truthiness, [||] and
      property access are written out once in module [Js];
    - the page-wide variables ([authToken], [currentUser], [manualSL],
      [updateInterval], ...), the DOM, the timer table and the log of
      requests sent form the record [world];
    - a function of the script becomes a computation [M A]: it takes a
      world and gives back either a value or a thrown exception, together
      with the world it leaves behind ([try]/[catch] is [try_catch]);
    - whatever is outside the script (the identity provider, the backend,
      the user answering [confirm], the wall clock) answers as a function
      of the requests sent so far: the record [Env];
    - built-ins of the JavaScript library that format or parse numbers are
      fields of the record [Builtins].

    An [await] is run to completion: one handler at a time, no interleaving
    of other handlers at the suspension points.  Console output is not
    part of the model. *)

From Stdlib Require Import ZArith QArith Qabs Ascii String List Lia.
From stdpp Require Import gmap strings list fin_maps pretty.

Set Warnings "-register-all".

Local Open Scope string_scope.
Local Open Scope Z_scope.

(** ** JavaScript values *)

Module Js.

(** A JavaScript number: a finite value or NaN (the infinities never arise
    in this script). *)
Inductive number :=
| NaN
| Fin (q : Q).

Inductive jsval :=
| VUndef
| VNull
| VBool (b : bool)
| VNum (n : number)
| VStr (s : string)
| VArr (items : list jsval)
| VObj (fields : list (string * jsval)).

Definition num_of_Z (z : Z) : number := Fin (inject_Z z).

(** [a > b], [a >= b], [a < b], [a <= b] on numbers: every comparison
    with NaN is false. *)
Definition num_le (a b : number) : bool :=
  match a, b with
  | Fin x, Fin y => Qle_bool x y
  | _, _ => false
  end.

Definition num_lt (a b : number) : bool :=
  match a, b with
  | Fin x, Fin y => negb (Qle_bool y x)
  | _, _ => false
  end.

Definition num_gt (a b : number) : bool := num_lt b a.
Definition num_ge (a b : number) : bool := num_le b a.

Definition num_is_zero (a : number) : bool :=
  match a with
  | NaN => false
  | Fin x => Qeq_bool x 0
  end.

(** [Math.abs] *)
Definition num_abs (a : number) : number :=
  match a with
  | NaN => NaN
  | Fin x => Fin (Qabs x)
  end.

(** ToBoolean *)
Definition truthy (v : jsval) : bool :=
  match v with
  | VUndef | VNull => false
  | VBool b => b
  | VNum NaN => false
  | VNum n => negb (num_is_zero n)
  | VStr s => negb (String.eqb s "")
  | VArr _ | VObj _ => true
  end.

(** [a || b] *)
Definition or (a b : jsval) : jsval := if truthy a then a else b.

(** [a === b] for the cases the script uses: strings and numbers. *)
Definition str_is (v : jsval) (s : string) : bool :=
  match v with
  | VStr t => String.eqb t s
  | _ => false
  end.

Fixpoint assoc (k : string) (fields : list (string * jsval)) : jsval :=
  match fields with
  | [] => VUndef
  | (k', v) :: rest => if String.eqb k k' then v else assoc k rest
  end.

(** [s.includes(t)] *)
Fixpoint includes (s t : string) : bool :=
  if String.prefix t s then true
  else match s with
       | EmptyString => false
       | String _ s' => includes s' t
       end.

Definition nullish (v : jsval) : bool :=
  match v with
  | VUndef | VNull => true
  | _ => false
  end.

End Js.

Import Js.

(** ** Exceptions and outcomes *)

Inductive exn :=
| Error (message : string)
| TypeError (message : string)
| SyntaxError (message : string).

Definition message_of (e : exn) : string :=
  match e with
  | Error m | TypeError m | SyntaxError m => m
  end.

Inductive res (A : Type) :=
| Ok (a : A)
| Throw (e : exn).

Arguments Ok {A} a.
Arguments Throw {A} e.

(** ** The network and the identity provider *)

Record user := { uid : string; email : string }.

(** What [fetch] is given: the endpoint and the merged options.  The body
    is kept as the value handed to [JSON.stringify]. *)
Record request := {
  req_endpoint : string;
  req_method : option string;
  req_body : option jsval;
  req_headers : gmap string string
}.

(** What [fetch] resolves to.  [resp_json] is the outcome of
    [response.json()]: [None] when the body does not parse. *)
Record response := {
  status : N;
  content_type : option string;
  resp_json : option jsval;
  resp_text : string
}.

(** [response.ok] *)
Definition ok (r : response) : bool :=
  (200 <=? status r)%N && (status r <=? 299)%N.

Inductive event :=
| EvGetIdToken (u : user)
| EvFetch (r : request).

(** The world outside the script.  Each oracle sees the requests sent so
    far, so an answer may depend on anything that happened before. *)
Record Env := {
  idp : list event -> user -> res string;
  server : list event -> request -> res response;
  confirm : list event -> string -> bool;
  minutes : list event -> Z
}.

(** Built-ins of the JavaScript library that the script calls on numbers
    and strings. *)
Record Builtins := {
  numToString : number -> string;
  toFixed2 : number -> string;
  toLocaleTR : number -> string;
  toNumber : jsval -> number;
  parseFloat : jsval -> number;
  parseInt : jsval -> number;
  toLowerCase : string -> string;
  replaceFirst : string -> string -> string -> string
}.

(** ** The page *)

(** An element of the document: the properties the script assigns
    ([textContent], [value], [innerHTML], [disabled], [checked],
    [style.color], ...) hold the value assigned; the class list is kept
    apart.  [getElementById] is the lookup in [dom]; an element found by
    [parent.querySelector(sel)] is filed under the parent's id followed by
    a space and the selector. *)
Record element := {
  props : gmap string jsval;
  classes : list string
}.

Inductive callback :=
| CbTokenRefresh
| CbPoll
| CbHideToast.

(** An entry of the browser's timer table ([setInterval], [setTimeout]). *)
Record timer := {
  timer_callback : callback;
  timer_delay : Z;
  timer_repeats : bool
}.

(** An async function called without [await]. *)
Inductive task :=
| TaskLoadTradingPairs.

Record world := {
  currentUser : option user;
  authToken : option string;
  tokenRefreshInterval : option nat;
  updateInterval : option nat;
  manualSL : bool;
  manualTP : bool;
  dom : gmap string element;
  timers : gmap nat timer;
  nextTimer : nat;
  detached : list task;
  trace : list event
}.

Definition set_currentUser (v : option user) (w : world) : world :=
  {| currentUser := v; authToken := authToken w;
     tokenRefreshInterval := tokenRefreshInterval w;
     updateInterval := updateInterval w; manualSL := manualSL w;
     manualTP := manualTP w; dom := dom w; timers := timers w;
     nextTimer := nextTimer w; detached := detached w; trace := trace w |}.

Definition set_authToken (v : option string) (w : world) : world :=
  {| currentUser := currentUser w; authToken := v;
     tokenRefreshInterval := tokenRefreshInterval w;
     updateInterval := updateInterval w; manualSL := manualSL w;
     manualTP := manualTP w; dom := dom w; timers := timers w;
     nextTimer := nextTimer w; detached := detached w; trace := trace w |}.

Definition set_tokenRefreshInterval (v : option nat) (w : world) : world :=
  {| currentUser := currentUser w; authToken := authToken w;
     tokenRefreshInterval := v;
     updateInterval := updateInterval w; manualSL := manualSL w;
     manualTP := manualTP w; dom := dom w; timers := timers w;
     nextTimer := nextTimer w; detached := detached w; trace := trace w |}.

Definition set_updateInterval (v : option nat) (w : world) : world :=
  {| currentUser := currentUser w; authToken := authToken w;
     tokenRefreshInterval := tokenRefreshInterval w;
     updateInterval := v; manualSL := manualSL w;
     manualTP := manualTP w; dom := dom w; timers := timers w;
     nextTimer := nextTimer w; detached := detached w; trace := trace w |}.

Definition set_manualSL (v : bool) (w : world) : world :=
  {| currentUser := currentUser w; authToken := authToken w;
     tokenRefreshInterval := tokenRefreshInterval w;
     updateInterval := updateInterval w; manualSL := v;
     manualTP := manualTP w; dom := dom w; timers := timers w;
     nextTimer := nextTimer w; detached := detached w; trace := trace w |}.

Definition set_manualTP (v : bool) (w : world) : world :=
  {| currentUser := currentUser w; authToken := authToken w;
     tokenRefreshInterval := tokenRefreshInterval w;
     updateInterval := updateInterval w; manualSL := manualSL w;
     manualTP := v; dom := dom w; timers := timers w;
     nextTimer := nextTimer w; detached := detached w; trace := trace w |}.

Definition set_dom (v : gmap string element) (w : world) : world :=
  {| currentUser := currentUser w; authToken := authToken w;
     tokenRefreshInterval := tokenRefreshInterval w;
     updateInterval := updateInterval w; manualSL := manualSL w;
     manualTP := manualTP w; dom := v; timers := timers w;
     nextTimer := nextTimer w; detached := detached w; trace := trace w |}.

Definition set_timers (v : gmap nat timer) (n : nat) (w : world) : world :=
  {| currentUser := currentUser w; authToken := authToken w;
     tokenRefreshInterval := tokenRefreshInterval w;
     updateInterval := updateInterval w; manualSL := manualSL w;
     manualTP := manualTP w; dom := dom w; timers := v;
     nextTimer := n; detached := detached w; trace := trace w |}.

Definition set_detached (v : list task) (w : world) : world :=
  {| currentUser := currentUser w; authToken := authToken w;
     tokenRefreshInterval := tokenRefreshInterval w;
     updateInterval := updateInterval w; manualSL := manualSL w;
     manualTP := manualTP w; dom := dom w; timers := timers w;
     nextTimer := nextTimer w; detached := v; trace := trace w |}.

Definition log (ev : event) (w : world) : world :=
  {| currentUser := currentUser w; authToken := authToken w;
     tokenRefreshInterval := tokenRefreshInterval w;
     updateInterval := updateInterval w; manualSL := manualSL w;
     manualTP := manualTP w; dom := dom w; timers := timers w;
     nextTimer := nextTimer w; detached := detached w;
     trace := trace w ++ [ev] |}.

(** ** Computations: state and exceptions *)

Definition M (A : Type) : Type := world -> res A * world.

Definition ret {A} (a : A) : M A := fun w => (Ok a, w).

Definition throw {A} (e : exn) : M A := fun w => (Throw e, w).

Definition bind {A B} (m : M A) (k : A -> M B) : M B :=
  fun w =>
    match m w with
    | (Ok a, w') => k a w'
    | (Throw e, w') => (Throw e, w')
    end.

Definition try_catch {A} (m : M A) (handler : exn -> M A) : M A :=
  fun w =>
    match m w with
    | (Ok a, w') => (Ok a, w')
    | (Throw e, w') => handler e w'
    end.

Definition gets {A} (f : world -> A) : M A := fun w => (Ok (f w), w).

Definition modify (f : world -> world) : M unit := fun w => (Ok tt, f w).

Definition when (b : bool) (m : M unit) : M unit := if b then m else ret tt.

Declare Scope js_scope.
Delimit Scope js_scope with js.
Notation "x <- m ;; k" := (bind m (fun x => k))
  (at level 20, m at level 99, k at level 200, only parsing) : js_scope.
Notation "m ;; k" := (bind m (fun _ => k))
  (at level 100, k at level 200, only parsing, right associativity) : js_scope.
Local Open Scope js_scope.

Record options := {
  opt_method : option string;
  opt_body : option jsval;
  opt_headers : gmap string string
}.

(** [{}] *)
Definition no_options : options :=
  {| opt_method := None; opt_body := None; opt_headers := ∅ |}.

(** [{ method: 'POST', body: JSON.stringify(v) }] *)
Definition post (body : option jsval) : options :=
  {| opt_method := Some "POST"; opt_body := body; opt_headers := ∅ |}.

(** [!!authToken]: [null] and the empty string are falsy. *)
Definition token_truthy (t : option string) : bool :=
  match t with
  | Some s => negb (String.eqb s "")
  | None => false
  end.

(** [`${authToken}`] *)
Definition token_string (t : option string) : string :=
  match t with
  | Some s => s
  | None => "null"
  end.

Definition with_authorization (r : request) (t : option string) : request :=
  {| req_endpoint := req_endpoint r;
     req_method := req_method r;
     req_body := req_body r;
     req_headers := <["Authorization" := "Bearer " ++ token_string t]> (req_headers r) |}.

(** ** Document and timer primitives *)

Definition set_prop (name : string) (v : jsval) (el : element) : element :=
  {| props := <[name := v]> (props el); classes := classes el |}.

(** [el.className = ...], given as the list of class names *)
Definition set_classes (cs : list string) (el : element) : element :=
  {| props := props el; classes := cs |}.

(** [el.classList.add(c)] *)
Definition add_class (c : string) (el : element) : element :=
  {| props := props el;
     classes := if bool_decide (c ∈ classes el) then classes el
                else classes el ++ [c] |}.

(** [el.classList.remove(c)] *)
Definition remove_class (c : string) (el : element) : element :=
  {| props := props el; classes := filter (fun x => x ≠ c) (classes el) |}.

Definition prop_of (el : option element) (name : string) : jsval :=
  match el with
  | Some e => default VUndef (props e !! name)
  | None => VUndef
  end.

Definition getElementById (id : string) : M (option element) :=
  gets (fun w => dom w !! id).

(** [el?.name] for the element with this id *)
Definition read (id name : string) : M jsval :=
  gets (fun w => prop_of (dom w !! id) name).

(** A write to an element known to exist; on an absent element nothing
    changes. *)
Definition update (id : string) (f : element -> element) : M unit :=
  modify (fun w => set_dom (alter f id (dom w)) w).

(** [if (el) { ... }] *)
Definition ifPresent (id : string) (m : M unit) : M unit :=
  el <- getElementById id ;;
  match el with
  | Some _ => m
  | None => ret tt
  end.

(** An unguarded write: a TypeError when the element is [null]. *)
Definition updateOrThrow (id : string) (f : element -> element) : M unit :=
  el <- getElementById id ;;
  match el with
  | Some _ => update id f
  | None => throw (TypeError "Cannot set properties of null")
  end.

(** [setInterval] and [setTimeout] hand out the handles 1, 2, 3, ... of one
    shared table. *)
Definition setTimer (cb : callback) (delay : Z) (repeats : bool) : M nat :=
  fun w =>
    let h := nextTimer w in
    (Ok h,
     set_timers
       (<[h := {| timer_callback := cb; timer_delay := delay;
                  timer_repeats := repeats |}]> (timers w))
       (S h) w).

Definition setInterval (cb : callback) (delay : Z) : M nat := setTimer cb delay true.

Definition setTimeout (cb : callback) (delay : Z) : M nat := setTimer cb delay false.

Definition clearInterval (h : nat) : M unit :=
  modify (fun w => set_timers (delete h (timers w)) (nextTimer w) w).

(** A handle is truthy unless it is [null] or 0. *)
Definition handle_truthy (h : option nat) : bool :=
  match h with
  | Some n => negb (Nat.eqb n 0)
  | None => false
  end.

(** [obj.k]: a TypeError on [null] and [undefined], [undefined] for a
    missing property. *)
Definition get (v : jsval) (k : string) : M jsval :=
  match v with
  | VUndef | VNull => throw (TypeError ("Cannot read properties of undefined (reading '" ++ k ++ "')"))
  | VObj fields => ret (assoc k fields)
  | VArr items =>
      if String.eqb k "length" then ret (VNum (num_of_Z (Z.of_nat (length items))))
      else ret VUndef
  | VStr s =>
      if String.eqb k "length" then ret (VNum (num_of_Z (Z.of_nat (String.length s))))
      else ret VUndef
  | _ => ret VUndef
  end.

(** [obj?.k] *)
Definition getOpt (v : jsval) (k : string) : M jsval :=
  if nullish v then ret VUndef else get v k.

(** The double quote and the line break of the HTML templates. *)
Definition dq : string := String (ascii_of_nat 34) EmptyString.
Definition nl : string := String (ascii_of_nat 10) EmptyString.

(** ** Smart timeframe recommendations *)

Record recommendation := {
  rec_name : string;
  stopLoss : number;
  takeProfit : number;
  winRate : number;
  description : string;
  riskLevel : string;
  maxHoldTime : string
}.

(** [timeframeRecommendations[timeframe]]: the five entries of the object
    literal; a key it does not have gives [undefined] (properties inherited
    from [Object.prototype] are left out). *)
Definition timeframeRecommendations (timeframe : string) : option recommendation :=
  if String.eqb timeframe "5m" then
    Some {| rec_name := "🏃‍♂️ Hızlı Scalping";
            stopLoss := Fin 0.3; takeProfit := Fin 0.5; winRate := Fin 75;
            description := "Günde 10-20 trade, güvenli kazanç";
            riskLevel := "low"; maxHoldTime := "30 dakika" |}
  else if String.eqb timeframe "15m" then
    Some {| rec_name := "📈 Dengeli Swing";
            stopLoss := Fin 0.8; takeProfit := Fin 1.2; winRate := Fin 70;
            description := "Günde 5-10 trade, istikrarlı kar";
            riskLevel := "low"; maxHoldTime := "2 saat" |}
  else if String.eqb timeframe "30m" then
    Some {| rec_name := "🎯 Trend Takip";
            stopLoss := Fin 1.0; takeProfit := Fin 2.0; winRate := Fin 65;
            description := "Güçlü trend'lerde büyük kazanç";
            riskLevel := "medium"; maxHoldTime := "5 saat" |}
  else if String.eqb timeframe "1h" then
    Some {| rec_name := "🏔️ Pozisyon Trading";
            stopLoss := Fin 1.5; takeProfit := Fin 3.0; winRate := Fin 60;
            description := "Major hareketlerde yüksek kar";
            riskLevel := "medium"; maxHoldTime := "12 saat" |}
  else if String.eqb timeframe "4h" then
    Some {| rec_name := "🚀 Major Trend";
            stopLoss := Fin 2.5; takeProfit := Fin 5.0; winRate := Fin 55;
            description := "Büyük trend'lerde maksimum kazanç";
            riskLevel := "high"; maxHoldTime := "48 saat" |}
  else None.

(** The keys of the table. *)
Definition timeframes : list string := ["5m"; "15m"; "30m"; "1h"; "4h"].

Section Script.

Variable E : Env.
Variable B : Builtins.

(** [currentUser.getIdToken(true)] *)
Definition getIdToken (u : user) : M string :=
  fun w => (idp E (trace w) u, log (EvGetIdToken u) w).

(** [fetch(endpoint, options)] *)
Definition fetch (r : request) : M response :=
  fun w => (server E (trace w) r, log (EvFetch r) w).

Definition getFreshToken : M string :=
  try_catch
    (cu <- gets currentUser ;;
     match cu with
     | Some u =>
         token <- getIdToken u ;;
         modify (set_authToken (Some token)) ;;
         ret token
     | None => throw (Error "No current user")
     end)
    (fun error => throw error).

(** [response.json()] *)
Definition response_json (r : response) : M jsval :=
  match resp_json r with
  | Some v => ret v
  | None => throw (SyntaxError "Unexpected token in JSON")
  end.

(** The decoding both the first response and the retry go through: JSON
    when the content type names it, the raw text otherwise. *)
Definition decode (r : response) : M jsval :=
  match content_type r with
  | Some contentType =>
      if negb (String.eqb contentType "") && includes contentType "application/json"
      then response_json r
      else ret (VStr (resp_text r))
  | None => ret (VStr (resp_text r))
  end.

Definition mergedOptions (endpoint : string) (o : options) (t : option string) : request :=
  {| req_endpoint := endpoint;
     req_method := opt_method o;
     req_body := opt_body o;
     req_headers :=
       opt_headers o ∪
       <["Content-Type" := "application/json"]>
         (<["Authorization" := "Bearer " ++ token_string t]> ∅) |}.

Definition makeAuthenticatedApiCall (endpoint : string) (o : options) : M jsval :=
  try_catch
    (t0 <- gets authToken ;;
     when (negb (token_truthy t0)) (_ <- getFreshToken ;; ret tt) ;;
     t1 <- gets authToken ;;
     when (negb (token_truthy t1))
       (throw (Error "Could not obtain authentication token")) ;;
     let merged := mergedOptions endpoint o t1 in
     response <- fetch merged ;;
     if negb (ok response) then
       if (status response =? 401)%N then
         try_catch
           (_ <- getFreshToken ;;
            t2 <- gets authToken ;;
            let retryOptions := with_authorization merged t2 in
            retryResponse <- fetch retryOptions ;;
            if ok retryResponse then decode retryResponse
            else throw (Error ("HTTP " ++ pretty (status retryResponse) ++ " after retry")))
           (fun refreshError =>
              throw (Error "Authentication failed - please login again"))
       else throw (Error ("HTTP " ++ pretty (status response)))
     else decode response)
    (fun error => throw error).

(** ToString, as a template literal applies it. *)
Fixpoint to_string (v : jsval) : string :=
  match v with
  | VUndef => "undefined"
  | VNull => "null"
  | VBool true => "true"
  | VBool false => "false"
  | VNum n => numToString B n
  | VStr s => s
  | VArr items =>
      String.concat ","
        (map (fun x => if nullish x then "" else to_string x) items)
  | VObj _ => "[object Object]"
  end.

(** ToNumber, as a comparison with a number applies it. *)
Definition to_number (v : jsval) : number :=
  match v with
  | VNum n => n
  | VUndef => NaN
  | VNull => num_of_Z 0
  | VBool true => num_of_Z 1
  | VBool false => num_of_Z 0
  | _ => toNumber B v
  end.

(** [n || 0] on a number *)
Definition num_or_zero (n : number) : number :=
  if truthy (VNum n) then n else num_of_Z 0.

Definition icons (type : string) : list string :=
  if String.eqb type "success" then ["fas"; "fa-check-circle"]
  else if String.eqb type "error" then ["fas"; "fa-exclamation-circle"]
  else if String.eqb type "warning" then ["fas"; "fa-exclamation-triangle"]
  else ["fas"; "fa-info-circle"].

Definition colors (type : string) : string :=
  if String.eqb type "success" then "var(--success-color)"
  else if String.eqb type "error" then "var(--danger-color)"
  else if String.eqb type "warning" then "var(--warning-color)"
  else "var(--info-color)".

Definition showNotification (message type : string) (duration : Z) : M unit :=
  toast <- getElementById "toast" ;;
  match toast with
  | None => throw (TypeError "Cannot read properties of null (reading 'querySelector')")
  | Some _ =>
      updateOrThrow "toast .toast-icon" (set_classes ("toast-icon" :: icons type)) ;;
      update "toast .toast-icon" (set_prop "style.color" (VStr (colors type))) ;;
      updateOrThrow "toast .toast-message" (set_prop "textContent" (VStr message)) ;;
      update "toast" (add_class "show") ;;
      _ <- setTimeout CbHideToast duration ;;
      ret tt
  end.

Definition formatCurrency (amount : jsval) (currency : string) : string :=
  let num := num_or_zero (parseFloat B amount) in
  toLocaleTR B num ++ " " ++ currency.

Definition formatPercentage (value : jsval) : string :=
  let num := num_or_zero (parseFloat B value) in
  let sign := if num_ge num (num_of_Z 0) then "+" else "" in
  sign ++ toFixed2 B num ++ "%".

Definition riskText (level : string) : string :=
  if String.eqb level "low" then "DÜŞÜK RİSK"
  else if String.eqb level "medium" then "ORTA RİSK"
  else "YÜKSEK RİSK".

Definition updateStrategyInfo (timeframe : string) : M unit :=
  match timeframeRecommendations timeframe with
  | None => ret tt
  | Some rec =>
      ifPresent "strategy-name"
        (update "strategy-name" (set_prop "textContent" (VStr (rec_name rec)))) ;;
      ifPresent "strategy-description"
        (update "strategy-description" (set_prop "textContent" (VStr (description rec)))) ;;
      ifPresent "expected-win-rate"
        (update "expected-win-rate"
           (set_prop "textContent"
              (VStr ("🎯 " ++ numToString B (winRate rec) ++ "% Win Rate")))) ;;
      ifPresent "max-hold-time"
        (update "max-hold-time"
           (set_prop "textContent" (VStr ("⏱️ Max: " ++ maxHoldTime rec)))) ;;
      ifPresent "risk-badge"
        (update "risk-badge" (set_classes ["risk-badge"; riskLevel rec]) ;;
         update "risk-badge" (set_prop "textContent" (VStr (riskText (riskLevel rec))))) ;;
      ifPresent "sl-recommended-value"
        (update "sl-recommended-value" (set_prop "textContent" (VNum (stopLoss rec)))) ;;
      ifPresent "tp-recommended-value"
        (update "tp-recommended-value" (set_prop "textContent" (VNum (takeProfit rec)))) ;;
      stopLossInput <- getElementById "stop-loss" ;;
      takeProfitInput <- getElementById "take-profit" ;;
      slRecommendationBtn <- getElementById "sl-recommendation-btn" ;;
      tpRecommendationBtn <- getElementById "tp-recommendation-btn" ;;
      mSL <- gets manualSL ;;
      when (negb mSL && bool_decide (is_Some stopLossInput)
            && bool_decide (is_Some slRecommendationBtn))
        (update "stop-loss" (set_prop "value" (VNum (stopLoss rec))) ;;
         update "stop-loss" (add_class "recommended-input") ;;
         update "stop-loss" (remove_class "manual-input") ;;
         update "sl-recommendation-btn" (add_class "active") ;;
         update "sl-recommendation-btn" (remove_class "inactive")) ;;
      mTP <- gets manualTP ;;
      when (negb mTP && bool_decide (is_Some takeProfitInput)
            && bool_decide (is_Some tpRecommendationBtn))
        (update "take-profit" (set_prop "value" (VNum (takeProfit rec))) ;;
         update "take-profit" (add_class "recommended-input") ;;
         update "take-profit" (remove_class "manual-input") ;;
         update "tp-recommendation-btn" (add_class "active") ;;
         update "tp-recommendation-btn" (remove_class "inactive"))
  end.

(** *** The listeners registered by [setupSmartRecommendations] *)

(** [change] on the timeframe select *)
Definition onTimeframeChange : M unit :=
  v <- read "timeframe-select" "value" ;;
  updateStrategyInfo (to_string v).

(** [input] on the stop-loss field *)
Definition onStopLossInput : M unit :=
  modify (set_manualSL true) ;;
  update "stop-loss" (add_class "manual-input") ;;
  update "stop-loss" (remove_class "recommended-input") ;;
  ifPresent "sl-recommendation-btn"
    (update "sl-recommendation-btn" (add_class "inactive") ;;
     update "sl-recommendation-btn" (remove_class "active")) ;;
  ifPresent "sl-hint" (update "sl-hint" (set_prop "style.display" (VStr "block"))).

(** [input] on the take-profit field *)
Definition onTakeProfitInput : M unit :=
  modify (set_manualTP true) ;;
  update "take-profit" (add_class "manual-input") ;;
  update "take-profit" (remove_class "recommended-input") ;;
  ifPresent "tp-recommendation-btn"
    (update "tp-recommendation-btn" (add_class "inactive") ;;
     update "tp-recommendation-btn" (remove_class "active")) ;;
  ifPresent "tp-hint" (update "tp-hint" (set_prop "style.display" (VStr "block"))).

(** [click] on the stop-loss recommendation toggle *)
Definition onSlRecommendationClick : M unit :=
  select <- getElementById "timeframe-select" ;;
  match select with
  | None => throw (TypeError "Cannot read properties of null (reading 'value')")
  | Some _ =>
      timeframe <- read "timeframe-select" "value" ;;
      match timeframeRecommendations (to_string timeframe) with
      | Some rec =>
          modify (set_manualSL false) ;;
          ifPresent "stop-loss"
            (update "stop-loss" (set_prop "value" (VNum (stopLoss rec))) ;;
             update "stop-loss" (add_class "recommended-input") ;;
             update "stop-loss" (remove_class "manual-input")) ;;
          update "sl-recommendation-btn" (add_class "active") ;;
          update "sl-recommendation-btn" (remove_class "inactive") ;;
          ifPresent "sl-hint" (update "sl-hint" (set_prop "style.display" (VStr "none")))
      | None => ret tt
      end
  end.

(** [click] on the take-profit recommendation toggle *)
Definition onTpRecommendationClick : M unit :=
  select <- getElementById "timeframe-select" ;;
  match select with
  | None => throw (TypeError "Cannot read properties of null (reading 'value')")
  | Some _ =>
      timeframe <- read "timeframe-select" "value" ;;
      match timeframeRecommendations (to_string timeframe) with
      | Some rec =>
          modify (set_manualTP false) ;;
          ifPresent "take-profit"
            (update "take-profit" (set_prop "value" (VNum (takeProfit rec))) ;;
             update "take-profit" (add_class "recommended-input") ;;
             update "take-profit" (remove_class "manual-input")) ;;
          update "tp-recommendation-btn" (add_class "active") ;;
          update "tp-recommendation-btn" (remove_class "inactive") ;;
          ifPresent "tp-hint" (update "tp-hint" (set_prop "style.display" (VStr "none")))
      | None => ret tt
      end
  end.

(** [click] on the "use recommended" buttons: a click on the toggle *)
Definition onUseSlRecommendedClick : M unit :=
  ifPresent "sl-recommendation-btn" onSlRecommendationClick.

Definition onUseTpRecommendedClick : M unit :=
  ifPresent "tp-recommendation-btn" onTpRecommendationClick.

(** Its own effect on the page; the listeners it registers are the
    functions above, run by [dispatch] below. *)
Definition setupSmartRecommendations : M unit :=
  updateStrategyInfo "15m".

(** *** View renderers *)

Definition updateProfile (profile : jsval) : M unit :=
  ifPresent "user-name"
    (e <- get profile "email" ;;
     update "user-name" (set_prop "textContent" (or e (VStr "Kullanıcı")))) ;;
  subscription <- get profile "subscription" ;;
  when (truthy subscription)
    (ifPresent "subscription-text"
       (plan <- get subscription "plan" ;;
        update "subscription-text" (set_prop "textContent" (or plan (VStr "Premium")))) ;;
     ifPresent "sub-status-badge"
       (ifPresent "sub-status-badge span"
          (st <- get subscription "status" ;;
           update "sub-status-badge span"
             (set_prop "textContent"
                (VStr (if str_is st "active" then "Aktif" else "Deneme"))))) ;;
     ifPresent "days-remaining"
       (d <- get subscription "daysRemaining" ;;
        let daysLeft := or d (VNum (num_of_Z 0)) in
        let left := to_number daysLeft in
        update "days-remaining"
          (set_prop "textContent"
             (VStr (if num_gt left (num_of_Z 0)
                    then to_string daysLeft ++ " gün kaldı"
                    else "Süresi dolmuş"))) ;;
        ifPresent "subscription-note"
          (if num_le left (num_of_Z 7) && num_gt left (num_of_Z 0) then
             update "subscription-note"
               (set_prop "textContent"
                  (VStr "Aboneliğiniz yakında sona erecek. Yenilemeyi unutmayın!")) ;;
             update "subscription-note" (set_prop "style.color" (VStr "var(--warning-color)"))
           else if num_le left (num_of_Z 0) then
             update "subscription-note"
               (set_prop "textContent" (VStr "Abonelik süresi dolmuş. Lütfen yenileyin.")) ;;
             update "subscription-note" (set_prop "style.color" (VStr "var(--danger-color)"))
           else
             update "subscription-note"
               (set_prop "textContent" (VStr "Aboneliğiniz aktif durumda.")) ;;
             update "subscription-note" (set_prop "style.color" (VStr "var(--success-color)"))))).

(** The colour of a profit-and-loss figure. *)
Definition pnlColor (pnlValue : number) : string :=
  if num_gt pnlValue (num_of_Z 0) then "var(--success-color)"
  else if num_lt pnlValue (num_of_Z 0) then "var(--danger-color)"
  else "var(--text-primary)".

Definition updateAccount (account : jsval) : M unit :=
  ifPresent "total-balance"
    (b <- get account "totalBalance" ;;
     update "total-balance"
       (set_prop "textContent"
          (VStr (formatCurrency (or b (VNum (num_of_Z 0))) "USDT")))) ;;
  ifPresent "total-pnl"
    (p <- get account "unrealizedPnl" ;;
     update "total-pnl"
       (set_prop "textContent"
          (VStr (formatCurrency (or p (VNum (num_of_Z 0))) "USDT"))) ;;
     p' <- get account "unrealizedPnl" ;;
     let pnlValue := parseFloat B (or p' (VNum (num_of_Z 0))) in
     update "total-pnl" (set_prop "style.color" (VStr (pnlColor pnlValue)))).

Definition emptyStateHTML : string :=
  nl ++ "            <div class=" ++ dq ++ "empty-state" ++ dq ++ ">" ++
  nl ++ "                <i class=" ++ dq ++ "fas fa-chart-line" ++ dq ++
  "></i>" ++ nl ++ "                <h3>Açık Pozisyon Yok</h3>" ++ nl ++
  "                <p>Bot başlatıldığında pozisyonlar burada görünecek</p>" ++
  nl ++ "            </div>" ++ nl ++ "        ".

(** [v.toLowerCase()] *)
Definition toLowerCaseOf (v : jsval) : M string :=
  match v with
  | VStr s => ret (toLowerCase B s)
  | VUndef | VNull =>
      throw (TypeError "Cannot read properties of undefined (reading 'toLowerCase')")
  | _ => throw (TypeError "toLowerCase is not a function")
  end.

(** [v.replace(a, b)] *)
Definition replaceOf (v : jsval) (a b : string) : M string :=
  match v with
  | VStr s => ret (replaceFirst B s a b)
  | VUndef | VNull =>
      throw (TypeError "Cannot read properties of undefined (reading 'replace')")
  | _ => throw (TypeError "replace is not a function")
  end.

(** The callback of [positions.map]. *)
Definition positionItem (position : jsval) : M string :=
  unrealizedPnl <- get position "unrealizedPnl" ;;
  let pnlClass := if num_ge (to_number unrealizedPnl) (num_of_Z 0) then "profit" else "loss" in
  positionSide <- get position "positionSide" ;;
  sideClass <- toLowerCaseOf positionSide ;;
  symbol <- get position "symbol" ;;
  positionAmt <- get position "positionAmt" ;;
  base <- replaceOf symbol "USDT" "" ;;
  entryPrice <- get position "entryPrice" ;;
  markPrice <- get position "markPrice" ;;
  ret (
  nl ++ "            <div class=" ++ dq ++ "position-item" ++ dq ++ ">" ++
  nl ++ "                <div class=" ++ dq ++ "position-header" ++ dq ++
  ">" ++ nl ++ "                    <span class=" ++ dq ++
  "position-symbol" ++ dq ++ ">" ++ to_string symbol ++ "</span>" ++ nl ++
  "                    <span class=" ++ dq ++ "position-side " ++
  sideClass ++ dq ++ ">" ++ to_string positionSide ++ "</span>" ++ nl ++
  "                </div>" ++ nl ++ "                <div class=" ++ dq ++
  "position-stats" ++ dq ++ ">" ++ nl ++
  "                    <div class=" ++ dq ++ "position-stat" ++ dq ++
  ">" ++ nl ++ "                        <div class=" ++ dq ++
  "stat-label" ++ dq ++ ">Boyut</div>" ++ nl ++
  "                        <div class=" ++ dq ++ "stat-value" ++ dq ++
  ">" ++ numToString B (num_abs (to_number positionAmt)) ++ " " ++ base ++
  "</div>" ++ nl ++ "                    </div>" ++ nl ++
  "                    <div class=" ++ dq ++ "position-stat" ++ dq ++
  ">" ++ nl ++ "                        <div class=" ++ dq ++
  "stat-label" ++ dq ++ ">Giriş Fiyatı</div>" ++ nl ++
  "                        <div class=" ++ dq ++ "stat-value" ++ dq ++
  ">$" ++ toFixed2 B (parseFloat B entryPrice) ++ "</div>" ++ nl ++
  "                    </div>" ++ nl ++
  "                    <div class=" ++ dq ++ "position-stat" ++ dq ++
  ">" ++ nl ++ "                        <div class=" ++ dq ++
  "stat-label" ++ dq ++ ">Güncel Fiyat</div>" ++ nl ++
  "                        <div class=" ++ dq ++ "stat-value" ++ dq ++
  ">$" ++ toFixed2 B (parseFloat B markPrice) ++ "</div>" ++ nl ++
  "                    </div>" ++ nl ++
  "                    <div class=" ++ dq ++ "position-stat" ++ dq ++
  ">" ++ nl ++ "                        <div class=" ++ dq ++
  "stat-label" ++ dq ++ ">P&L</div>" ++ nl ++
  "                        <div class=" ++ dq ++ "stat-value " ++
  pnlClass ++ dq ++ ">" ++ formatCurrency unrealizedPnl "USDT" ++
  "</div>" ++ nl ++ "                    </div>" ++ nl ++
  "                </div>" ++ nl ++ "                <div class=" ++ dq ++
  "position-actions" ++ dq ++ ">" ++ nl ++
  "                    <button class=" ++ dq ++ "btn btn-danger btn-sm" ++
  dq ++ " onclick=" ++ dq ++ "closePosition('" ++ to_string symbol ++
  "', '" ++ to_string positionSide ++ "')" ++ dq ++ ">" ++ nl ++
  "                        <i class=" ++ dq ++ "fas fa-times" ++ dq ++
  "></i> Pozisyonu Kapat" ++ nl ++ "                    </button>" ++ nl ++
  "                </div>" ++ nl ++ "            </div>" ++ nl ++ "        ").

Fixpoint mapM {A C} (f : A -> M C) (l : list A) : M (list C) :=
  match l with
  | [] => ret []
  | x :: xs =>
      y <- f x ;;
      ys <- mapM f xs ;;
      ret (y :: ys)
  end.

(** [v === 0] *)
Definition is_zero (v : jsval) : bool :=
  match v with
  | VNum n => num_is_zero n
  | _ => false
  end.

Definition updatePositions (positions : jsval) : M unit :=
  positionsContainer <- getElementById "positions-container" ;;
  match positionsContainer with
  | None => ret tt
  | Some _ =>
      len <- (if truthy positions then get positions "length" else ret VUndef) ;;
      if negb (truthy positions) || is_zero len then
        update "positions-container" (set_prop "innerHTML" (VStr emptyStateHTML))
      else
        match positions with
        | VArr items =>
            htmls <- mapM positionItem items ;;
            let positionsHTML := String.concat "" htmls in
            update "positions-container" (set_prop "innerHTML" (VStr positionsHTML))
        | _ => throw (TypeError "positions.map is not a function")
        end
  end.

Definition updateStats (stats : jsval) : M unit :=
  ifPresent "total-trades"
    (t <- get stats "totalTrades" ;;
     update "total-trades" (set_prop "textContent" (or t (VStr "0")))) ;;
  ifPresent "win-rate"
    (r <- get stats "winRate" ;;
     update "win-rate"
       (set_prop "textContent" (VStr (formatPercentage (or r (VNum (num_of_Z 0))))))) ;;
  ifPresent "total-pnl"
    (p <- get stats "totalPnl" ;;
     update "total-pnl"
       (set_prop "textContent"
          (VStr (formatCurrency (or p (VNum (num_of_Z 0))) "USDT"))) ;;
     p' <- get stats "totalPnl" ;;
     let pnlValue := parseFloat B (or p' (VNum (num_of_Z 0))) in
     update "total-pnl" (set_prop "style.color" (VStr (pnlColor pnlValue)))).

Definition apiConnectedHTML : string :=
  nl ++ "                <i class=" ++ dq ++ "fas fa-check-circle" ++ dq ++
  "></i>" ++ nl ++ "                <span>API bağlantısı aktif</span>" ++
  nl ++ "            ".

Definition apiErrorHTML : string :=
  nl ++ "                <i class=" ++ dq ++ "fas fa-times-circle" ++ dq ++
  "></i>" ++ nl ++ "                <span>API bağlantı hatası</span>" ++
  nl ++ "            ".

Definition apiKeysNeededHTML : string :=
  nl ++ "                <i class=" ++ dq ++
  "fas fa-exclamation-triangle" ++ dq ++ "></i>" ++ nl ++
  "                <span>API anahtarları gerekli</span>" ++ nl ++
  "            ".

(** [loadTradingPairs()] is called without [await]: the call is recorded
    and its body is left to run after the caller. *)
Definition loadTradingPairs_detached : M unit :=
  modify (fun w => set_detached (detached w ++ [TaskLoadTradingPairs]) w).

Definition updateApiStatus (apiStatus : jsval) : M unit :=
  hasApiKeys <- get apiStatus "hasApiKeys" ;;
  isConnected <- (if truthy hasApiKeys then get apiStatus "isConnected" else ret VUndef) ;;
  if truthy hasApiKeys && truthy isConnected then
    ifPresent "api-status-indicator"
      (update "api-status-indicator" (set_prop "innerHTML" (VStr apiConnectedHTML)) ;;
       update "api-status-indicator" (set_classes ["api-status-indicator"; "connected"])) ;;
    ifPresent "manage-api-btn"
      (update "manage-api-btn" (set_prop "style.display" (VStr "inline-flex")) ;;
       update "manage-api-btn" (set_prop "textContent" (VStr "API Ayarlarını Düzenle"))) ;;
    ifPresent "trading-settings"
      (update "trading-settings" (set_prop "style.display" (VStr "block"))) ;;
    ifPresent "control-buttons"
      (update "control-buttons" (set_prop "style.display" (VStr "grid"))) ;;
    ifPresent "status-message-text"
      (update "status-message-text"
         (set_prop "textContent"
            (VStr "Bot hazır. Ayarları yapılandırıp başlatabilirsiniz."))) ;;
    loadTradingPairs_detached
  else if truthy hasApiKeys && negb (truthy isConnected) then
    ifPresent "api-status-indicator"
      (update "api-status-indicator" (set_prop "innerHTML" (VStr apiErrorHTML)) ;;
       update "api-status-indicator" (set_classes ["api-status-indicator"; "error"])) ;;
    ifPresent "manage-api-btn"
      (update "manage-api-btn" (set_prop "style.display" (VStr "inline-flex")) ;;
       update "manage-api-btn" (set_prop "textContent" (VStr "API Anahtarlarını Düzenle"))) ;;
    ifPresent "status-message-text"
      (m <- get apiStatus "message" ;;
       update "status-message-text"
         (set_prop "textContent" (or m (VStr "API bağlantı hatası"))))
  else
    ifPresent "api-status-indicator"
      (update "api-status-indicator" (set_prop "innerHTML" (VStr apiKeysNeededHTML)) ;;
       update "api-status-indicator" (set_classes ["api-status-indicator"; "error"])) ;;
    ifPresent "manage-api-btn"
      (update "manage-api-btn" (set_prop "style.display" (VStr "inline-flex")) ;;
       update "manage-api-btn" (set_prop "textContent" (VStr "API Anahtarlarını Ekle"))) ;;
    ifPresent "status-message-text"
      (update "status-message-text"
         (set_prop "textContent"
            (VStr "Bot'u çalıştırmak için API anahtarlarınızı eklemelisiniz."))).

(** *** Loading the dashboard *)

Definition placeholderProfile : jsval :=
  VObj [("email", VStr "Kullanıcı");
        ("subscription", VObj [("status", VStr "trial")])].

Definition placeholderStats : jsval :=
  VObj [("totalTrades", VNum (num_of_Z 0));
        ("totalPnl", VNum (num_of_Z 0));
        ("winRate", VNum (num_of_Z 0))].

Definition loadFallbackData : M unit :=
  try_catch
    (profile <- makeAuthenticatedApiCall "/api/user/profile" no_options ;;
     updateProfile profile ;;
     stats <- makeAuthenticatedApiCall "/api/user/stats" no_options ;;
     updateStats stats ;;
     showNotification "Temel veriler yüklendi (sınırlı mod)" "warning" 5000)
    (fun error =>
       updateProfile placeholderProfile ;;
       updateStats placeholderStats).

Definition loadAllDashboardData : M unit :=
  try_catch
    (data <- makeAuthenticatedApiCall "/api/user/dashboard-data" no_options ;;
     profile <- get data "profile" ;;
     updateProfile profile ;;
     account <- get data "account" ;;
     updateAccount account ;;
     positions <- get data "positions" ;;
     updatePositions positions ;;
     stats <- get data "stats" ;;
     updateStats stats ;;
     api_status <- get data "api_status" ;;
     updateApiStatus api_status ;;
     showNotification "Dashboard başarıyla yüklendi!" "success" 2000)
    (fun error =>
       showNotification "Dashboard verileri yüklenirken hata oluştu" "error" 5000 ;;
       try_catch loadFallbackData (fun fallbackError => ret tt)).

(** *** Bot status and actions *)

Definition getBotStatus : M unit :=
  try_catch
    (response <- makeAuthenticatedApiCall "/api/bot/status" no_options ;;
     st <- get response "status" ;;
     is_running <- (if truthy st then get st "is_running" else ret VUndef) ;;
     if truthy st && truthy is_running then
       ifPresent "status-dot" (update "status-dot" (set_classes ["status-dot"; "active"])) ;;
       ifPresent "status-text"
         (update "status-text" (set_prop "textContent" (VStr "Çalışıyor"))) ;;
       ifPresent "status-message-text"
         (m <- get st "status_message" ;;
          update "status-message-text"
            (set_prop "textContent" (or m (VStr "Bot aktif olarak çalışıyor")))) ;;
       ifPresent "start-bot-btn"
         (update "start-bot-btn" (set_prop "disabled" (VBool true))) ;;
       ifPresent "stop-bot-btn"
         (update "stop-bot-btn" (set_prop "disabled" (VBool false)))
     else
       ifPresent "status-dot" (update "status-dot" (set_classes ["status-dot"])) ;;
       ifPresent "status-text"
         (update "status-text" (set_prop "textContent" (VStr "Durduruldu"))) ;;
       ifPresent "status-message-text"
         (st' <- get response "status" ;;
          m <- getOpt st' "status_message" ;;
          update "status-message-text"
            (set_prop "textContent" (or m (VStr "Bot durduruldu")))) ;;
       ifPresent "start-bot-btn"
         (update "start-bot-btn" (set_prop "disabled" (VBool false))) ;;
       ifPresent "stop-bot-btn"
         (update "stop-bot-btn" (set_prop "disabled" (VBool true))))
    (fun error => ret tt).

Definition startPeriodicUpdates : M unit :=
  old <- gets updateInterval ;;
  when (handle_truthy old) (clearInterval (default 0%nat old)) ;;
  h <- setInterval CbPoll 30000 ;;
  modify (set_updateInterval (Some h)).

Definition stopPeriodicUpdates : M unit :=
  old <- gets updateInterval ;;
  when (handle_truthy old)
    (clearInterval (default 0%nat old) ;;
     modify (set_updateInterval None)).

Definition setupTokenRefresh : M unit :=
  old <- gets tokenRefreshInterval ;;
  when (handle_truthy old) (clearInterval (default 0%nat old)) ;;
  h <- setInterval CbTokenRefresh (50 * 60 * 1000) ;;
  modify (set_tokenRefreshInterval (Some h)).

(** The object literal [botConfig] of [startBot], read off the form. *)
Definition botConfig : M jsval :=
  symbol <- read "symbol-select" "value" ;;
  timeframe <- read "timeframe-select" "value" ;;
  leverage <- read "leverage-select" "value" ;;
  orderSize <- read "order-size" "value" ;;
  stop_loss <- read "stop-loss" "value" ;;
  take_profit <- read "take-profit" "value" ;;
  maxDailyTrades <- read "max-daily-trades" "value" ;;
  autoCompound <- read "auto-compound" "checked" ;;
  manualTrading <- read "manual-trading" "checked" ;;
  notificationsEnabled <- read "notifications-enabled" "checked" ;;
  ret (VObj
    [("symbol", or symbol (VStr "BTCUSDT"));
     ("timeframe", or timeframe (VStr "15m"));
     ("leverage", VNum (parseInt B (or leverage (VStr "10"))));
     ("order_size", VNum (parseFloat B (or orderSize (VStr "35"))));
     ("stop_loss", VNum (parseFloat B (or stop_loss (VStr "0.8"))));
     ("take_profit", VNum (parseFloat B (or take_profit (VStr "1.2"))));
     ("max_daily_trades", VNum (parseInt B (or maxDailyTrades (VStr "10"))));
     ("auto_compound", or autoCompound (VBool false));
     ("manual_trading", or manualTrading (VBool false));
     ("notifications_enabled", or notificationsEnabled (VBool true))]).

Definition startBot : M unit :=
  try_catch
    (ifPresent "start-bot-btn"
       (update "start-bot-btn" (set_prop "disabled" (VBool true)) ;;
        update "start-bot-btn"
          (set_prop "innerHTML"
             (VStr (
              "<i class=" ++ dq ++ "fas fa-spinner fa-spin" ++ dq ++
              "></i> Başlatılıyor...")))) ;;
     ifPresent "status-message-text"
       (update "status-message-text" (set_prop "textContent" (VStr "Bot başlatılıyor..."))) ;;
     config <- botConfig ;;
     response <- makeAuthenticatedApiCall "/api/bot/start" (post (Some config)) ;;
     success <- get response "success" ;;
     if truthy success then
       showNotification "Bot başarıyla başlatıldı!" "success" 5000 ;;
       getBotStatus ;;
       startPeriodicUpdates
     else
       m <- get response "message" ;;
       throw (Error (to_string (or m (VStr "Bot başlatılamadı")))))
    (fun error =>
       showNotification ("Bot başlatma hatası: " ++ message_of error) "error" 5000 ;;
       ifPresent "start-bot-btn"
         (update "start-bot-btn" (set_prop "disabled" (VBool false)) ;;
          update "start-bot-btn"
            (set_prop "innerHTML"
               (VStr (
              "<i class=" ++ dq ++ "fas fa-play" ++ dq ++
              "></i> Bot'u Başlat"))))).

Definition closePosition (symbol positionSide : string) : M unit :=
  confirmed <- gets (fun w =>
    confirm E (trace w)
      (symbol ++ " " ++ positionSide ++
       " pozisyonunu kapatmak istediğinizden emin misiniz?")) ;;
  if negb confirmed then ret tt
  else
    try_catch
      (response <- makeAuthenticatedApiCall "/api/user/close-position"
         (post (Some (VObj [("symbol", VStr symbol);
                            ("positionSide", VStr positionSide)]))) ;;
       success <- get response "success" ;;
       if truthy success then
         showNotification "Pozisyon başarıyla kapatıldı!" "success" 5000 ;;
         loadAllDashboardData ;;
         getBotStatus
       else
         m <- get response "message" ;;
         throw (Error (to_string (or m (VStr "Pozisyon kapatılamadı")))))
      (fun error =>
         showNotification ("Pozisyon kapatma hatası: " ++ message_of error) "error" 5000).

(** *** Timer callbacks *)

(** The callback [startPeriodicUpdates] hands to [setInterval]. *)
Definition pollTick : M unit :=
  try_catch
    (getBotStatus ;;
     now <- gets (fun w => minutes E (trace w)) ;;
     when (Z.rem now 5 =? 0) loadAllDashboardData)
    (fun error => ret tt).

(** The callback [setupTokenRefresh] hands to [setInterval]. *)
Definition tokenRefreshTick : M unit :=
  try_catch (_ <- getFreshToken ;; ret tt) (fun error => ret tt).

Definition runCallback (cb : callback) : M unit :=
  match cb with
  | CbPoll => pollTick
  | CbTokenRefresh => tokenRefreshTick
  | CbHideToast => update "toast" (remove_class "show")
  end.

(** The browser fires the timer with handle [h]. *)
Definition fire (h : nat) : M unit :=
  t <- gets (fun w => timers w !! h) ;;
  match t with
  | None => ret tt
  | Some t =>
      when (negb (timer_repeats t)) (clearInterval h) ;;
      runCallback (timer_callback t)
  end.

(** *** User events on the recommendation controls *)

Inductive ui_event :=
| SelectTimeframe (v : string)
| EditStopLoss (text : string)
| EditTakeProfit (text : string)
| ClickSlRecommendation
| ClickTpRecommendation
| ClickUseSlRecommended
| ClickUseTpRecommended.

(** The element the event is dispatched to. *)
Definition target (e : ui_event) : string :=
  match e with
  | SelectTimeframe _ => "timeframe-select"
  | EditStopLoss _ => "stop-loss"
  | EditTakeProfit _ => "take-profit"
  | ClickSlRecommendation => "sl-recommendation-btn"
  | ClickTpRecommendation => "tp-recommendation-btn"
  | ClickUseSlRecommended => "use-sl-recommended"
  | ClickUseTpRecommended => "use-tp-recommended"
  end.

(** What the browser does to the element before the listener runs. *)
Definition browserAction (e : ui_event) : M unit :=
  match e with
  | SelectTimeframe v => update "timeframe-select" (set_prop "value" (VStr v))
  | EditStopLoss text => update "stop-loss" (set_prop "value" (VStr text))
  | EditTakeProfit text => update "take-profit" (set_prop "value" (VStr text))
  | _ => ret tt
  end.

Definition listener (e : ui_event) : M unit :=
  match e with
  | SelectTimeframe _ => onTimeframeChange
  | EditStopLoss _ => onStopLossInput
  | EditTakeProfit _ => onTakeProfitInput
  | ClickSlRecommendation => onSlRecommendationClick
  | ClickTpRecommendation => onTpRecommendationClick
  | ClickUseSlRecommended => onUseSlRecommendedClick
  | ClickUseTpRecommended => onUseTpRecommendedClick
  end.

(** One user event: nothing happens on an element the page does not
    have; an exception in a listener ends the listener and is otherwise
    lost. *)
Definition dispatch (e : ui_event) (w : world) : world :=
  match dom w !! target e with
  | None => w
  | Some _ => snd ((browserAction e ;; listener e) w)
  end.

End Script.

(** ** The rest of the controller *)

(** [el.classList.contains(c)] *)
Definition has_class (c : string) (el : element) : bool :=
  bool_decide (c ∈ classes el).

(** [el.classList.toggle(c)] *)
Definition toggle_class (c : string) (el : element) : element :=
  if has_class c el then remove_class c el else add_class c el.

(** A promise of a library outside the script, awaited: its outcome is
    handed in by the caller. *)
Definition await {A} (outcome : res A) : M A := fun w => (outcome, w).

(** [window.location.href = ...] ends the life of the page: the functions
    that may navigate return the address they navigate to, if any. *)
Definition loginPage : string := "/login.html".

Section Controls.

Variable E : Env.
Variable B : Builtins.

Definition toggleAdvancedSettings : M unit :=
  content <- getElementById "advanced-settings-content" ;;
  toggle <- getElementById "advanced-toggle" ;;
  match content, toggle with
  | Some c, Some _ =>
      if has_class "show" c then
        update "advanced-settings-content" (remove_class "show") ;;
        update "advanced-toggle"
          (set_prop "innerHTML"
             (VStr ("<i class=" ++ dq ++ "fas fa-chevron-down" ++ dq ++ "></i>")))
      else
        update "advanced-settings-content" (add_class "show") ;;
        update "advanced-toggle"
          (set_prop "innerHTML"
             (VStr ("<i class=" ++ dq ++ "fas fa-chevron-up" ++ dq ++ "></i>")))
  | _, _ => ret tt
  end.

(** [arr.join(sep)] *)
Definition joinOf (v : jsval) (sep : string) : M string :=
  match v with
  | VArr items =>
      ret (String.concat sep
             (map (fun x => if nullish x then "" else to_string B x) items))
  | VUndef | VNull =>
      throw (TypeError "Cannot read properties of undefined (reading 'join')")
  | _ => throw (TypeError "join is not a function")
  end.

(** [appInfo] is the outcome of [window.configLoader.getAppInfo()]. *)
Definition loadPaymentAndServerInfo (appInfo : res jsval) : M unit :=
  try_catch
    (info <- await appInfo ;;
     ifPresent "payment-address-text"
       (a <- get info "payment_address" ;;
        update "payment-address-text"
          (set_prop "textContent" (or a (VStr "Ödeme adresi yüklenemedi")))) ;;
     ifPresent "payment-amount"
       (p <- get info "bot_price" ;;
        update "payment-amount"
          (set_prop "textContent"
             (VStr ("$" ++ to_string B (or p (VNum (num_of_Z 15))) ++ "/Ay")))) ;;
     ifPresent "server-ips-text"
       (ips <- get info "server_ips" ;;
        when (truthy ips)
          (ips' <- get info "server_ips" ;;
           joined <- joinOf ips' ", " ;;
           update "server-ips-text" (set_prop "textContent" (VStr joined)))))
    (fun error => ret tt).

Definition stopBot : M unit :=
  try_catch
    (ifPresent "stop-bot-btn"
       (update "stop-bot-btn" (set_prop "disabled" (VBool true)) ;;
        update "stop-bot-btn"
          (set_prop "innerHTML"
             (VStr (
              "<i class=" ++ dq ++ "fas fa-spinner fa-spin" ++ dq ++
              "></i> Durduruluyor...")))) ;;
     ifPresent "status-message-text"
       (update "status-message-text" (set_prop "textContent" (VStr "Bot durduruluyor..."))) ;;
     response <- makeAuthenticatedApiCall E "/api/bot/stop" (post None) ;;
     success <- get response "success" ;;
     if truthy success then
       showNotification "Bot başarıyla durduruldu!" "success" 5000 ;;
       getBotStatus E ;;
       stopPeriodicUpdates
     else
       m <- get response "message" ;;
       throw (Error (to_string B (or m (VStr "Bot durdurulamadı")))))
    (fun error =>
       showNotification ("Bot durdurma hatası: " ++ message_of error) "error" 5000 ;;
       ifPresent "stop-bot-btn"
         (update "stop-bot-btn" (set_prop "disabled" (VBool false)) ;;
          update "stop-bot-btn"
            (set_prop "innerHTML"
               (VStr (
              "<i class=" ++ dq ++ "fas fa-stop" ++ dq ++
              "></i> Bot'u Durdur"))))).

Definition openApiModal : M unit :=
  ifPresent "api-modal"
    (update "api-modal" (add_class "show") ;;
     ifPresent "api-key" (update "api-key" (set_prop "value" (VStr ""))) ;;
     ifPresent "api-secret"
       (update "api-secret" (set_prop "placeholder" (VStr "API Secret"))) ;;
     ifPresent "api-testnet" (update "api-testnet" (set_prop "checked" (VBool false))) ;;
     try_catch
       (apiInfo <- makeAuthenticatedApiCall E "/api/user/api-info" no_options ;;
        hasKeys <- get apiInfo "hasKeys" ;;
        when (truthy hasKeys)
          (ifPresent "api-key"
             (k <- get apiInfo "maskedApiKey" ;;
              update "api-key" (set_prop "value" (or k (VStr "")))) ;;
           ifPresent "api-testnet"
             (t <- get apiInfo "is_testnet" ;;
              update "api-testnet" (set_prop "checked" (or t (VBool false)))) ;;
           ifPresent "api-secret"
             (update "api-secret"
                (set_prop "placeholder"
                   (VStr "Mevcut secret korunuyor (değiştirmek için yeni girin)")))))
       (fun error =>
          showNotification
            "API key bilgileri yüklenirken hata oluştu. Lütfen tekrar deneyin."
            "error" 5000)).

Definition openPurchaseModal : M unit :=
  ifPresent "purchase-modal" (update "purchase-modal" (add_class "show")).

Definition closePurchaseModal : M unit :=
  ifPresent "purchase-modal"
    (update "purchase-modal" (remove_class "show") ;;
     ifPresent "transaction-hash"
       (update "transaction-hash" (set_prop "value" (VStr "")))).

Definition openSupportModal : M unit :=
  ifPresent "support-modal" (update "support-modal" (add_class "show")).

Definition toggleMobileMenu : M unit :=
  ifPresent "mobile-menu" (update "mobile-menu" (toggle_class "show")).

Definition closeMobileMenu : M unit :=
  ifPresent "mobile-menu" (update "mobile-menu" (remove_class "show")).

(** [signOut] is the outcome of [auth.signOut()]; the auth-state event it
    leads to is [onAuthStateChanged] below. *)
Definition logout (signOut : res unit) : M (option string) :=
  confirmed <- gets (fun w =>
    confirm E (trace w) "Çıkış yapmak istediğinizden emin misiniz?") ;;
  if negb confirmed then ret None
  else
    try_catch
      (old <- gets tokenRefreshInterval ;;
       when (handle_truthy old)
         (clearInterval (default 0%nat old) ;;
          modify (set_tokenRefreshInterval None)) ;;
       await signOut ;;
       stopPeriodicUpdates ;;
       modify (set_authToken None) ;;
       modify (set_currentUser None) ;;
       ret (Some loginPage))
      (fun error =>
         showNotification "Çıkış yapılırken hata oluştu" "error" 5000 ;;
         ret None).

(** Registering a listener leaves no mark on the page; what is left of
    [setupEventListeners] is its last call. *)
Definition setupEventListeners : M unit := setupSmartRecommendations B.

(** The listener [initializeDashboard] hands to [auth.onAuthStateChanged]. *)
Definition onAuthStateChanged (u : option user) (appInfo : res jsval) : M (option string) :=
  match u with
  | Some u =>
      modify (set_currentUser (Some u)) ;;
      try_catch
        (token <- getIdToken E u ;;
         modify (set_authToken (Some token)) ;;
         setupTokenRefresh ;;
         loadAllDashboardData E B ;;
         getBotStatus E ;;
         loadPaymentAndServerInfo appInfo ;;
         setupEventListeners ;;
         ifPresent "loading-screen"
           (update "loading-screen" (set_prop "style.display" (VStr "none"))) ;;
         ifPresent "dashboard" (update "dashboard" (remove_class "hidden")))
        (fun error => showNotification "Dashboard verileri yüklenemedi" "error" 5000) ;;
      ret None
  | None =>
      old <- gets tokenRefreshInterval ;;
      when (handle_truthy old)
        (clearInterval (default 0%nat old) ;;
         modify (set_tokenRefreshInterval None)) ;;
      ret (Some loginPage)
  end.

(** *** What can happen to the page *)

Inductive action :=
| AuthStateChanged (u : option user) (appInfo : res jsval)
| TimerFires (h : nat)
| ClickStartBot
| ClickStopBot
| ClickClosePosition (symbol positionSide : string)
| ClickRefresh
| ClickLogout (signOut : res unit)
| ClickManageApi
| ClickAdvancedToggle
| ClickHamburger
| ClickSettings
| Recommendation (e : ui_event).

Definition perform (a : action) (w : world) : world :=
  match a with
  | AuthStateChanged u appInfo => snd (onAuthStateChanged u appInfo w)
  | TimerFires h => snd (fire E B h w)
  | ClickStartBot => snd (startBot E B w)
  | ClickStopBot => snd (stopBot w)
  | ClickClosePosition symbol positionSide => snd (closePosition E B symbol positionSide w)
  | ClickRefresh => snd (loadAllDashboardData E B w)
  | ClickLogout signOut => snd (logout signOut w)
  | ClickManageApi => snd (openApiModal w)
  | ClickAdvancedToggle => snd (toggleAdvancedSettings w)
  | ClickHamburger => snd (toggleMobileMenu w)
  | ClickSettings =>
      snd (showNotification "Ayarlar sayfası geliştirilmekte..." "info" 5000 w)
  | Recommendation e => dispatch B e w
  end.

Fixpoint performAll (acts : list action) (w : world) : world :=
  match acts with
  | [] => w
  | a :: rest => performAll rest (perform a w)
  end.

End Controls.

(** ** Vocabulary of the properties *)

(** The two failures the API client raises by name. *)
Definition AuthError : exn := Error "Authentication failed - please login again".

Definition HttpError (s : N) : exn := Error ("HTTP " ++ pretty s).

(** The requests sent to the backend, and the tokens asked of the identity
    provider, in a stretch of the log. *)
Definition fetches (t : list event) : list request :=
  omap (fun ev => match ev with EvFetch r => Some r | _ => None end) t.

Definition tokenRequests (t : list event) : list user :=
  omap (fun ev => match ev with EvGetIdToken u => Some u | _ => None end) t.

(** What was logged between [w] and a later world [w']. *)
Definition newEvents (w w' : world) : list event :=
  drop (length (trace w)) (trace w').

(** The world in which [makeAuthenticatedApiCall] sends its first request:
    the world it starts in when a token is cached, the world after
    [getFreshToken] when that yields a token, none otherwise. *)
Definition atFirstFetch (E : Env) (w : world) : option world :=
  if token_truthy (authToken w) then Some w
  else match getFreshToken E w with
       | (Ok _, w1) => if token_truthy (authToken w1) then Some w1 else None
       | (Throw _, _) => None
       end.

(** The refresh-and-retry block in direct style: [w2] is the world right
    after the first request [req1] was answered 401. *)
Definition retryOutcome (E : Env) (req1 : request) (w2 : world) : res jsval * world :=
  match currentUser w2 with
  | None => (Throw AuthError, w2)
  | Some u =>
      match idp E (trace w2) u with
      | Throw _ => (Throw AuthError, log (EvGetIdToken u) w2)
      | Ok t =>
          let req2 := with_authorization req1 (Some t) in
          let w3 := set_authToken (Some t) (log (EvGetIdToken u) w2) in
          let w4 := log (EvFetch req2) w3 in
          match server E (trace w3) req2 with
          | Throw _ => (Throw AuthError, w4)
          | Ok r2 =>
              if ok r2 then
                match fst (decode r2 w4) with
                | Ok v => (Ok v, w4)
                | Throw _ => (Throw AuthError, w4)
                end
              else (Throw AuthError, w4)
          end
      end
  end.

Definition present (id : string) (w : world) : bool :=
  bool_decide (is_Some (dom w !! id)).

(** The toast and the two elements [showNotification] looks up in it. *)
Definition toastPresent (w : world) : bool :=
  present "toast" w && present "toast .toast-icon" w && present "toast .toast-message" w.

(** [m] leaves alone what [f] reads of the world. *)
Definition keeps {A X} (f : world -> X) (m : M A) : Prop :=
  forall w, f (snd (m w)) = f w.

(** [m] cannot throw. *)
Definition safe {A} (m : M A) : Prop := forall w, exists a, fst (m w) = Ok a.

(** [m] only adds to the log, and what it adds satisfies [Q]. *)
Definition emitsAt (Q : event -> Prop) {A} (m : M A) (w : world) : Prop :=
  exists evs, trace (snd (m w)) = (trace w ++ evs)%list /\ Forall Q evs.

Definition emits (Q : event -> Prop) {A} (m : M A) : Prop :=
  forall w, emitsAt Q m w.

(** A request of the call [makeAuthenticatedApiCall endpoint o]. *)
Definition fromCall (endpoint : string) (o : options) (ev : event) : Prop :=
  match ev with
  | EvFetch r =>
      req_endpoint r = endpoint /\ req_method r = opt_method o /\ req_body r = opt_body o
  | EvGetIdToken _ => True
  end.

Definition anyEvent (ev : event) : Prop := True.

Definition dashboardRequested (evs : list event) : Prop :=
  exists r, EvFetch r ∈ evs /\ req_endpoint r = "/api/user/dashboard-data".

#[global] Instance callback_eq_dec : EqDecision callback.
Proof. solve_decision. Defined.

#[global] Instance ui_event_eq_dec : EqDecision ui_event.
Proof. solve_decision. Defined.

(** Calls of the two functions that own [updateInterval]. *)
Inductive poller_op :=
| OpStart
| OpStop.

Definition runOp (op : poller_op) : M unit :=
  match op with
  | OpStart => startPeriodicUpdates
  | OpStop => stopPeriodicUpdates
  end.

Fixpoint runOps (ops : list poller_op) (w : world) : world :=
  match ops with
  | [] => w
  | op :: rest => runOps rest (snd (runOp op w))
  end.

(** The status pollers that are live in the timer table. *)
Definition pollTimers (w : world) : gmap nat timer :=
  filter (fun ht => timer_callback ht.2 = CbPoll) (timers w).

Definition pollTimer : timer :=
  {| timer_callback := CbPoll; timer_delay := 30000; timer_repeats := true |}.

(** Handles are positive and below the next handle to be given out, and a
    live status poller is the one [updateInterval] holds.  The page starts
    in such a state (no timer, [updateInterval] null) and the browser
    keeps the first part. *)
Definition pollerInv (w : world) : Prop :=
  (forall h t, timers w !! h = Some t -> (0 < h < nextTimer w)%nat) /\
  (forall h, updateInterval w = Some h -> (0 < h < nextTimer w)%nat) /\
  (0 < nextTimer w)%nat /\
  (forall h t, timers w !! h = Some t -> timer_callback t = CbPoll ->
               updateInterval w = Some h).

(** What [updateStrategyInfo] makes of an input it fills in. *)
Definition recommendedInput (v : number) (el : element) : element :=
  remove_class "manual-input" (add_class "recommended-input" (set_prop "value" (VNum v) el)).

(** A position as the backend sends it: an object whose [symbol] and
    [positionSide] are strings. *)
Definition wellFormedPosition (p : jsval) : Prop :=
  exists fields symbol side,
    p = VObj fields /\ assoc "symbol" fields = VStr symbol /\
    assoc "positionSide" fields = VStr side.

(** How the markup of a position item begins. *)
Definition positionItemOpener : string :=
  nl ++ "            <div class=" ++ dq ++ "position-item" ++ dq ++ ">".

(** [el.innerHTML = html] on the element with this id *)
Definition setInnerHTML (id html : string) (w : world) : world :=
  set_dom (alter (set_prop "innerHTML" (VStr html)) id (dom w)) w.

(** The [catch] block of [loadFallbackData]: both placeholders rendered. *)
Definition renderPlaceholders (B : Builtins) (w : world) : world :=
  snd ((updateProfile B placeholderProfile ;; updateStats B placeholderStats) w).

(** [notificationsEnabled?.checked] *)
Definition checkboxState (w : world) : jsval :=
  prop_of (dom w !! "notifications-enabled") "checked".

(** A request that, if it starts the bot, does so with notifications
    enabled. *)
Definition startsWithNotifications (ev : event) : Prop :=
  match ev with
  | EvFetch r =>
      req_endpoint r = "/api/bot/start" ->
      req_method r = Some "POST" /\
      exists fields, req_body r = Some (VObj fields) /\
                     assoc "notifications_enabled" fields = VBool true
  | EvGetIdToken _ => True
  end.

(** The token refresher [setupTokenRefresh] registers, and the timer
    [showNotification] hides the toast with. *)
Definition refreshTimer : timer :=
  {| timer_callback := CbTokenRefresh; timer_delay := 3000000; timer_repeats := true |}.

Definition hideTimer (duration : Z) : timer :=
  {| timer_callback := CbHideToast; timer_delay := duration; timer_repeats := false |}.

Definition refreshTimers (w : world) : gmap nat timer :=
  filter (fun ht => timer_callback ht.2 = CbTokenRefresh) (timers w).

(** The timer table as the script keeps it: handles are positive and below
    the next one to be given out; the status pollers in it are the one
    [updateInterval] holds, the token refreshers the one
    [tokenRefreshInterval] holds, and each of the two variables holds a
    live timer of its kind or none. *)
Definition timerInv (w : world) : Prop :=
  (0 < nextTimer w)%nat /\
  (forall h t, timers w !! h = Some t -> (0 < h < nextTimer w)%nat) /\
  (forall h t, timers w !! h = Some t -> timer_callback t = CbPoll ->
               t = pollTimer /\ updateInterval w = Some h) /\
  (forall h, updateInterval w = Some h -> timers w !! h = Some pollTimer) /\
  (forall h t, timers w !! h = Some t -> timer_callback t = CbTokenRefresh ->
               t = refreshTimer /\ tokenRefreshInterval w = Some h) /\
  (forall h, tokenRefreshInterval w = Some h -> timers w !! h = Some refreshTimer).

(** From [w] to [w'] the timers with a handle already given out are as
    they were, so are the two handle variables, and a timer that is new is
    a toast timer with a fresh handle. *)
Definition timersGrow (w w' : world) : Prop :=
  (nextTimer w <= nextTimer w')%nat /\
  updateInterval w' = updateInterval w /\
  tokenRefreshInterval w' = tokenRefreshInterval w /\
  (forall h, (h < nextTimer w)%nat -> timers w' !! h = timers w !! h) /\
  (forall h t, (nextTimer w <= h)%nat -> timers w' !! h = Some t ->
               timers w !! h = Some t \/
               ((h < nextTimer w')%nat /\ timer_callback t = CbHideToast)).

Definition grows {A} (m : M A) : Prop := forall w, timersGrow w (snd (m w)).

(** [el.className], as a list, of an element that may be missing. *)
Definition classes_of (el : option element) : list string :=
  match el with
  | Some e => classes e
  | None => []
  end.

(** The content type names JSON. *)
Definition isJson (r : response) : bool :=
  match content_type r with
  | Some contentType => includes contentType "application/json"
  | None => false
  end.

(** All of the world but the document. *)
Definition besidesDom (w : world) :=
  (currentUser w, authToken w, tokenRefreshInterval w, updateInterval w,
   manualSL w, manualTP w, timers w, nextTimer w, detached w, trace w).

(** The session variables and the log. *)
Definition sessionLog (w : world) :=
  (currentUser w, authToken w, trace w).

(** What the auth-state listener runs once the token refresher is set
    up. *)
Definition session (E : Env) (B : Builtins) (appInfo : res jsval) : M unit :=
  loadAllDashboardData E B ;; getBotStatus E ;;
  loadPaymentAndServerInfo B appInfo ;; setupEventListeners B ;;
  ifPresent "loading-screen"
    (update "loading-screen" (set_prop "style.display" (VStr "none"))) ;;
  ifPresent "dashboard" (update "dashboard" (remove_class "hidden")).

(** What the toast says. *)
Definition toastText (w : world) : jsval :=
  prop_of (dom w !! "toast .toast-message") "textContent".

(** The answer of the status endpoint says that the bot runs:
    [response.status && response.status.is_running]. *)
Definition reportsRunning (response : jsval) : bool :=
  match response with
  | VObj fields =>
      match assoc "status" fields with
      | VObj status => truthy (assoc "is_running" status)
      | _ => false
      end
  | _ => false
  end.

(** [m] keeps the invariant [I]. *)
Definition preserves {A} (I : world -> Prop) (m : M A) : Prop :=
  forall w, I w -> I (snd (m w)).

(** What the timer functions read and write. *)
Definition timerState (w : world) : gmap nat timer * nat * option nat * option nat :=
  (timers w, nextTimer w, updateInterval w, tokenRefreshInterval w).

(** ** Sample pages, backends and built-ins *)

(** Stand-ins for the number formatting of the JavaScript library: exact
    on whole numbers, which is all the samples below contain. *)
Definition wholeToString (n : number) (suffix : string) : string :=
  match n with
  | NaN => "NaN"
  | Fin q => pretty (Qnum q / Zpos (Qden q)) ++ suffix
  end.

Fixpoint replaceFirstIn (s a b : string) : string :=
  if String.prefix a s
  then b ++ String.substring (String.length a) (String.length s - String.length a) s
  else match s with
       | EmptyString => EmptyString
       | String c s' => String c (replaceFirstIn s' a b)
       end.

Definition lowerAscii (c : ascii) : ascii :=
  let n := nat_of_ascii c in
  if (65 <=? n)%nat && (n <=? 90)%nat then ascii_of_nat (n + 32) else c.

Fixpoint lowerCase (s : string) : string :=
  match s with
  | EmptyString => EmptyString
  | String c s' => String (lowerAscii c) (lowerCase s')
  end.

Definition sampleBuiltins : Builtins :=
  {| numToString := fun n => wholeToString n "";
     toFixed2 := fun n => wholeToString n ".00";
     toLocaleTR := fun n => wholeToString n ",00";
     toNumber := fun _ => NaN;
     parseFloat := fun v => match v with VNum n => n | _ => NaN end;
     parseInt := fun v => match v with VNum n => n | _ => NaN end;
     toLowerCase := lowerCase;
     replaceFirst := replaceFirstIn |}.

Definition alice : user := {| uid := "u-1"; email := "trader@example.com" |}.

Definition blank : element := {| props := ∅; classes := [] |}.

Definition samplePage : gmap string element :=
  <["notifications-enabled" := {| props := {["checked" := VBool false]}; classes := [] |}]>
    (list_to_map
       (map (fun id => (id, blank))
          ["toast"; "toast .toast-icon"; "toast .toast-message"; "user-name";
           "total-trades"; "win-rate"; "total-pnl"; "positions-container";
           "timeframe-select"; "stop-loss"; "take-profit";
           "sl-recommendation-btn"; "tp-recommendation-btn";
           "use-sl-recommended"; "use-tp-recommended"; "start-bot-btn";
           "status-text"; "status-message-text"])).

(** The page right after sign-in: a token is cached, no timer runs. *)
Definition signedIn : world :=
  {| currentUser := Some alice; authToken := Some "stale-token";
     tokenRefreshInterval := None; updateInterval := None;
     manualSL := false; manualTP := false; dom := samplePage;
     timers := ∅; nextTimer := 1; detached := []; trace := [] |}.

Definition jsonResponse (st : N) (v : jsval) : response :=
  {| status := st; content_type := Some "application/json; charset=utf-8";
     resp_json := Some v; resp_text := "" |}.

Definition errorResponse (st : N) : response :=
  {| status := st; content_type := Some "text/html";
     resp_json := None; resp_text := "error" |}.

Definition sampleEnv (srv : list event -> request -> res response)
    (token : res string) (answer : bool) (minute : Z) : Env :=
  {| idp := fun _ _ => token; server := srv;
     confirm := fun _ _ => answer; minutes := fun _ => minute |}.

(** Every request is answered 401 and the identity provider is out of
    reach. *)
Definition envRefreshFails : Env :=
  sampleEnv (fun _ _ => Ok (errorResponse 401))
    (Throw (Error "auth/network-request-failed")) false 0.

(** The first request is answered 401, every later one 200. *)
Definition envRetrySucceeds : Env :=
  sampleEnv
    (fun sent _ =>
       match fetches sent with
       | [] => Ok (errorResponse 401)
       | _ => Ok (jsonResponse 200 (VObj [("success", VBool true)]))
       end)
    (Ok "fresh-token") false 0.

(** Every request is answered 500. *)
Definition envServerError : Env :=
  sampleEnv (fun _ _ => Ok (errorResponse 500)) (Ok "fresh-token") false 3.

Definition sampleProfile : jsval :=
  VObj [("email", VStr "trader@example.com");
        ("subscription", VObj [("plan", VStr "Pro"); ("status", VStr "active");
                               ("daysRemaining", VNum (num_of_Z 12))])].

(** Only the profile endpoint works. *)
Definition envProfileOnly : Env :=
  sampleEnv
    (fun _ r =>
       if String.eqb (req_endpoint r) "/api/user/profile"
       then Ok (jsonResponse 200 sampleProfile)
       else Ok (errorResponse 500))
    (Ok "fresh-token") false 3.

(** A healthy backend at ten past the hour. *)
Definition envHealthy : Env :=
  sampleEnv
    (fun _ r =>
       if String.eqb (req_endpoint r) "/api/bot/status"
       then Ok (jsonResponse 200 (VObj [("status", VObj [("is_running", VBool true)])]))
       else Ok (jsonResponse 200 (VObj [("success", VBool true)])))
    (Ok "fresh-token") false 10.

Definition samplePosition : jsval :=
  VObj [("symbol", VStr "BTCUSDT"); ("positionSide", VStr "LONG");
        ("positionAmt", VNum (num_of_Z 2)); ("entryPrice", VNum (num_of_Z 100));
        ("markPrice", VNum (num_of_Z 110)); ("unrealizedPnl", VNum (num_of_Z 20))].

(** The whole dashboard: the sample page and the blocks, dialogs and
    buttons the controls work on. *)
Definition dashboardPage : gmap string element :=
  list_to_map
    (map (fun id => (id, blank))
       ["stop-bot-btn"; "api-modal"; "api-key"; "api-secret";
        "advanced-settings-content"; "advanced-toggle"; "days-remaining";
        "subscription-note"; "trading-settings"; "control-buttons";
        "loading-screen"; "dashboard"]) ∪ samplePage.

Definition atDashboard : world := set_dom dashboardPage signedIn.

(** Signed in, but no token cached yet. *)
Definition noToken : world := set_authToken None signedIn.

(** A healthy backend and a user who confirms every question. *)
Definition envConfirmed : Env :=
  sampleEnv
    (fun _ r =>
       if String.eqb (req_endpoint r) "/api/bot/status"
       then Ok (jsonResponse 200 (VObj [("status", VObj [("is_running", VBool true)])]))
       else Ok (jsonResponse 200 (VObj [("success", VBool true)])))
    (Ok "fresh-token") true 10.

(** The network is down: every [fetch] rejects. *)
Definition envOffline : Env :=
  sampleEnv (fun _ _ => Throw (TypeError "Failed to fetch")) (Ok "fresh-token") true 10.

Definition sampleKeys : jsval :=
  VObj [("hasKeys", VBool true); ("maskedApiKey", VStr "abcd****wxyz")].

(** The API-info endpoint reports stored keys. *)
Definition envKeys : Env :=
  sampleEnv (fun _ _ => Ok (jsonResponse 200 sampleKeys)) (Ok "fresh-token") true 10.

Definition sampleAppInfo : res jsval := Throw (Error "config unavailable").

(** * Properties *)

(** ** Reasoning about computations *)

Section Keeps.
Context {X : Type} (f : world -> X).

Lemma keeps_ret {A} (a : A) : keeps f (ret a).
Proof. intro w. reflexivity. Qed.

Lemma keeps_throw {A} e : keeps f (@throw A e).
Proof. intro w. reflexivity. Qed.

Lemma keeps_gets {A} (g : world -> A) : keeps f (gets g).
Proof. intro w. reflexivity. Qed.

Lemma keeps_modify g : (forall w, f (g w) = f w) -> keeps f (modify g).
Proof. intros H w. apply H. Qed.

Lemma keeps_bind {A C} (m : M A) (k : A -> M C) :
  keeps f m -> (forall a, keeps f (k a)) -> keeps f (bind m k).
Proof.
  intros Hm Hk w. unfold bind. specialize (Hm w).
  destruct (m w) as [[a|e] w1]; simpl in *.
  - rewrite Hk. exact Hm.
  - exact Hm.
Qed.

Lemma keeps_try_catch {A} (m : M A) h :
  keeps f m -> (forall e, keeps f (h e)) -> keeps f (try_catch m h).
Proof.
  intros Hm Hh w. unfold try_catch. specialize (Hm w).
  destruct (m w) as [[a|e] w1]; simpl in *.
  - exact Hm.
  - rewrite Hh. exact Hm.
Qed.

Lemma keeps_when b m : keeps f m -> keeps f (when b m).
Proof. intro H. destruct b; simpl; [exact H | apply keeps_ret]. Qed.

Lemma keeps_ifPresent id m : keeps f m -> keeps f (ifPresent id m).
Proof.
  intro H. unfold ifPresent. apply keeps_bind; [apply keeps_gets|].
  intros [el|]; [exact H | apply keeps_ret].
Qed.

Lemma keeps_get v k : keeps f (get v k).
Proof.
  unfold get. destruct v; try apply keeps_ret; try apply keeps_throw.
  - destruct (String.eqb k "length"); apply keeps_ret.
  - destruct (String.eqb k "length"); apply keeps_ret.
Qed.

Lemma keeps_getOpt v k : keeps f (getOpt v k).
Proof. unfold getOpt. destruct (nullish v); [apply keeps_ret | apply keeps_get]. Qed.

Lemma keeps_mapM {A C} (g : A -> M C) l : (forall a, keeps f (g a)) -> keeps f (mapM g l).
Proof.
  intro H. induction l as [|x xs IH]; simpl.
  - apply keeps_ret.
  - apply keeps_bind; [apply H|]. intro y.
    apply keeps_bind; [apply IH|]. intro ys. apply keeps_ret.
Qed.

Lemma keeps_setTimer cb d r :
  (forall t n w, f (set_timers t n w) = f w) -> keeps f (setTimer cb d r).
Proof. intros H w. unfold setTimer. simpl. apply H. Qed.

End Keeps.

Lemma present_alter id id' g w :
  present id (set_dom (alter g id' (dom w)) w) = present id w.
Proof.
  unfold present. simpl.
  destruct (decide (id' = id)) as [->|Hne].
  - rewrite lookup_alter_eq. destruct (dom w !! id); reflexivity.
  - rewrite lookup_alter_ne by done. reflexivity.
Qed.

Lemma toastPresent_alter id g w :
  toastPresent (set_dom (alter g id (dom w)) w) = toastPresent w.
Proof. unfold toastPresent. rewrite !present_alter. reflexivity. Qed.

Ltac keeps_leaf :=
  intros; simpl;
  first [ reflexivity
        | apply present_alter
        | apply toastPresent_alter
        | rewrite !lookup_alter_ne by done; reflexivity ].

Ltac keeps_step :=
  lazymatch goal with
  | |- keeps _ (ret _) => apply keeps_ret
  | |- keeps _ (throw _) => apply keeps_throw
  | |- keeps _ (gets _) => apply keeps_gets
  | |- keeps _ (get _ _) => apply keeps_get
  | |- keeps _ (getOpt _ _) => apply keeps_getOpt
  | |- keeps _ (read _ _) => apply keeps_gets
  | |- keeps _ (getElementById _) => apply keeps_gets
  | |- keeps _ (bind _ _) => apply keeps_bind; [| intro]
  | |- keeps _ (try_catch _ _) => apply keeps_try_catch; [| intro]
  | |- keeps _ (when _ _) => apply keeps_when
  | |- keeps _ (ifPresent _ _) => apply keeps_ifPresent
  | |- keeps _ (mapM _ _) => apply keeps_mapM; intro
  | |- keeps _ (update _ _) => unfold update
  | |- keeps _ (updateOrThrow _ _) => unfold updateOrThrow
  | |- keeps _ (clearInterval _) => unfold clearInterval
  | |- keeps _ (setInterval _ _) => unfold setInterval
  | |- keeps _ (setTimeout _ _) => unfold setTimeout
  | |- keeps _ (setTimer _ _ _) => apply keeps_setTimer; keeps_leaf
  | |- keeps _ (modify _) => apply keeps_modify; keeps_leaf
  | |- keeps _ (if ?b then _ else _) => destruct b
  | |- keeps _ (match ?x with _ => _ end) => destruct x
  | |- keeps _ (let _ := _ in _) => cbv zeta
  end.

Ltac keeps_auto := repeat keeps_step.

(** What the rest of a computation leaves alone is decided by its first
    step. *)
Lemma bind_keeps_snd {A C X} (f : world -> X) (m : M A) (k : A -> M C) w :
  (forall a, keeps f (k a)) -> f (snd (bind m k w)) = f (snd (m w)).
Proof.
  intro H. unfold bind. destruct (m w) as [[a|e] w1]; simpl; [apply H | reflexivity].
Qed.

Section Emits.
Variable Q : event -> Prop.

Lemma emitsAt_keeps {A} (m : M A) w : keeps trace m -> emitsAt Q m w.
Proof. intro H. exists []. rewrite app_nil_r. split; [apply H | constructor]. Qed.

Lemma emitsAt_bind {A C} (m : M A) (k : A -> M C) w :
  emitsAt Q m w ->
  (forall a, fst (m w) = Ok a -> emitsAt Q (k a) (snd (m w))) ->
  emitsAt Q (bind m k) w.
Proof.
  intros [evs [Ht Hq]] Hk. unfold emitsAt, bind in *.
  destruct (m w) as [[a|e] w1]; simpl in *.
  - destruct (Hk a eq_refl) as [evs2 [Ht2 Hq2]].
    exists (evs ++ evs2)%list. rewrite Ht2, Ht, app_assoc. split; [reflexivity|].
    apply Forall_app; auto.
  - exists evs. auto.
Qed.

Lemma emitsAt_try_catch {A} (m : M A) h w :
  emitsAt Q m w ->
  (forall e, fst (m w) = Throw e -> emitsAt Q (h e) (snd (m w))) ->
  emitsAt Q (try_catch m h) w.
Proof.
  intros [evs [Ht Hq]] Hh. unfold emitsAt, try_catch in *.
  destruct (m w) as [[a|e] w1]; simpl in *.
  - exists evs. auto.
  - destruct (Hh e eq_refl) as [evs2 [Ht2 Hq2]].
    exists (evs ++ evs2)%list. rewrite Ht2, Ht, app_assoc. split; [reflexivity|].
    apply Forall_app; auto.
Qed.

Lemma emits_keeps {A} (m : M A) : keeps trace m -> emits Q m.
Proof. intros H w. apply emitsAt_keeps, H. Qed.

Lemma emits_bind {A C} (m : M A) (k : A -> M C) :
  emits Q m -> (forall a, emits Q (k a)) -> emits Q (bind m k).
Proof. intros Hm Hk w. apply emitsAt_bind; [apply Hm | intros a _; apply Hk]. Qed.

Lemma emits_try_catch {A} (m : M A) h :
  emits Q m -> (forall e, emits Q (h e)) -> emits Q (try_catch m h).
Proof. intros Hm Hh w. apply emitsAt_try_catch; [apply Hm | intros e _; apply Hh]. Qed.

Lemma emits_when b m : emits Q m -> emits Q (when b m).
Proof. intro H. destruct b; simpl; [exact H | apply emits_keeps, keeps_ret]. Qed.

End Emits.

Lemma emits_weaken (Q Q' : event -> Prop) {A} (m : M A) :
  (forall ev, Q ev -> Q' ev) -> emits Q m -> emits Q' m.
Proof.
  intros H Hm w. destruct (Hm w) as [evs [Ht Hq]].
  exists evs. split; [exact Ht|]. eapply Forall_impl; eauto.
Qed.

Lemma newEvents_app w w' evs :
  trace w' = (trace w ++ evs)%list -> newEvents w w' = evs.
Proof. intro H. unfold newEvents. rewrite H. apply drop_app_length. Qed.

Ltac emits_step :=
  lazymatch goal with
  | |- emits _ (bind _ _) => apply emits_bind; [| intro]
  | |- emits _ (try_catch _ _) => apply emits_try_catch; [| intro]
  | |- emits _ (when _ _) => apply emits_when
  | |- emits _ (if ?b then _ else _) => destruct b
  | |- emits _ (match ?x with _ => _ end) => destruct x
  | |- emits _ (let _ := _ in _) => cbv zeta
  end.

Lemma first_event_try_bind {A C} (m : M A) (k : A -> M C) h w ev evs :
  trace (snd (m w)) = (trace w ++ ev :: evs)%list ->
  (forall a, emits anyEvent (k a)) ->
  (forall e, emits anyEvent (h e)) ->
  exists evs', trace (snd (try_catch (bind m k) h w)) = (trace w ++ ev :: evs')%list.
Proof.
  intros Hm Hk Hh. unfold try_catch, bind.
  destruct (m w) as [[a|e] w1]; simpl in Hm.
  - destruct (Hk a w1) as [evs1 [H1 _]].
    destruct (k a w1) as [[c|e] w2]; simpl in H1.
    + exists (evs ++ evs1)%list. simpl. rewrite H1, Hm, <- app_assoc. reflexivity.
    + destruct (Hh e w2) as [evs2 [H2 _]].
      exists (evs ++ evs1 ++ evs2)%list. rewrite H2, H1, Hm, <- !app_assoc. reflexivity.
  - destruct (Hh e w1) as [evs2 [H2 _]].
    exists (evs ++ evs2)%list. rewrite H2, Hm, <- !app_assoc. reflexivity.
Qed.

Lemma safe_ret {A} (a : A) : safe (ret a).
Proof. intro w. exists a. reflexivity. Qed.

Lemma safe_gets {A} (g : world -> A) : safe (gets g).
Proof. intro w. eexists. reflexivity. Qed.

Lemma safe_modify g : safe (modify g).
Proof. intro w. exists tt. reflexivity. Qed.

Lemma safe_bind {A C} (m : M A) (k : A -> M C) :
  safe m -> (forall a, safe (k a)) -> safe (bind m k).
Proof.
  intros Hm Hk w. unfold bind. destruct (Hm w) as [a Ha].
  destruct (m w) as [r w1]. simpl in Ha. subst r. apply Hk.
Qed.

Lemma safe_when b m : safe m -> safe (when b m).
Proof. intro H. destruct b; [exact H | apply safe_ret]. Qed.

Lemma safe_ifPresent id m : safe m -> safe (ifPresent id m).
Proof.
  intro H. unfold ifPresent. apply safe_bind; [apply safe_gets|].
  intros [el|]; [exact H | apply safe_ret].
Qed.

Lemma safe_bind_get_obj {C} fields k (cont : jsval -> M C) :
  safe (cont (assoc k fields)) -> safe (bind (get (VObj fields) k) cont).
Proof. intros H w. unfold bind, get, ret. apply H. Qed.

Ltac safe_step :=
  lazymatch goal with
  | |- safe (ret _) => apply safe_ret
  | |- safe (gets _) => apply safe_gets
  | |- safe (read _ _) => apply safe_gets
  | |- safe (getElementById _) => apply safe_gets
  | |- safe (modify _) => apply safe_modify
  | |- safe (update _ _) => apply safe_modify
  | |- safe (bind (get (VObj _) _) _) => apply safe_bind_get_obj; cbv beta; simpl assoc
  | |- safe (bind _ _) => apply safe_bind; [| intro]
  | |- safe (when _ _) => apply safe_when
  | |- safe (ifPresent _ _) => apply safe_ifPresent
  | |- safe (if ?b then _ else _) => destruct b
  | |- safe (let _ := _ in _) => cbv zeta
  end.

Ltac safe_auto := repeat safe_step.

(** Past a step that cannot throw and leaves [f] alone, a property of the
    final world is a property of the rest of the computation. *)
Lemma bind_inv {A C X} (f : world -> X) (m : M A) (k : A -> M C)
    (Q : world -> Prop) w :
  keeps f m -> safe m ->
  (forall a w1, f w1 = f w -> Q (snd (k a w1))) ->
  Q (snd (bind m k w)).
Proof.
  intros Hk Hs H. unfold bind. specialize (Hk w). destruct (Hs w) as [a Ha].
  destruct (m w) as [r w1]. simpl in *. subst r. apply H. exact Hk.
Qed.

Ltac bind_inv_with f :=
  match goal with
  | |- context [snd (bind ?m ?k ?w0)] =>
      pattern (snd (bind m k w0)); apply (bind_inv f)
  end.

(** ** The authenticated API client *)

Section ApiClient.
Variable E : Env.

Lemma getFreshToken_eq w :
  getFreshToken E w =
  match currentUser w with
  | None => (Throw (Error "No current user"), w)
  | Some u =>
      match idp E (trace w) u with
      | Ok t => (Ok t, set_authToken (Some t) (log (EvGetIdToken u) w))
      | Throw e => (Throw e, log (EvGetIdToken u) w)
      end
  end.
Proof.
  unfold getFreshToken, try_catch, bind, gets, getIdToken, modify, ret, throw.
  destruct (currentUser w); [|reflexivity].
  destruct (idp E (trace w) u); reflexivity.
Qed.

Lemma decode_pure r w : snd (decode r w) = w.
Proof.
  unfold decode, response_json.
  destruct (content_type r) as [ct|]; [|reflexivity].
  destruct (negb (String.eqb ct "") && includes ct "application/json"); [|reflexivity].
  destruct (resp_json r); reflexivity.
Qed.

Lemma keeps_decode {X} (f : world -> X) r : keeps f (decode r).
Proof. intro w. rewrite decode_pure. reflexivity. Qed.

Lemma keeps_getFreshToken {X} (f : world -> X) :
  (forall ev w, f (log ev w) = f w) -> (forall t w, f (set_authToken t w) = f w) ->
  keeps f (getFreshToken E).
Proof.
  intros Hl Ht w. rewrite getFreshToken_eq.
  destruct (currentUser w); [|reflexivity].
  destruct (idp E (trace w) u); simpl; rewrite ?Ht, ?Hl; reflexivity.
Qed.

Lemma keeps_fetch {X} (f : world -> X) r :
  (forall ev w, f (log ev w) = f w) -> keeps f (fetch E r).
Proof. intros Hl w. unfold fetch. simpl. apply Hl. Qed.

(** The page is out of reach of the API client: whatever [f] reads of the
    world, if logging a request and storing a token leave it alone, so
    does a call. *)
Lemma keeps_call {X} (f : world -> X) endpoint o :
  (forall ev w, f (log ev w) = f w) -> (forall t w, f (set_authToken t w) = f w) ->
  keeps f (makeAuthenticatedApiCall E endpoint o).
Proof.
  intros Hl Ht. unfold makeAuthenticatedApiCall.
  repeat first
    [ apply keeps_getFreshToken; assumption
    | apply keeps_fetch; assumption
    | apply keeps_decode
    | keeps_step ].
Qed.

Lemma ok_401 r : status r = 401%N -> ok r = false.
Proof. intro H. unfold ok. rewrite H. reflexivity. Qed.

Lemma decode_fst_snd r w : decode r w = (fst (decode r w), w).
Proof. rewrite <- (decode_pure r w) at 3. destruct (decode r w); reflexivity. Qed.

Lemma retry_block_eq req1 w2 :
  try_catch
    (bind (getFreshToken E) (fun _ =>
       bind (gets authToken) (fun t2 =>
         let retryOptions := with_authorization req1 t2 in
         bind (fetch E retryOptions) (fun retryResponse =>
           if ok retryResponse then decode retryResponse
           else throw (Error ("HTTP " ++ pretty (status retryResponse) ++ " after retry"))))))
    (fun _ => throw (Error "Authentication failed - please login again")) w2
  = retryOutcome E req1 w2.
Proof.
  unfold retryOutcome, try_catch, bind at 1. rewrite getFreshToken_eq.
  destruct (currentUser w2) as [u|]; [|reflexivity].
  destruct (idp E (trace w2) u) as [t|e]; [|reflexivity].
  unfold bind, gets, fetch. simpl.
  match goal with |- context [server E ?t ?r] => destruct (server E t r) as [r2|e2] end;
    [|reflexivity].
  destruct (ok r2); [|reflexivity].
  rewrite decode_fst_snd. simpl.
  destruct (fst (decode r2 _)); reflexivity.
Qed.

(** A call that gets as far as sending its request. *)
Lemma call_eq endpoint o w w1 :
  atFirstFetch E w = Some w1 ->
  makeAuthenticatedApiCall E endpoint o w =
  let req1 := mergedOptions endpoint o (authToken w1) in
  let w2 := log (EvFetch req1) w1 in
  match server E (trace w1) req1 with
  | Throw e => (Throw e, w2)
  | Ok r1 =>
      if ok r1 then (fst (decode r1 w2), w2)
      else if (status r1 =? 401)%N then retryOutcome E req1 w2
      else (Throw (HttpError (status r1)), w2)
  end.
Proof.
  intros Hp.
  assert (Hrest :
    forall t1, token_truthy t1 = true -> authToken w1 = t1 ->
    try_catch
      (bind (when (negb (token_truthy t1))
               (throw (Error "Could not obtain authentication token")))
         (fun _ =>
            let merged := mergedOptions endpoint o t1 in
            bind (fetch E merged) (fun response =>
              if negb (ok response) then
                if (status response =? 401)%N then
                  try_catch
                    (bind (getFreshToken E) (fun _ =>
                       bind (gets authToken) (fun t2 =>
                         let retryOptions := with_authorization merged t2 in
                         bind (fetch E retryOptions) (fun retryResponse =>
                           if ok retryResponse then decode retryResponse
                           else throw (Error ("HTTP " ++ pretty (status retryResponse) ++ " after retry"))))))
                    (fun _ => throw (Error "Authentication failed - please login again"))
                else throw (Error ("HTTP " ++ pretty (status response)))
              else decode response)))
      (fun error => throw error) w1 =
    let req1 := mergedOptions endpoint o (authToken w1) in
    let w2 := log (EvFetch req1) w1 in
    match server E (trace w1) req1 with
    | Throw e => (Throw e, w2)
    | Ok r1 =>
        if ok r1 then (fst (decode r1 w2), w2)
        else if (status r1 =? 401)%N then retryOutcome E req1 w2
        else (Throw (HttpError (status r1)), w2)
    end).
  { intros t1 Ht1 Heq. subst t1. cbv zeta.
    unfold try_catch at 1. unfold bind at 1. rewrite Ht1. simpl.
    unfold bind at 1. unfold fetch at 1.
    destruct (server E (trace w1) (mergedOptions endpoint o (authToken w1))) as [r1|e1];
      [|reflexivity].
    destruct (ok r1); simpl.
    - rewrite decode_fst_snd. simpl. destruct (fst (decode r1 _)); reflexivity.
    - destruct (status r1 =? 401)%N; [|reflexivity].
      rewrite retry_block_eq. destruct (retryOutcome E _ _) as [[v|e] w']; reflexivity. }
  unfold atFirstFetch in Hp.
  unfold makeAuthenticatedApiCall.
  destruct (token_truthy (authToken w)) eqn:Ht.
  - inversion Hp; subst w1.
    etransitivity; [|exact (Hrest (authToken w) Ht eq_refl)].
    unfold try_catch, bind, gets, when, ret.
    repeat first [rewrite Ht | progress simpl]. reflexivity.
  - destruct (getFreshToken E w) as [[t|e] w2] eqn:Hg; [|discriminate].
    destruct (token_truthy (authToken w2)) eqn:Ht2; [|discriminate].
    inversion Hp; subst w2.
    etransitivity; [|exact (Hrest (authToken w1) Ht2 eq_refl)].
    unfold try_catch, bind, gets, when, ret.
    repeat first [rewrite Ht | rewrite Hg | rewrite Ht2 | progress simpl]. reflexivity.
Qed.

(** A call that cannot get hold of a token sends nothing. *)
Lemma call_without_token endpoint o w :
  atFirstFetch E w = None ->
  exists e, fst (makeAuthenticatedApiCall E endpoint o w) = Throw e /\
            fetches (newEvents w (snd (makeAuthenticatedApiCall E endpoint o w))) = [].
Proof.
  unfold atFirstFetch, makeAuthenticatedApiCall. intro Hp.
  destruct (token_truthy (authToken w)) eqn:Ht; [discriminate|].
  unfold try_catch, bind, gets, when, ret.
  repeat first [rewrite Ht | progress simpl].
  rewrite getFreshToken_eq in *.
  destruct (currentUser w) as [u|].
  - destruct (idp E (trace w) u) as [t|e]; simpl in *.
    + destruct (negb (t =? "")%string) eqn:Hne; [discriminate|]. simpl.
      eexists; split; [reflexivity|].
      unfold newEvents. simpl. rewrite drop_app_length. reflexivity.
    + eexists; split; [reflexivity|].
      unfold newEvents. simpl. rewrite drop_app_length. reflexivity.
  - simpl. eexists; split; [reflexivity|].
    unfold newEvents. rewrite drop_all. reflexivity.
Qed.

Lemma atFirstFetch_cached w :
  token_truthy (authToken w) = true -> atFirstFetch E w = Some w.
Proof. intro H. unfold atFirstFetch. rewrite H. reflexivity. Qed.

Lemma retryOutcome_trace req1 w2 :
  exists evs, trace (snd (retryOutcome E req1 w2)) = (trace w2 ++ evs)%list.
Proof.
  unfold retryOutcome.
  destruct (currentUser w2) as [u|].
  2:{ exists []. rewrite app_nil_r. reflexivity. }
  destruct (idp E (trace w2) u) as [t|e].
  2:{ exists [EvGetIdToken u]. reflexivity. }
  exists [EvGetIdToken u; EvFetch (with_authorization req1 (Some t))].
  cbv zeta.
  assert (H : forall out : res jsval,
    trace (out, log (EvFetch (with_authorization req1 (Some t)))
                  (set_authToken (Some t) (log (EvGetIdToken u) w2))).2 =
    (trace w2 ++ [EvGetIdToken u; EvFetch (with_authorization req1 (Some t))])%list).
  { intro out. simpl. rewrite <- app_assoc. reflexivity. }
  destruct (server E _ _) as [r2|e2]; [|apply H].
  destruct (ok r2); [|apply H].
  destruct (fst (decode r2 _)); apply H.
Qed.

(** With a token at hand the first thing a call does is to send the
    request. *)
Lemma call_first_event endpoint o w :
  token_truthy (authToken w) = true ->
  exists evs,
    trace (snd (makeAuthenticatedApiCall E endpoint o w)) =
    (trace w ++ EvFetch (mergedOptions endpoint o (authToken w)) :: evs)%list.
Proof.
  intro Ht. rewrite (call_eq endpoint o w w (atFirstFetch_cached w Ht)). cbv zeta.
  destruct (server E (trace w) _) as [r1|e1].
  2:{ exists []. reflexivity. }
  destruct (ok r1).
  { exists []. reflexivity. }
  destruct (status r1 =? 401)%N.
  2:{ exists []. reflexivity. }
  destruct (retryOutcome_trace (mergedOptions endpoint o (authToken w))
              (log (EvFetch (mergedOptions endpoint o (authToken w))) w)) as [evs Hevs].
  exists evs. rewrite Hevs. simpl. rewrite <- app_assoc. reflexivity.
Qed.

Lemma emits_fetch (Q : event -> Prop) r : Q (EvFetch r) -> emits Q (fetch E r).
Proof.
  intros H w. exists [EvFetch r]. split; [reflexivity|]. constructor; [exact H | constructor].
Qed.

Lemma emits_getFreshToken (Q : event -> Prop) :
  (forall u, Q (EvGetIdToken u)) -> emits Q (getFreshToken E).
Proof.
  intros H w. unfold emitsAt. rewrite getFreshToken_eq.
  destruct (currentUser w) as [u|].
  - exists [EvGetIdToken u].
    split; [destruct (idp E (trace w) u); reflexivity|].
    constructor; [apply H | constructor].
  - exists []. rewrite app_nil_r. split; [reflexivity | constructor].
Qed.

Lemma emits_call endpoint o :
  emits (fromCall endpoint o) (makeAuthenticatedApiCall E endpoint o).
Proof.
  unfold makeAuthenticatedApiCall.
  repeat first
    [ apply emits_getFreshToken; intro; exact I
    | apply emits_fetch; simpl; auto
    | emits_step
    | apply emits_keeps; first [apply keeps_decode | keeps_auto] ].
Qed.

Lemma emits_call_any endpoint o :
  emits anyEvent (makeAuthenticatedApiCall E endpoint o).
Proof. eapply emits_weaken; [|apply emits_call]. intros ev _. exact I. Qed.

(** C1, as the code has it.  A call whose first request is answered 401
    asks the identity provider for at most one token (exactly one when a
    user is signed in).  When that yields a token, the request is sent
    again exactly once, the same request with the new token in its
    [Authorization] header, and the token is cached; when it does not,
    nothing is sent again.  Whatever goes wrong after the 401 (no token, a
    retry that fails or is answered outside 2xx, a body that does not
    decode) surfaces as the one [AuthError]; the call succeeds only on a
    2xx answer to the retry; no third request is ever sent. *)
Theorem C1_refresh_then_single_retry endpoint o w w1 r1 :
  atFirstFetch E w = Some w1 ->
  server E (trace w1) (mergedOptions endpoint o (authToken w1)) = Ok r1 ->
  status r1 = 401%N ->
  let req1 := mergedOptions endpoint o (authToken w1) in
  let out := fst (makeAuthenticatedApiCall E endpoint o w) in
  let w' := snd (makeAuthenticatedApiCall E endpoint o w) in
  exists evs,
    trace w' = (trace w1 ++ EvFetch req1 :: evs)%list /\
    (length (tokenRequests evs) <= 1)%nat /\
    (length (fetches evs) <= 1)%nat /\
    (forall u, currentUser w1 = Some u -> tokenRequests evs = [u]) /\
    (forall u t, currentUser w1 = Some u ->
       idp E (trace w1 ++ [EvFetch req1]) u = Ok t ->
       let req2 := with_authorization req1 (Some t) in
       evs = [EvGetIdToken u; EvFetch req2] /\
       req_headers req2 !! "Authorization" = Some ("Bearer " ++ t) /\
       req_endpoint req2 = endpoint /\ req_method req2 = opt_method o /\
       req_body req2 = opt_body o /\
       authToken w' = Some t) /\
    ((forall u t, currentUser w1 = Some u ->
        idp E (trace w1 ++ [EvFetch req1]) u <> Ok t) ->
       fetches evs = [] /\ out = Throw AuthError) /\
    (forall e, out = Throw e -> e = AuthError) /\
    (forall v, out = Ok v ->
       exists u t r2,
         currentUser w1 = Some u /\
         idp E (trace w1 ++ [EvFetch req1]) u = Ok t /\
         server E (trace w1 ++ [EvFetch req1; EvGetIdToken u])
           (with_authorization req1 (Some t)) = Ok r2 /\
         ok r2 = true).
Proof.
  intros Hp Hs H401 req1 out w'. subst out w'.
  rewrite (call_eq endpoint o w w1 Hp). cbv zeta.
  rewrite Hs, (ok_401 _ H401), H401. simpl (401 =? 401)%N. cbv iota.
  fold req1. unfold retryOutcome. simpl currentUser. simpl trace.
  destruct (currentUser w1) as [u|] eqn:Hu.
  2:{ exists []. repeat apply conj; simpl.
      - reflexivity.
      - lia.
      - lia.
      - intros u Hu'. discriminate Hu'.
      - intros u t Hu'. discriminate Hu'.
      - intros _. split; reflexivity.
      - intros e He. inversion He. reflexivity.
      - intros v Hv. discriminate Hv. }
  destruct (idp E (trace w1 ++ [EvFetch req1]) u) as [t|e] eqn:Hi.
  2:{ exists [EvGetIdToken u]. repeat apply conj; simpl.
      - rewrite <- app_assoc. reflexivity.
      - lia.
      - lia.
      - intros u' Hu'. inversion Hu'. reflexivity.
      - intros u' t' Hu' Hi'. congruence.
      - intros _. split; reflexivity.
      - intros e' He. inversion He. reflexivity.
      - intros v Hv. discriminate Hv. }
  set (req2 := with_authorization req1 (Some t)).
  set (w4 := log (EvFetch req2)
               (set_authToken (Some t) (log (EvGetIdToken u) (log (EvFetch req1) w1)))).
  assert (Hsrv : (trace w1 ++ [EvFetch req1; EvGetIdToken u])%list
                 = ((trace w1 ++ [EvFetch req1]) ++ [EvGetIdToken u])%list).
  { rewrite <- app_assoc. reflexivity. }
  remember (server E ((trace w1 ++ [EvFetch req1]) ++ [EvGetIdToken u]) req2) as sres eqn:Hr.
  assert (Hshape : forall out : res jsval,
    (forall e, out = Throw e -> e = AuthError) ->
    (forall v, out = Ok v -> exists r2, sres = Ok r2 /\ ok r2 = true) ->
    exists evs,
      trace (out, w4).2 = (trace w1 ++ EvFetch req1 :: evs)%list /\
      (length (tokenRequests evs) <= 1)%nat /\
      (length (fetches evs) <= 1)%nat /\
      (forall u0, Some u = Some u0 -> tokenRequests evs = [u0]) /\
      (forall u0 t0, Some u = Some u0 ->
         idp E (trace w1 ++ [EvFetch req1]) u0 = Ok t0 ->
         let req2 := with_authorization req1 (Some t0) in
         evs = [EvGetIdToken u0; EvFetch req2] /\
         req_headers req2 !! "Authorization" = Some ("Bearer " ++ t0) /\
         req_endpoint req2 = endpoint /\ req_method req2 = opt_method o /\
         req_body req2 = opt_body o /\
         authToken (out, w4).2 = Some t0) /\
      ((forall u0 t0, Some u = Some u0 ->
          idp E (trace w1 ++ [EvFetch req1]) u0 <> Ok t0) ->
         fetches evs = [] /\ (out, w4).1 = Throw AuthError) /\
      (forall e, (out, w4).1 = Throw e -> e = AuthError) /\
      (forall v, (out, w4).1 = Ok v ->
         exists u0 t0 r2,
           Some u = Some u0 /\
           idp E (trace w1 ++ [EvFetch req1]) u0 = Ok t0 /\
           server E (trace w1 ++ [EvFetch req1; EvGetIdToken u0])
             (with_authorization req1 (Some t0)) = Ok r2 /\
           ok r2 = true)).
  { intros out Hfail Hsucc. exists [EvGetIdToken u; EvFetch req2].
    repeat apply conj; simpl.
    - rewrite <- !app_assoc. reflexivity.
    - lia.
    - lia.
    - intros u0 Hu0. inversion Hu0. reflexivity.
    - intros u0 t0 Hu0 Ht0. inversion Hu0; subst u0.
      rewrite Hi in Ht0. inversion Ht0; subst t0.
      repeat apply conj; try reflexivity. apply lookup_insert_eq.
    - intros H. destruct (H u t eq_refl Hi).
    - exact Hfail.
    - intros v Hv. destruct (Hsucc v Hv) as [r2 [Hr2 Hok2]].
      exists u, t, r2. rewrite Hsrv. fold req2. rewrite <- Hr. auto. }
  clear Hr. destruct sres as [r2|e2].
  - destruct (ok r2) eqn:Hok.
    + destruct (fst (decode r2 w4)) as [v|e3] eqn:Hd.
      * apply Hshape; [intros e He; discriminate He|].
        intros v' _. exists r2. auto.
      * apply Hshape; [intros e He; inversion He; reflexivity|].
        intros v' Hv; discriminate Hv.
    + apply Hshape; [intros e He; inversion He; reflexivity|].
      intros v' Hv; discriminate Hv.
  - apply Hshape; [intros e He; inversion He; reflexivity|].
    intros v' Hv; discriminate Hv.
Qed.

(** C2.  A call whose first request is answered with a status outside
    2xx other than 401 fails with [Error "HTTP <status>"], and the world
    it leaves is the world of the first request with that one request
    logged: no token was asked for, nothing was sent again. *)
Theorem C2_other_status_no_retry endpoint o w w1 r1 :
  atFirstFetch E w = Some w1 ->
  server E (trace w1) (mergedOptions endpoint o (authToken w1)) = Ok r1 ->
  ok r1 = false -> status r1 <> 401%N ->
  makeAuthenticatedApiCall E endpoint o w =
    (Throw (HttpError (status r1)),
     log (EvFetch (mergedOptions endpoint o (authToken w1))) w1).
Proof.
  intros Hp Hs Hok H401.
  rewrite (call_eq endpoint o w w1 Hp). cbv zeta.
  rewrite Hs, Hok. apply N.eqb_neq in H401. rewrite H401. reflexivity.
Qed.

End ApiClient.

Lemma C1_witness :
  atFirstFetch envRetrySucceeds signedIn = Some signedIn /\
  exists evs,
    trace (snd (makeAuthenticatedApiCall envRetrySucceeds "/api/bot/status" no_options signedIn)) =
      (trace signedIn ++
       EvFetch (mergedOptions "/api/bot/status" no_options (authToken signedIn)) :: evs)%list /\
    (length (tokenRequests evs) <= 1)%nat /\
    (length (fetches evs) <= 1)%nat.
Proof.
  split; [vm_compute; reflexivity|].
  destruct (C1_refresh_then_single_retry envRetrySucceeds "/api/bot/status" no_options
              signedIn signedIn (errorResponse 401))
    as [evs (H1 & H2 & H3 & _)];
    [vm_compute; reflexivity | vm_compute; reflexivity | vm_compute; reflexivity |].
  exists evs. auto.
Defined.

(** C1 as stated fails when the token cannot be refreshed: the first
    request is answered 401, the identity provider is out of reach, and
    the request is not sent a second time; no fresh token was obtained. *)
Lemma C1_counterexample :
  let req := mergedOptions "/api/bot/status" no_options (Some "stale-token") in
  let result := makeAuthenticatedApiCall envRefreshFails "/api/bot/status" no_options signedIn in
  server envRefreshFails (trace signedIn) req = Ok (errorResponse 401) /\
  status (errorResponse 401) = 401%N /\
  fetches (trace (snd result)) = [req] /\
  authToken (snd result) = Some "stale-token" /\
  fst result = Throw AuthError.
Proof. vm_compute. repeat split; reflexivity. Qed.

Lemma C2_witness :
  makeAuthenticatedApiCall envServerError "/api/bot/status" no_options signedIn =
    (Throw (HttpError 500),
     log (EvFetch (mergedOptions "/api/bot/status" no_options (authToken signedIn))) signedIn).
Proof.
  apply (C2_other_status_no_retry envServerError "/api/bot/status" no_options
           signedIn signedIn (errorResponse 500)).
  - vm_compute. reflexivity.
  - vm_compute. reflexivity.
  - vm_compute. reflexivity.
  - vm_compute. discriminate.
Defined.

(** ** The status poller *)

Section Poller.
Variable E : Env.
Variable B : Builtins.

Lemma keeps_showNotification {X} (f : world -> X) msg type d :
  (forall g w, f (set_dom g w) = f w) ->
  (forall t n w, f (set_timers t n w) = f w) ->
  keeps f (showNotification msg type d).
Proof.
  intros Hd Ht. unfold showNotification.
  repeat first
    [ apply keeps_modify; intro; apply Hd
    | apply keeps_setTimer; exact Ht
    | keeps_step ].
Qed.

Lemma getBotStatus_ok w : fst (getBotStatus E w) = Ok tt.
Proof.
  unfold getBotStatus, try_catch.
  match goal with |- context [let (_, _) := ?m w in _] => destruct (m w) as [[[]|e] w1] end;
    reflexivity.
Qed.

Lemma emits_getBotStatus :
  emits (fromCall "/api/bot/status" no_options) (getBotStatus E).
Proof.
  unfold getBotStatus.
  apply emits_try_catch; [| intro; apply emits_keeps, keeps_ret].
  apply emits_bind; [apply emits_call|]. intro response.
  apply emits_keeps. keeps_auto.
Qed.

Lemma loadAllDashboardData_first w :
  token_truthy (authToken w) = true ->
  exists evs,
    trace (snd (loadAllDashboardData E B w)) =
    (trace w ++
     EvFetch (mergedOptions "/api/user/dashboard-data" no_options (authToken w)) :: evs)%list.
Proof.
  intro Ht.
  destruct (call_first_event E "/api/user/dashboard-data" no_options w Ht) as [evs Hevs].
  unfold loadAllDashboardData.
  eapply first_event_try_bind; [exact Hevs | |].
  - intro data.
    repeat first
      [ emits_step
      | apply emits_keeps;
        first [ apply keeps_showNotification; reflexivity
              | unfold updateProfile, updateAccount, updatePositions, updateStats,
                  updateApiStatus, loadTradingPairs_detached, positionItem,
                  toLowerCaseOf, replaceOf; keeps_auto ] ].
  - intro e. unfold loadFallbackData.
    repeat first
      [ apply emits_call_any
      | emits_step
      | apply emits_keeps;
        first [ apply keeps_showNotification; reflexivity
              | unfold updateProfile, updateStats; keeps_auto ] ].
Qed.

Lemma pollTick_eq w :
  pollTick E B w =
  let w1 := snd (getBotStatus E w) in
  if Z.rem (minutes E (trace w1)) 5 =? 0
  then (Ok tt, snd (loadAllDashboardData E B w1))
  else (Ok tt, w1).
Proof.
  unfold pollTick, try_catch, bind at 1.
  pose proof (getBotStatus_ok w) as Hok.
  destruct (getBotStatus E w) as [r w1]. simpl in *. subst r.
  unfold bind, gets, when.
  destruct (Z.rem (minutes E (trace w1)) 5 =? 0); [|reflexivity].
  destruct (loadAllDashboardData E B w1) as [[[]|e] w2]; reflexivity.
Qed.

(** C3.  [startPeriodicUpdates] registers [pollTick] as a repeating timer
    of 30000 ms.  A tick first runs [getBotStatus] (with a token at hand
    its first request is the one for the bot's run-state), never throws,
    and then reads the minute [m] of the wall clock: when 5 divides [m] it
    goes on with [loadAllDashboardData], otherwise it is over.  On the
    network: provided a token is at hand after the status call, the
    dashboard payload is requested during the tick exactly when 5 divides
    [m]. *)
Theorem C3_poll_tick w :
  let w1 := snd (getBotStatus E w) in
  let m := minutes E (trace w1) in
  let w' := snd (pollTick E B w) in
  (let ws := snd (startPeriodicUpdates w) in
   exists h, updateInterval ws = Some h /\
     timers ws !! h = Some {| timer_callback := CbPoll; timer_delay := 30000;
                              timer_repeats := true |} /\
     fire E B h ws = pollTick E B ws) /\
  (token_truthy (authToken w) = true ->
   exists evs,
     newEvents w w1 =
     EvFetch (mergedOptions "/api/bot/status" no_options (authToken w)) :: evs) /\
  fst (pollTick E B w) = Ok tt /\
  ((5 | m) -> w' = snd (loadAllDashboardData E B w1)) /\
  (~ (5 | m) -> w' = w1) /\
  (token_truthy (authToken w1) = true ->
   (dashboardRequested (newEvents w w') <-> (5 | m))).
Proof.
  intros w1 m w'.
  assert (Hrem : (Z.rem m 5 =? 0) = true <-> (5 | m)).
  { rewrite Z.eqb_eq. apply Z.rem_divide. discriminate. }
  assert (Hst : exists evs, trace w1 = (trace w ++ evs)%list /\
                  Forall (fromCall "/api/bot/status" no_options) evs).
  { apply emits_getBotStatus. }
  repeat apply conj.
  - exists (nextTimer w). unfold startPeriodicUpdates, bind, gets, when, modify,
      setInterval, setTimer, clearInterval, ret.
    destruct (handle_truthy (updateInterval w)); simpl.
    + repeat apply conj; [reflexivity | apply lookup_insert_eq |].
      unfold fire, bind, gets. simpl. rewrite lookup_insert_eq. reflexivity.
    + repeat apply conj; [reflexivity | apply lookup_insert_eq |].
      unfold fire, bind, gets. simpl. rewrite lookup_insert_eq. reflexivity.
  - intro Ht. subst w1.
    destruct (call_first_event E "/api/bot/status" no_options w Ht) as [evs Hevs].
    assert (Hfirst : exists evs',
      trace (snd (getBotStatus E w)) =
      (trace w ++ EvFetch (mergedOptions "/api/bot/status" no_options (authToken w)) :: evs')%list).
    { unfold getBotStatus. eapply first_event_try_bind; [exact Hevs | |].
      - intro response. apply emits_keeps. keeps_auto.
      - intro e. apply emits_keeps, keeps_ret. }
    destruct Hfirst as [evs' Hevs']. exists evs'. apply newEvents_app. exact Hevs'.
  - rewrite pollTick_eq. cbv zeta. destruct (_ =? 0); reflexivity.
  - intro Hm. subst w'. rewrite pollTick_eq. cbv zeta. fold w1. fold m.
    apply Hrem in Hm. rewrite Hm. reflexivity.
  - intro Hm. subst w'. rewrite pollTick_eq. cbv zeta. fold w1. fold m.
    destruct (Z.rem m 5 =? 0) eqn:Hr; [|reflexivity].
    exfalso. apply Hm, Hrem. reflexivity.
  - intro Ht. destruct Hst as [evs1 [He1 Hq1]].
    subst w'. rewrite pollTick_eq. cbv zeta. fold w1. fold m.
    destruct (Z.rem m 5 =? 0) eqn:Hr; simpl.
    + split; [intros _; apply Hrem; reflexivity|]. intros _.
      destruct (loadAllDashboardData_first w1 Ht) as [evs2 Hevs2].
      exists (mergedOptions "/api/user/dashboard-data" no_options (authToken w1)).
      split; [|reflexivity].
      erewrite newEvents_app;
        [|rewrite Hevs2, He1, <- app_assoc; reflexivity].
      apply elem_of_app. right. apply elem_of_cons. left. reflexivity.
    + split.
      * intros [r [Hin Hr']]. exfalso.
        rewrite (newEvents_app w w1 evs1 He1) in Hin.
        rewrite Forall_forall in Hq1. specialize (Hq1 _ Hin). simpl in Hq1.
        destruct Hq1 as [Hq1 _]. rewrite Hr' in Hq1. discriminate.
      * intro Hm. apply Hrem in Hm. discriminate.
Qed.

End Poller.

Lemma C3_witness :
  token_truthy (authToken (snd (getBotStatus envHealthy signedIn))) = true /\
  (dashboardRequested (newEvents signedIn (snd (pollTick envHealthy sampleBuiltins signedIn)))
   <-> (5 | minutes envHealthy (trace (snd (getBotStatus envHealthy signedIn))))).
Proof.
  split; [vm_compute; reflexivity|].
  destruct (C3_poll_tick envHealthy sampleBuiltins signedIn) as (_ & _ & _ & _ & _ & H).
  apply H. vm_compute. reflexivity.
Defined.

Lemma handle_truthy_inv w h :
  pollerInv w -> updateInterval w = Some h -> handle_truthy (updateInterval w) = true.
Proof.
  intros (_ & Hu & _) Hh. rewrite Hh. simpl.
  specialize (Hu h Hh). destruct h; [lia | reflexivity].
Qed.

Lemma start_eq w :
  startPeriodicUpdates w =
  (Ok tt,
   set_updateInterval (Some (nextTimer w))
     (set_timers
        (<[nextTimer w := pollTimer]>
           (if handle_truthy (updateInterval w)
            then delete (default 0%nat (updateInterval w)) (timers w)
            else timers w))
        (S (nextTimer w)) w)).
Proof.
  unfold startPeriodicUpdates, bind, gets, when, clearInterval, modify, setInterval, setTimer, ret.
  destruct (handle_truthy (updateInterval w)); reflexivity.
Qed.

Lemma stop_eq w :
  stopPeriodicUpdates w =
  (Ok tt,
   if handle_truthy (updateInterval w)
   then set_updateInterval None
          (set_timers (delete (default 0%nat (updateInterval w)) (timers w)) (nextTimer w) w)
   else w).
Proof.
  unfold stopPeriodicUpdates, bind, gets, when, clearInterval, modify, ret.
  destruct (handle_truthy (updateInterval w)); reflexivity.
Qed.

Lemma start_inv w : pollerInv w -> pollerInv (snd (startPeriodicUpdates w)).
Proof.
  intros Hinv. pose proof Hinv as (Hk & Hu & Hn & Hp). rewrite start_eq. simpl.
  unfold pollerInv. simpl. repeat apply conj.
  - intros h t Hl. apply lookup_insert_Some in Hl as [[<- _]|[Hne Hl]]; [lia|].
    destruct (handle_truthy (updateInterval w)).
    + apply lookup_delete_Some in Hl as [_ Hl]. specialize (Hk _ _ Hl). lia.
    + specialize (Hk _ _ Hl). lia.
  - intros h Hh. inversion Hh; subst. lia.
  - lia.
  - intros h t Hl Hc. apply lookup_insert_Some in Hl as [[<- _]|[Hne Hl]]; [reflexivity|].
    exfalso.
    destruct (updateInterval w) as [h0|] eqn:Hu0.
    + rewrite <- Hu0 in Hl. rewrite (handle_truthy_inv w h0 Hinv Hu0) in Hl.
      rewrite Hu0 in Hl. simpl in Hl.
      apply lookup_delete_Some in Hl as [Hne' Hl].
      specialize (Hp _ _ Hl Hc). congruence.
    + simpl in Hl. specialize (Hp _ _ Hl Hc). discriminate.
Qed.

Lemma stop_inv w : pollerInv w -> pollerInv (snd (stopPeriodicUpdates w)).
Proof.
  intros Hinv. pose proof Hinv as (Hk & Hu & Hn & Hp). rewrite stop_eq. simpl.
  destruct (handle_truthy (updateInterval w)) eqn:Ht; [|exact Hinv].
  unfold pollerInv. simpl. repeat apply conj.
  - intros h t Hl. apply lookup_delete_Some in Hl as [_ Hl]. eauto.
  - intros h Hh. discriminate.
  - exact Hn.
  - intros h t Hl Hc. exfalso. apply lookup_delete_Some in Hl as [Hne Hl].
    specialize (Hp _ _ Hl Hc). rewrite Hp in Hne. simpl in Hne. congruence.
Qed.

Lemma runOps_inv ops : forall w, pollerInv w -> pollerInv (runOps ops w).
Proof.
  induction ops as [|op ops IH]; intros w Hinv; simpl; [exact Hinv|].
  apply IH. destruct op; [apply start_inv | apply stop_inv]; exact Hinv.
Qed.

Lemma zero_or_one_poller w :
  pollerInv w ->
  (updateInterval w = None /\ pollTimers w = ∅) \/
  (exists h, updateInterval w = Some h /\
     (pollTimers w = ∅ \/ exists t, pollTimers w = {[h := t]})).
Proof.
  intros (Hk & Hu & Hn & Hp). unfold pollTimers.
  destruct (updateInterval w) as [h|] eqn:Hupd.
  - right. exists h. split; [reflexivity|].
    destruct (timers w !! h) as [t|] eqn:Hl.
    + destruct (decide (timer_callback t = CbPoll)) as [Hc|Hc].
      * right. exists t. apply map_eq. intro i. apply option_eq. intro x.
        rewrite map_lookup_filter_Some, lookup_singleton_Some. simpl. split.
        -- intros [Hi Hx]. specialize (Hp _ _ Hi Hx). inversion Hp; subst i.
           split; [reflexivity | congruence].
        -- intros [<- <-]. auto.
      * left. apply map_empty. intro i. apply map_lookup_filter_None.
        right. intros x Hi Hx. simpl in Hx. specialize (Hp _ _ Hi Hx).
        inversion Hp; subst i. congruence.
    + left. apply map_empty. intro i. apply map_lookup_filter_None.
      right. intros x Hi Hx. simpl in Hx. specialize (Hp _ _ Hi Hx).
      inversion Hp; subst i. congruence.
  - left. split; [reflexivity|]. apply map_empty. intro i. apply map_lookup_filter_None.
    right. intros x Hi Hx. simpl in Hx. specialize (Hp _ _ Hi Hx). discriminate.
Qed.

(** C4.  From a page state as the browser can produce it, after any
    sequence of [startPeriodicUpdates] and [stopPeriodicUpdates] calls at
    most one status poller is live: two live pollers have the same handle.
    Starting while one runs cancels it (its handle leaves the timer
    table) and leaves exactly the new one; stopping leaves none. *)
Theorem C4_single_poller w ops :
  pollerInv w ->
  let w' := runOps ops w in
  (size (pollTimers w') <= 1)%nat /\
  (forall h1 t1 h2 t2,
     timers w' !! h1 = Some t1 -> timer_callback t1 = CbPoll ->
     timers w' !! h2 = Some t2 -> timer_callback t2 = CbPoll -> h1 = h2) /\
  (forall h, updateInterval w' = Some h ->
     let ws := snd (startPeriodicUpdates w') in
     timers ws !! h = None /\
     updateInterval ws = Some (nextTimer w') /\
     pollTimers ws = {[nextTimer w' := pollTimer]}) /\
  (let ws := snd (stopPeriodicUpdates w') in
   updateInterval ws = None /\ pollTimers ws = ∅).
Proof.
  intros Hinv w'. assert (Hinv' : pollerInv w') by (apply runOps_inv; exact Hinv).
  clearbody w'. clear Hinv. split; [|split; [|split]].
  - destruct (zero_or_one_poller w' Hinv') as [[_ He]|[h [_ [He|[t He]]]]]; rewrite He.
    + rewrite map_size_empty. lia.
    + rewrite map_size_empty. lia.
    + rewrite map_size_singleton. lia.
  - intros h1 t1 h2 t2 H1 C1 H2 C2. destruct Hinv' as (_ & _ & _ & Hp).
    pose proof (Hp _ _ H1 C1). pose proof (Hp _ _ H2 C2). congruence.
  - intros h Hh ws.
    pose proof (start_inv w' Hinv') as Hinvs. fold ws in Hinvs.
    pose proof Hinv' as (Hk & Hu & Hn & Hp).
    assert (Hws : ws = snd (startPeriodicUpdates w')) by reflexivity.
    rewrite start_eq in Hws. simpl in Hws.
    rewrite (handle_truthy_inv w' h Hinv' Hh), Hh in Hws. simpl in Hws.
    repeat apply conj.
    + rewrite Hws. simpl. specialize (Hu h Hh).
      rewrite lookup_insert_ne by lia. apply lookup_delete_eq.
    + rewrite Hws. reflexivity.
    + destruct (zero_or_one_poller ws Hinvs) as [[Hn' _]|[h' [Hh' [He|[t He]]]]].
      * rewrite Hws in Hn'. discriminate.
      * exfalso. assert (Hl : pollTimers ws !! nextTimer w' = Some pollTimer).
        { unfold pollTimers. apply map_lookup_filter_Some. split; [|reflexivity].
          rewrite Hws. simpl. apply lookup_insert_eq. }
        rewrite He in Hl. rewrite lookup_empty in Hl. discriminate.
      * assert (h' = nextTimer w') by (rewrite Hws in Hh'; simpl in Hh'; congruence).
        subst h'. rewrite He. f_equal.
        assert (Hl : pollTimers ws !! nextTimer w' = Some pollTimer).
        { unfold pollTimers. apply map_lookup_filter_Some. split; [|reflexivity].
          rewrite Hws. simpl. apply lookup_insert_eq. }
        rewrite He, lookup_singleton_eq in Hl. congruence.
  - intros ws. pose proof (stop_inv w' Hinv') as Hinvs. fold ws in Hinvs.
    assert (Hnone : updateInterval ws = None).
    { subst ws. rewrite stop_eq. simpl.
      destruct (handle_truthy (updateInterval w')) eqn:Ht; [reflexivity|].
      destruct (updateInterval w') as [h|] eqn:Hu; [|reflexivity].
      rewrite <- Hu, (handle_truthy_inv w' h Hinv' Hu) in Ht. discriminate. }
    split; [exact Hnone|].
    destruct (zero_or_one_poller ws Hinvs) as [[_ He]|[h [Hh _]]]; [exact He | congruence].
Qed.

Lemma C4_witness :
  pollerInv signedIn /\
  (size (pollTimers (runOps [OpStart; OpStart; OpStop; OpStart; OpStart] signedIn)) <= 1)%nat.
Proof.
  assert (H : pollerInv signedIn).
  { unfold pollerInv. simpl. repeat split; intros; try lia; try discriminate;
      rewrite lookup_empty in *; discriminate. }
  split; [exact H|].
  apply (C4_single_poller signedIn [OpStart; OpStart; OpStop; OpStart; OpStart] H).
Defined.

(** ** Recommendations and manual overrides *)

Section Recommendations.
Variable B : Builtins.

Lemma updateStrategyInfo_fields T rec w sl slBtn tp tpBtn :
  timeframeRecommendations T = Some rec ->
  dom w !! "stop-loss" = Some sl ->
  dom w !! "sl-recommendation-btn" = Some slBtn ->
  dom w !! "take-profit" = Some tp ->
  dom w !! "tp-recommendation-btn" = Some tpBtn ->
  let w' := snd (updateStrategyInfo B T w) in
  manualSL w' = manualSL w /\ manualTP w' = manualTP w /\
  dom w' !! "stop-loss" =
    Some (if manualSL w then sl else recommendedInput (stopLoss rec) sl) /\
  dom w' !! "take-profit" =
    Some (if manualTP w then tp else recommendedInput (takeProfit rec) tp).
Proof.
  intros Hrec Hsl Hslb Htp Htpb. cbv zeta. unfold updateStrategyInfo. rewrite Hrec.
  set (f := fun w : world =>
              (manualSL w, manualTP w, dom w !! "stop-loss",
               dom w !! "sl-recommendation-btn", dom w !! "take-profit",
               dom w !! "tp-recommendation-btn")).
  bind_inv_with f; [subst f; keeps_auto | safe_auto | intros _ w1 H1].
  do 6 (bind_inv_with f; [subst f; keeps_auto | safe_auto |];
        let w2 := fresh "w" in let H2 := fresh "H" in
        intros _ w2 H2; rewrite H1 in H2; clear w1 H1; rename w2 into w1, H2 into H1).
  subst f. simpl in H1.
  inversion H1 as [[HmSL HmTP H1sl H1slb H1tp H1tpb]]. clear H1.
  rewrite Hsl in H1sl. rewrite Hslb in H1slb. rewrite Htp in H1tp. rewrite Htpb in H1tpb.
  unfold bind, getElementById, gets, when, update, modify, ret.
  destruct (manualSL w), (manualTP w);
    repeat first
      [ rewrite HmSL | rewrite HmTP | rewrite H1sl | rewrite H1slb
      | rewrite H1tp | rewrite H1tpb
      | rewrite lookup_alter_ne by done | rewrite lookup_alter_eq
      | progress simpl ];
    auto.
Qed.

Lemma dispatch_select T w sel :
  dom w !! "timeframe-select" = Some sel ->
  dispatch B (SelectTimeframe T) w =
  snd (updateStrategyInfo B T
         (set_dom (alter (set_prop "value" (VStr T)) "timeframe-select" (dom w)) w)).
Proof.
  intro Hsel. unfold dispatch. simpl target. rewrite Hsel.
  unfold bind, browserAction, listener, onTimeframeChange, update, modify, read, gets, bind.
  simpl. rewrite lookup_alter_eq, Hsel. simpl. rewrite lookup_insert_eq. simpl.
  destruct (updateStrategyInfo B T _); reflexivity.
Qed.

Lemma keeps_manualSL_listener e :
  e <> ClickSlRecommendation -> e <> ClickUseSlRecommended ->
  (forall text, e <> EditStopLoss text) ->
  keeps manualSL (bind (browserAction e) (fun _ => listener B e)).
Proof.
  intros H1 H2 H3. destruct e; try congruence;
    try (exfalso; eapply H3; reflexivity);
    unfold browserAction, listener, onTimeframeChange, updateStrategyInfo,
      onTakeProfitInput, onUseTpRecommendedClick, onTpRecommendationClick;
    keeps_auto.
Qed.

Lemma keeps_manualTP_listener e :
  e <> ClickTpRecommendation -> e <> ClickUseTpRecommended ->
  (forall text, e <> EditTakeProfit text) ->
  keeps manualTP (bind (browserAction e) (fun _ => listener B e)).
Proof.
  intros H1 H2 H3. destruct e; try congruence;
    try (exfalso; eapply H3; reflexivity);
    unfold browserAction, listener, onTimeframeChange, updateStrategyInfo,
      onStopLossInput, onUseSlRecommendedClick, onSlRecommendationClick;
    keeps_auto.
Qed.

Lemma edit_stop_loss_sets_flag text w :
  is_Some (dom w !! "stop-loss") -> manualSL (dispatch B (EditStopLoss text) w) = true.
Proof.
  intros [el Hel]. unfold dispatch. simpl target. rewrite Hel.
  unfold browserAction, listener, onStopLossInput.
  unfold bind at 1. unfold update at 1. unfold modify at 1.
  unfold bind at 1. unfold modify at 1.
  match goal with |- manualSL (snd (?m ?w0)) = true =>
    transitivity (manualSL w0); [|reflexivity];
    generalize w0; change (keeps manualSL m); keeps_auto
  end.
Qed.

Lemma edit_take_profit_sets_flag text w :
  is_Some (dom w !! "take-profit") -> manualTP (dispatch B (EditTakeProfit text) w) = true.
Proof.
  intros [el Hel]. unfold dispatch. simpl target. rewrite Hel.
  unfold browserAction, listener, onTakeProfitInput.
  unfold bind at 1. unfold update at 1. unfold modify at 1.
  unfold bind at 1. unfold modify at 1.
  match goal with |- manualTP (snd (?m ?w0)) = true =>
    transitivity (manualTP w0); [|reflexivity];
    generalize w0; change (keeps manualTP m); keeps_auto
  end.
Qed.

(** C5.  On a page that has the select, the two inputs and their two
    toggles: selecting a timeframe of the table writes its stop-loss into
    the stop-loss input when [manualSL] is false and leaves that input
    alone when it is true; likewise take-profit and [manualTP]; neither
    flag changes.  Typing into an input sets its flag.  A flag that is
    true becomes false only by a click on the field's recommendation
    toggle or on its "use recommended" button. *)
Theorem C5_recommendation_overrides :
  (forall T rec w sel sl slBtn tp tpBtn,
     timeframeRecommendations T = Some rec ->
     dom w !! "timeframe-select" = Some sel ->
     dom w !! "stop-loss" = Some sl ->
     dom w !! "sl-recommendation-btn" = Some slBtn ->
     dom w !! "take-profit" = Some tp ->
     dom w !! "tp-recommendation-btn" = Some tpBtn ->
     let w' := dispatch B (SelectTimeframe T) w in
     (manualSL w = false ->
      prop_of (dom w' !! "stop-loss") "value" = VNum (stopLoss rec)) /\
     (manualSL w = true -> dom w' !! "stop-loss" = dom w !! "stop-loss") /\
     (manualTP w = false ->
      prop_of (dom w' !! "take-profit") "value" = VNum (takeProfit rec)) /\
     (manualTP w = true -> dom w' !! "take-profit" = dom w !! "take-profit") /\
     manualSL w' = manualSL w /\ manualTP w' = manualTP w) /\
  (forall text w,
     (is_Some (dom w !! "stop-loss") ->
      manualSL (dispatch B (EditStopLoss text) w) = true) /\
     (is_Some (dom w !! "take-profit") ->
      manualTP (dispatch B (EditTakeProfit text) w) = true)) /\
  (forall e w,
     (manualSL w = true -> manualSL (dispatch B e w) = false ->
      e = ClickSlRecommendation \/ e = ClickUseSlRecommended) /\
     (manualTP w = true -> manualTP (dispatch B e w) = false ->
      e = ClickTpRecommendation \/ e = ClickUseTpRecommended)).
Proof.
  split; [|split].
  - intros T rec w sel sl slBtn tp tpBtn Hrec Hsel Hsl Hslb Htp Htpb w'.
    subst w'. rewrite (dispatch_select T w sel Hsel).
    set (wa := set_dom (alter (set_prop "value" (VStr T)) "timeframe-select" (dom w)) w).
    destruct (updateStrategyInfo_fields T rec wa sl slBtn tp tpBtn Hrec)
      as (H1 & H2 & H3 & H4);
      try (subst wa; simpl; rewrite lookup_alter_ne by done; assumption).
    change (manualSL wa) with (manualSL w) in *.
    change (manualTP wa) with (manualTP w) in *.
    rewrite H1, H2, H3, H4. repeat apply conj; try reflexivity.
    + intros ->. simpl. rewrite lookup_insert_eq. reflexivity.
    + intros ->. symmetry. exact Hsl.
    + intros ->. simpl. rewrite lookup_insert_eq. reflexivity.
    + intros ->. symmetry. exact Htp.
  - intros text w. split;
      [apply edit_stop_loss_sets_flag | apply edit_take_profit_sets_flag].
  - intros e w. split.
    + intros Ht Hf.
      destruct (decide (e = ClickSlRecommendation)) as [?|N1]; [left; assumption|].
      destruct (decide (e = ClickUseSlRecommended)) as [?|N2]; [right; assumption|].
      exfalso. destruct e; try congruence.
      * unfold dispatch in Hf. destruct (dom w !! target _); [|congruence].
        rewrite (keeps_manualSL_listener _ N1 N2) in Hf by congruence. congruence.
      * destruct (dom w !! "stop-loss") as [el|] eqn:Hel.
        -- rewrite edit_stop_loss_sets_flag in Hf by (rewrite Hel; eauto). discriminate.
        -- unfold dispatch in Hf. simpl target in Hf. rewrite Hel in Hf. congruence.
      * unfold dispatch in Hf. destruct (dom w !! target _); [|congruence].
        rewrite (keeps_manualSL_listener _ N1 N2) in Hf by congruence. congruence.
      * unfold dispatch in Hf. destruct (dom w !! target _); [|congruence].
        rewrite (keeps_manualSL_listener _ N1 N2) in Hf by congruence. congruence.
      * unfold dispatch in Hf. destruct (dom w !! target _); [|congruence].
        rewrite (keeps_manualSL_listener _ N1 N2) in Hf by congruence. congruence.
    + intros Ht Hf.
      destruct (decide (e = ClickTpRecommendation)) as [?|N1]; [left; assumption|].
      destruct (decide (e = ClickUseTpRecommended)) as [?|N2]; [right; assumption|].
      exfalso. destruct e; try congruence.
      * unfold dispatch in Hf. destruct (dom w !! target _); [|congruence].
        rewrite (keeps_manualTP_listener _ N1 N2) in Hf by congruence. congruence.
      * unfold dispatch in Hf. destruct (dom w !! target _); [|congruence].
        rewrite (keeps_manualTP_listener _ N1 N2) in Hf by congruence. congruence.
      * destruct (dom w !! "take-profit") as [el|] eqn:Hel.
        -- rewrite edit_take_profit_sets_flag in Hf by (rewrite Hel; eauto). discriminate.
        -- unfold dispatch in Hf. simpl target in Hf. rewrite Hel in Hf. congruence.
      * unfold dispatch in Hf. destruct (dom w !! target _); [|congruence].
        rewrite (keeps_manualTP_listener _ N1 N2) in Hf by congruence. congruence.
      * unfold dispatch in Hf. destruct (dom w !! target _); [|congruence].
        rewrite (keeps_manualTP_listener _ N1 N2) in Hf by congruence. congruence.
Qed.

End Recommendations.

Lemma C5_witness :
  prop_of (dom (dispatch sampleBuiltins (SelectTimeframe "1h") signedIn) !! "stop-loss")
    "value" = VNum (Fin 1.5) /\
  prop_of (dom (dispatch sampleBuiltins (SelectTimeframe "1h") signedIn) !! "take-profit")
    "value" = VNum (Fin 3.0).
Proof.
  destruct (C5_recommendation_overrides sampleBuiltins) as [H _].
  destruct (H "1h" _ signedIn blank blank blank blank blank eq_refl) as (H1 & _ & H2 & _);
    try (vm_compute; reflexivity).
  split; [apply H1 | apply H2]; reflexivity.
Defined.

(** ** Actions *)

Section Actions.
Variable E : Env.
Variable B : Builtins.

(** C6.  When the user declines the confirmation, [closePosition] returns
    and the world is as it was: nothing sent, nothing changed. *)
Theorem C6_close_position_needs_confirmation symbol positionSide w :
  confirm E (trace w)
    (symbol ++ " " ++ positionSide ++
     " pozisyonunu kapatmak istediğinizden emin misiniz?") = false ->
  closePosition E B symbol positionSide w = (Ok tt, w).
Proof.
  intro H. unfold closePosition, bind, gets. rewrite H. reflexivity.
Qed.

End Actions.

Lemma C6_witness :
  closePosition envHealthy sampleBuiltins "BTCUSDT" "LONG" signedIn = (Ok tt, signedIn).
Proof.
  apply (C6_close_position_needs_confirmation envHealthy sampleBuiltins
           "BTCUSDT" "LONG" signedIn).
  vm_compute. reflexivity.
Defined.

(** ** The positions renderer *)

Section Positions.
Variable B : Builtins.

Lemma positionItem_wellFormed p :
  wellFormedPosition p ->
  exists html, (forall w, positionItem B p w = (Ok html, w)) /\
               String.prefix positionItemOpener html = true.
Proof.
  intros (fields & symbol & side & -> & Hsym & Hside).
  eexists. split.
  - intro w. unfold positionItem, bind, get, ret. rewrite ?Hside, ?Hsym. simpl.
    unfold ret. reflexivity.
  - reflexivity.
Qed.

Lemma mapM_pure {A C} (f : A -> M C) (P : C -> Prop) items :
  Forall (fun p => exists h, (forall w, f p w = (Ok h, w)) /\ P h) items ->
  exists hs, Forall2 (fun p h => forall w, f p w = (Ok h, w)) items hs /\
             Forall P hs /\
             forall w, mapM f items w = (Ok hs, w).
Proof.
  induction 1 as [|p ps [h [Hh HP]] _ [hs [IH1 [IH2 IH3]]]].
  - exists []. repeat split; constructor.
  - exists (h :: hs). split; [constructor; assumption|].
    split; [constructor; assumption|].
    intro w. simpl. unfold bind. rewrite Hh, IH3. reflexivity.
Qed.

Lemma length_not_zero {A} (x : A) xs :
  is_zero (VNum (num_of_Z (Z.of_nat (length (x :: xs))))) = false.
Proof.
  unfold is_zero, num_is_zero, num_of_Z, Qeq_bool, inject_Z. simpl Qnum. simpl Qden.
  apply Z.eqb_neq. simpl length. lia.
Qed.

(** C7.  On a page with the positions container: for [undefined], [null]
    and the empty list the container's content becomes the empty-state
    block, which is not empty and holds the icon, the heading and the
    explanatory text; for a non-empty list of positions the content is
    the concatenation of one item per position, in order, each the markup
    the callback of [map] produces for it. *)
Theorem C7_positions_renderer w container :
  dom w !! "positions-container" = Some container ->
  (forall positions,
     positions = VUndef \/ positions = VNull \/ positions = VArr [] ->
     updatePositions B positions w =
       (Ok tt, setInnerHTML "positions-container" emptyStateHTML w)) /\
  (emptyStateHTML <> "" /\
   includes emptyStateHTML ("<i class=" ++ dq ++ "fas fa-chart-line" ++ dq ++ "></i>") = true /\
   includes emptyStateHTML "<h3>Açık Pozisyon Yok</h3>" = true /\
   includes emptyStateHTML
     "<p>Bot başlatıldığında pozisyonlar burada görünecek</p>" = true) /\
  (forall p ps,
     Forall wellFormedPosition (p :: ps) ->
     exists htmls,
       length htmls = length (p :: ps) /\
       Forall2 (fun q h => forall w0, positionItem B q w0 = (Ok h, w0)) (p :: ps) htmls /\
       Forall (fun h => String.prefix positionItemOpener h = true) htmls /\
       updatePositions B (VArr (p :: ps)) w =
         (Ok tt, setInnerHTML "positions-container" (String.concat "" htmls) w)).
Proof.
  intro Hc. split; [|split].
  - intros positions [->|[->| ->]];
      unfold updatePositions, bind, getElementById, gets; simpl; rewrite Hc; reflexivity.
  - repeat split; try reflexivity. discriminate.
  - intros p ps Hwf.
    destruct (mapM_pure (positionItem B)
                (fun h => String.prefix positionItemOpener h = true) (p :: ps))
      as [htmls [H2 [HP Hrun]]].
    { eapply Forall_impl; [exact Hwf|]. intros q Hq. apply positionItem_wellFormed, Hq. }
    exists htmls. split; [symmetry; eapply Forall2_length; exact H2|].
    split; [exact H2|]. split; [exact HP|].
    unfold updatePositions, bind at 1, getElementById, gets. simpl fst. rewrite Hc.
    unfold bind at 1. unfold get. simpl (String.eqb _ _). cbv iota.
    change (truthy (VArr (p :: ps))) with true. unfold ret at 1. cbv iota beta.
    rewrite length_not_zero. simpl (negb true || false). cbv iota.
    unfold bind. rewrite Hrun. reflexivity.
Qed.

End Positions.

Lemma C7_witness :
  updatePositions sampleBuiltins (VArr []) signedIn =
    (Ok tt, setInnerHTML "positions-container" emptyStateHTML signedIn) /\
  exists htmls,
    length htmls = 2%nat /\
    updatePositions sampleBuiltins (VArr [samplePosition; samplePosition]) signedIn =
      (Ok tt, setInnerHTML "positions-container" (String.concat "" htmls) signedIn).
Proof.
  destruct (C7_positions_renderer sampleBuiltins signedIn blank) as (H1 & _ & H2);
    [vm_compute; reflexivity|].
  split; [apply H1; auto|].
  destruct (H2 samplePosition [samplePosition]) as [htmls (Hl & _ & _ & Hr)].
  - repeat constructor; exists
      [("symbol", VStr "BTCUSDT"); ("positionSide", VStr "LONG");
       ("positionAmt", VNum (num_of_Z 2)); ("entryPrice", VNum (num_of_Z 100));
       ("markPrice", VNum (num_of_Z 110)); ("unrealizedPnl", VNum (num_of_Z 20))],
      "BTCUSDT", "LONG"; repeat split; reflexivity.
  - exists htmls. split; [exact Hl | exact Hr].
Defined.

(** ** The degraded load *)

Section Fallback.
Variable E : Env.
Variable B : Builtins.

Lemma present_true id w : present id w = true -> exists el, dom w !! id = Some el.
Proof.
  unfold present. intro H. apply bool_decide_eq_true in H. destruct H as [el H]. eauto.
Qed.

Lemma showNotification_ok msg type d w :
  toastPresent w = true -> fst (showNotification msg type d w) = Ok tt.
Proof.
  unfold toastPresent. intro H.
  apply andb_true_iff in H as [H H3]. apply andb_true_iff in H as [H1 H2].
  apply present_true in H1 as [t Ht]. apply present_true in H2 as [i Hi].
  apply present_true in H3 as [m Hm].
  unfold showNotification, updateOrThrow, update, setTimeout, setTimer.
  unfold bind, getElementById, gets, modify, ret.
  simpl. rewrite Ht. simpl. rewrite Hi. simpl.
  rewrite !lookup_alter_ne by done. rewrite Hm. reflexivity.
Qed.

Lemma keeps_toast_call endpoint o :
  keeps toastPresent (makeAuthenticatedApiCall E endpoint o).
Proof. apply keeps_call; reflexivity. Qed.

Lemma keeps_toast_showNotification msg type d :
  keeps toastPresent (showNotification msg type d).
Proof. unfold showNotification. keeps_auto. Qed.

Lemma keeps_toast_updateProfile p : keeps toastPresent (updateProfile B p).
Proof. unfold updateProfile. keeps_auto. Qed.

Lemma keeps_toast_updateStats s : keeps toastPresent (updateStats B s).
Proof. unfold updateStats. keeps_auto. Qed.

Lemma placeholders_eq w :
  (updateProfile B placeholderProfile ;; updateStats B placeholderStats) w =
  (Ok tt, renderPlaceholders B w).
Proof.
  unfold renderPlaceholders.
  assert (Hs : safe (updateProfile B placeholderProfile ;; updateStats B placeholderStats)).
  { unfold updateProfile, updateStats, placeholderProfile, placeholderStats.
    repeat first [ progress simpl truthy | safe_step ]. }
  destruct (Hs w) as [[] Hw]. revert Hw.
  destruct ((updateProfile B placeholderProfile ;; updateStats B placeholderStats) w).
  simpl. intros ->. reflexivity.
Qed.

Lemma renderPlaceholders_trace w : trace (renderPlaceholders B w) = trace w.
Proof.
  unfold renderPlaceholders.
  generalize w. change (keeps trace (updateProfile B placeholderProfile ;;
                                      updateStats B placeholderStats)).
  unfold updateProfile, updateStats. keeps_auto.
Qed.

Lemma renderPlaceholders_user_name w el :
  dom w !! "user-name" = Some el ->
  prop_of (dom (renderPlaceholders B w) !! "user-name") "textContent" = VStr "Kullanıcı".
Proof.
  intro Hel. unfold renderPlaceholders.
  rewrite (bind_keeps_snd (fun w => dom w !! "user-name"))
    by (intro; unfold updateStats; keeps_auto).
  unfold updateProfile.
  rewrite (bind_keeps_snd (fun w => dom w !! "user-name")) by (intro; keeps_auto).
  unfold ifPresent, placeholderProfile, bind, getElementById, gets, get, update, modify, ret.
  simpl. rewrite Hel. simpl. rewrite lookup_alter_eq, Hel. simpl.
  rewrite lookup_insert_eq. reflexivity.
Qed.

Lemma renderPlaceholders_total_trades w el :
  dom w !! "total-trades" = Some el ->
  prop_of (dom (renderPlaceholders B w) !! "total-trades") "textContent" = VStr "0".
Proof.
  intro Hel. unfold renderPlaceholders.
  bind_inv_with (fun w : world => dom w !! "total-trades").
  - unfold updateProfile. keeps_auto.
  - unfold updateProfile, placeholderProfile.
    repeat first [ progress simpl truthy | safe_step ].
  - intros _ w1 H1. rewrite Hel in H1. unfold updateStats.
    rewrite (bind_keeps_snd (fun w => dom w !! "total-trades")) by (intro; keeps_auto).
    unfold ifPresent, placeholderStats, bind, getElementById, gets, get, update, modify, ret.
    simpl. rewrite H1. simpl. rewrite lookup_alter_eq, H1. simpl.
    rewrite lookup_insert_eq. reflexivity.
Qed.

Lemma loadFallbackData_profile_fails w e w1 :
  makeAuthenticatedApiCall E "/api/user/profile" no_options w = (Throw e, w1) ->
  loadFallbackData E B w = (Ok tt, renderPlaceholders B w1).
Proof.
  intro H. unfold loadFallbackData, try_catch. unfold bind at 1. rewrite H.
  apply placeholders_eq.
Qed.

Lemma loadFallbackData_render_profile_fails w p w1 e w2 :
  makeAuthenticatedApiCall E "/api/user/profile" no_options w = (Ok p, w1) ->
  updateProfile B p w1 = (Throw e, w2) ->
  loadFallbackData E B w = (Ok tt, renderPlaceholders B w2).
Proof.
  intros H1 H2. unfold loadFallbackData, try_catch. unfold bind at 1. rewrite H1.
  unfold bind at 1. rewrite H2. apply placeholders_eq.
Qed.

Lemma loadFallbackData_stats_fails w p w1 w2 e w3 :
  makeAuthenticatedApiCall E "/api/user/profile" no_options w = (Ok p, w1) ->
  updateProfile B p w1 = (Ok tt, w2) ->
  makeAuthenticatedApiCall E "/api/user/stats" no_options w2 = (Throw e, w3) ->
  loadFallbackData E B w = (Ok tt, renderPlaceholders B w3).
Proof.
  intros H1 H2 H3. unfold loadFallbackData, try_catch. unfold bind at 1. rewrite H1.
  unfold bind at 1. rewrite H2. unfold bind at 1. rewrite H3. apply placeholders_eq.
Qed.

Lemma loadFallbackData_render_stats_fails w p w1 w2 s w3 e w4 :
  makeAuthenticatedApiCall E "/api/user/profile" no_options w = (Ok p, w1) ->
  updateProfile B p w1 = (Ok tt, w2) ->
  makeAuthenticatedApiCall E "/api/user/stats" no_options w2 = (Ok s, w3) ->
  updateStats B s w3 = (Throw e, w4) ->
  loadFallbackData E B w = (Ok tt, renderPlaceholders B w4).
Proof.
  intros H1 H2 H3 H4. unfold loadFallbackData, try_catch. unfold bind at 1. rewrite H1.
  unfold bind at 1. rewrite H2. unfold bind at 1. rewrite H3.
  unfold bind at 1. rewrite H4. apply placeholders_eq.
Qed.

Lemma loadFallbackData_both_succeed w p w1 w2 s w3 w4 :
  toastPresent w = true ->
  makeAuthenticatedApiCall E "/api/user/profile" no_options w = (Ok p, w1) ->
  updateProfile B p w1 = (Ok tt, w2) ->
  makeAuthenticatedApiCall E "/api/user/stats" no_options w2 = (Ok s, w3) ->
  updateStats B s w3 = (Ok tt, w4) ->
  loadFallbackData E B w =
    (Ok tt, snd (showNotification "Temel veriler yüklendi (sınırlı mod)" "warning" 5000 w4)).
Proof.
  intros Ht H1 H2 H3 H4.
  assert (Ht4 : toastPresent w4 = true).
  { rewrite <- Ht.
    transitivity (toastPresent w3);
      [change w4 with (snd (Ok tt, w4)); rewrite <- H4; apply keeps_toast_updateStats|].
    transitivity (toastPresent w2);
      [change w3 with (snd (Ok s, w3)); rewrite <- H3; apply keeps_toast_call|].
    transitivity (toastPresent w1);
      [change w2 with (snd (Ok tt, w2)); rewrite <- H2; apply keeps_toast_updateProfile|].
    change w1 with (snd (Ok p, w1)); rewrite <- H1; apply keeps_toast_call. }
  unfold loadFallbackData, try_catch. unfold bind at 1. rewrite H1.
  unfold bind at 1. rewrite H2. unfold bind at 1. rewrite H3.
  unfold bind at 1. rewrite H4.
  pose proof (showNotification_ok "Temel veriler yüklendi (sınırlı mod)" "warning" 5000 w4 Ht4)
    as Hn.
  destruct (showNotification _ _ _ w4) as [r w5]. simpl in *. subst r. reflexivity.
Qed.

(** C8, as the code has it.  When the aggregate fetch fails (on a page
    with the toast), the load never throws; after the error toast it
    fetches the profile, and only once the profile is fetched and
    rendered does it fetch the stats.  When the profile fetch fails the
    placeholders are rendered with nothing further sent; when the stats
    fetch fails the placeholders are rendered too; when both are fetched
    and rendered the warning toast follows.  The placeholders show
    'Kullanıcı' as the user name and '0' as the number of trades. *)
Theorem C8_degraded_fallback w e w1 :
  toastPresent w = true ->
  makeAuthenticatedApiCall E "/api/user/dashboard-data" no_options w = (Throw e, w1) ->
  let w2 := snd (showNotification "Dashboard verileri yüklenirken hata oluştu"
                   "error" 5000 w1) in
  let final := snd (loadAllDashboardData E B w) in
  fst (loadAllDashboardData E B w) = Ok tt /\
  (forall e' w3,
     makeAuthenticatedApiCall E "/api/user/profile" no_options w2 = (Throw e', w3) ->
     final = renderPlaceholders B w3 /\ trace final = trace w3) /\
  (forall p w3 w4 e' w5,
     makeAuthenticatedApiCall E "/api/user/profile" no_options w2 = (Ok p, w3) ->
     updateProfile B p w3 = (Ok tt, w4) ->
     makeAuthenticatedApiCall E "/api/user/stats" no_options w4 = (Throw e', w5) ->
     final = renderPlaceholders B w5) /\
  (forall p w3 w4 s w5 w6,
     makeAuthenticatedApiCall E "/api/user/profile" no_options w2 = (Ok p, w3) ->
     updateProfile B p w3 = (Ok tt, w4) ->
     makeAuthenticatedApiCall E "/api/user/stats" no_options w4 = (Ok s, w5) ->
     updateStats B s w5 = (Ok tt, w6) ->
     final = snd (showNotification "Temel veriler yüklendi (sınırlı mod)" "warning" 5000 w6)) /\
  (forall w0 el, dom w0 !! "user-name" = Some el ->
     prop_of (dom (renderPlaceholders B w0) !! "user-name") "textContent" = VStr "Kullanıcı") /\
  (forall w0 el, dom w0 !! "total-trades" = Some el ->
     prop_of (dom (renderPlaceholders B w0) !! "total-trades") "textContent" = VStr "0") /\
  (forall w0, exists w0',
     updateProfile B placeholderProfile w0 = (Ok tt, w0') /\
     updateStats B placeholderStats w0' = (Ok tt, renderPlaceholders B w0)).
Proof.
  intros Ht Hcall w2 final.
  assert (Ht1 : toastPresent w1 = true).
  { rewrite <- Ht. change w1 with (snd (@Throw jsval e, w1)). rewrite <- Hcall.
    apply keeps_toast_call. }
  assert (Ht2 : toastPresent w2 = true).
  { rewrite <- Ht1. apply keeps_toast_showNotification. }
  assert (Hload : loadAllDashboardData E B w =
                  try_catch (loadFallbackData E B) (fun _ => ret tt) w2).
  { unfold loadAllDashboardData. unfold try_catch at 1. unfold bind at 1. rewrite Hcall.
    unfold bind at 1.
    pose proof (showNotification_ok "Dashboard verileri yüklenirken hata oluştu"
                  "error" 5000 w1 Ht1) as Hn.
    subst w2. destruct (showNotification _ _ _ w1) as [r w2]. simpl in *. subst r.
    reflexivity. }
  assert (Hfb : forall wf, loadFallbackData E B w2 = (Ok tt, wf) ->
                  loadAllDashboardData E B w = (Ok tt, wf)).
  { intros wf H. rewrite Hload. unfold try_catch. rewrite H. reflexivity. }
  split; [|split; [|split; [|split; [|split; [|split]]]]].
  - rewrite Hload. unfold try_catch.
    destruct (loadFallbackData E B w2) as [[[]|e0] wf]; reflexivity.
  - intros e' w3 H3. subst final.
    rewrite (Hfb _ (loadFallbackData_profile_fails w2 e' w3 H3)). simpl.
    split; [reflexivity | apply renderPlaceholders_trace].
  - intros p w3 w4 e' w5 H3 H4 H5. subst final.
    rewrite (Hfb _ (loadFallbackData_stats_fails w2 p w3 w4 e' w5 H3 H4 H5)). reflexivity.
  - intros p w3 w4 s w5 w6 H3 H4 H5 H6. subst final.
    rewrite (Hfb _ (loadFallbackData_both_succeed w2 p w3 w4 s w5 w6 Ht2 H3 H4 H5 H6)).
    reflexivity.
  - apply renderPlaceholders_user_name.
  - apply renderPlaceholders_total_trades.
  - intro w0. pose proof (placeholders_eq w0) as H. unfold bind in H.
    destruct (updateProfile B placeholderProfile w0) as [[[]|e0] w0']; [|discriminate].
    exists w0'. split; [reflexivity|].
    destruct (updateStats B placeholderStats w0') as [[[]|e0] w0'']; [|discriminate].
    inversion H. reflexivity.
Qed.

(** C10.  In [loadFallbackData], when the profile is fetched and rendered
    (the user name shows the fetched e-mail, also after the stats call)
    and the stats fetch then fails, the [catch] block renders the
    placeholder profile and stats over it: the user name shows
    'Kullanıcı' again. *)
Theorem C10_stats_failure_discards_profile w p w1 w2 e w3 el :
  makeAuthenticatedApiCall E "/api/user/profile" no_options w = (Ok p, w1) ->
  updateProfile B p w1 = (Ok tt, w2) ->
  makeAuthenticatedApiCall E "/api/user/stats" no_options w2 = (Throw e, w3) ->
  dom w !! "user-name" = Some el ->
  (exists em, fst (get p "email" w1) = Ok em /\
     prop_of (dom w2 !! "user-name") "textContent" = or em (VStr "Kullanıcı") /\
     prop_of (dom w3 !! "user-name") "textContent" = or em (VStr "Kullanıcı")) /\
  loadFallbackData E B w = (Ok tt, renderPlaceholders B w3) /\
  prop_of (dom (renderPlaceholders B w3) !! "user-name") "textContent" = VStr "Kullanıcı".
Proof.
  intros H1 H2 H3 Hel.
  assert (Hel1 : dom w1 !! "user-name" = Some el).
  { rewrite <- Hel. change w1 with (snd (Ok p, w1)). rewrite <- H1.
    apply (keeps_call E (fun w => dom w !! "user-name")); reflexivity. }
  assert (Hrendered : exists em, fst (get p "email" w1) = Ok em /\
            dom w2 !! "user-name" =
            Some (set_prop "textContent" (or em (VStr "Kullanıcı")) el)).
  { assert (Hsnd : dom w2 !! "user-name" =
              dom (snd (ifPresent "user-name"
                     (e <- get p "email" ;;
                      update "user-name"
                        (set_prop "textContent" (or e (VStr "Kullanıcı")))) w1))
                !! "user-name").
    { change w2 with (snd (Ok tt, w2)). rewrite <- H2. unfold updateProfile.
      apply (bind_keeps_snd (fun w => dom w !! "user-name")). intro. keeps_auto. }
    assert (Hfst : fst (ifPresent "user-name"
                     (e <- get p "email" ;;
                      update "user-name"
                        (set_prop "textContent" (or e (VStr "Kullanıcı")))) w1) = Ok tt).
    { unfold updateProfile in H2. unfold bind at 1 in H2.
      destruct (ifPresent "user-name" _ w1) as [[[]|e0] w']; [reflexivity|].
      discriminate H2. }
    revert Hsnd Hfst.
    unfold ifPresent, bind, getElementById, gets. rewrite Hel1.
    destruct (get p "email" w1) as [[em|e0] w'] eqn:Hg; [|discriminate].
    assert (w' = w1) as ->.
    { change w' with (snd (Ok em, w')). rewrite <- Hg. unfold get.
      destruct p; try reflexivity; destruct (String.eqb _ _); reflexivity. }
    unfold update, modify. simpl. rewrite lookup_alter_eq, Hel1. simpl.
    intros Hsnd _. exists em. split; [reflexivity | exact Hsnd]. }
  destruct Hrendered as [em [Hem Hw2]].
  split; [|split].
  - exists em. split; [exact Hem|]. split.
    + rewrite Hw2. simpl. rewrite lookup_insert_eq. reflexivity.
    + assert (Hw3 : dom w3 !! "user-name" = dom w2 !! "user-name").
      { change w3 with (snd (@Throw jsval e, w3)). rewrite <- H3.
        apply (keeps_call E (fun w => dom w !! "user-name")); reflexivity. }
      rewrite Hw3, Hw2. simpl. rewrite lookup_insert_eq. reflexivity.
  - apply (loadFallbackData_stats_fails w p w1 w2 e w3 H1 H2 H3).
  - apply (renderPlaceholders_user_name w3 (set_prop "textContent" (or em (VStr "Kullanıcı")) el)).
    rewrite <- Hw2. change w3 with (snd (@Throw jsval e, w3)). rewrite <- H3.
    apply (keeps_call E (fun w => dom w !! "user-name")); reflexivity.
Qed.

End Fallback.

Lemma C8_witness :
  toastPresent signedIn = true /\
  fst (loadAllDashboardData envServerError sampleBuiltins signedIn) = Ok tt /\
  prop_of (dom (renderPlaceholders sampleBuiltins signedIn) !! "user-name") "textContent" =
    VStr "Kullanıcı".
Proof.
  assert (Ht : toastPresent signedIn = true) by (vm_compute; reflexivity).
  split; [exact Ht|].
  assert (Hc : makeAuthenticatedApiCall envServerError "/api/user/dashboard-data"
                 no_options signedIn =
               (Throw (HttpError 500),
                log (EvFetch (mergedOptions "/api/user/dashboard-data" no_options
                                (authToken signedIn))) signedIn))
    by (vm_compute; reflexivity).
  destruct (C8_degraded_fallback envServerError sampleBuiltins signedIn _ _ Ht Hc)
    as (H1 & _ & _ & _ & H5 & _).
  split; [exact H1|].
  apply (H5 signedIn blank). vm_compute. reflexivity.
Defined.

(** C8 as stated fails when the profile fetch fails as well: the stats
    are never requested, so one narrower fetch is attempted, not two. *)
Lemma C8_counterexample :
  map req_endpoint
    (fetches (trace (snd (loadAllDashboardData envServerError sampleBuiltins signedIn)))) =
  ["/api/user/dashboard-data"; "/api/user/profile"].
Proof. vm_compute. reflexivity. Qed.

Lemma C10_witness :
  let w1 := snd (makeAuthenticatedApiCall envProfileOnly "/api/user/profile" no_options signedIn) in
  let w2 := snd (updateProfile sampleBuiltins sampleProfile w1) in
  let w3 := snd (makeAuthenticatedApiCall envProfileOnly "/api/user/stats" no_options w2) in
  prop_of (dom w3 !! "user-name") "textContent" = VStr "trader@example.com" /\
  loadFallbackData envProfileOnly sampleBuiltins signedIn =
    (Ok tt, renderPlaceholders sampleBuiltins w3) /\
  prop_of (dom (renderPlaceholders sampleBuiltins w3) !! "user-name") "textContent" =
    VStr "Kullanıcı".
Proof.
  intros w1 w2 w3. split; [vm_compute; reflexivity|].
  destruct (C10_stats_failure_discards_profile envProfileOnly sampleBuiltins signedIn
              sampleProfile w1 w2 (HttpError 500) w3 blank)
    as (_ & H2 & H3); try (vm_compute; reflexivity).
  split; [exact H2 | exact H3].
Defined.

(** ** Starting the bot *)

Section StartBot.
Variable E : Env.
Variable B : Builtins.

Lemma botConfig_notifications w :
  exists fields,
    botConfig B w = (Ok (VObj fields), w) /\
    assoc "notifications_enabled" fields = or (checkboxState w) (VBool true).
Proof. eexists. split; reflexivity. Qed.

Lemma or_true_of_checkbox v :
  v = VUndef \/ (exists b, v = VBool b) -> or v (VBool true) = VBool true.
Proof. intros [->|[[] ->]]; reflexivity. Qed.

Lemma emits_startPeriodicUpdates Q : emits Q startPeriodicUpdates.
Proof. apply emits_keeps. unfold startPeriodicUpdates. keeps_auto. Qed.

(** C9.  Whatever the state of the notifications checkbox (checked,
    unchecked, or no checkbox), the configuration [startBot] builds has
    [notifications_enabled] equal to [true], and every request [startBot]
    sends to [/api/bot/start] is a POST whose body has it equal to
    [true]. *)
Theorem C9_notifications_always_enabled w :
  checkboxState w = VUndef \/ (exists b, checkboxState w = VBool b) ->
  (exists fields, fst (botConfig B w) = Ok (VObj fields) /\
                  assoc "notifications_enabled" fields = VBool true) /\
  (forall r, EvFetch r ∈ newEvents w (snd (startBot E B w)) ->
     req_endpoint r = "/api/bot/start" ->
     req_method r = Some "POST" /\
     exists fields, req_body r = Some (VObj fields) /\
                    assoc "notifications_enabled" fields = VBool true).
Proof.
  intro Hbox. split.
  - destruct (botConfig_notifications w) as [fields [Hc Hn]].
    exists fields. rewrite Hc. split; [reflexivity|].
    rewrite Hn. apply or_true_of_checkbox, Hbox.
  - assert (Hem : emitsAt startsWithNotifications (startBot E B) w).
    { unfold startBot. apply emitsAt_try_catch.
      2:{ intros e _. apply emits_keeps.
          repeat first [ apply keeps_showNotification; reflexivity | keeps_step ]. }
      apply emitsAt_bind; [apply emitsAt_keeps; keeps_auto|]. intros _ _.
      apply emitsAt_bind; [apply emitsAt_keeps; keeps_auto|]. intros _ _.
      match goal with |- emitsAt _ _ ?w0 => set (w2 := w0) end.
      assert (Hbox2 : checkboxState w2 = checkboxState w).
      { subst w2. unfold checkboxState. f_equal.
        do 2 match goal with |- dom (snd (?m ?w0)) !! ?id = _ =>
          transitivity (dom w0 !! id);
            [generalize w0; change (keeps (fun w => dom w !! id) m); keeps_auto|]
        end.
        reflexivity. }
      apply emitsAt_bind; [apply emitsAt_keeps; unfold botConfig; keeps_auto|].
      intros config Hconfig. clearbody w2.
      destruct (botConfig_notifications w2) as [fields [Hc Hn]].
      rewrite Hc in Hconfig |- *. simpl in Hconfig. inversion Hconfig; subst config.
      rewrite Hbox2, (or_true_of_checkbox _ Hbox) in Hn. simpl snd.
      match goal with |- emitsAt _ ?m _ =>
        generalize w2; change (emits startsWithNotifications m) end.
      apply emits_bind.
      { eapply emits_weaken; [|apply emits_call].
        intros [u|r]; simpl; [trivial|]. intros (_ & Hm & Hb) _.
        split; [exact Hm|]. exists fields. split; [exact Hb | exact Hn]. }
      intro response.
      repeat first
        [ apply emits_startPeriodicUpdates
        | eapply emits_weaken; [|apply emits_getBotStatus];
          intros [u|r]; simpl; [trivial|]; intros (He & _) He'; congruence
        | emits_step
        | apply emits_keeps;
          first [ apply keeps_showNotification; reflexivity | keeps_auto ] ]. }
    destruct Hem as [evs [Htr Hq]].
    intros r Hin Hr. rewrite (newEvents_app _ _ _ Htr) in Hin.
    rewrite Forall_forall in Hq. exact (Hq _ Hin Hr).
Qed.

End StartBot.

Lemma C9_witness :
  checkboxState signedIn = VBool false /\
  exists fields,
    fst (botConfig sampleBuiltins signedIn) = Ok (VObj fields) /\
    assoc "notifications_enabled" fields = VBool true.
Proof.
  split; [vm_compute; reflexivity|].
  destruct (C9_notifications_always_enabled envHealthy sampleBuiltins signedIn) as [H _].
  - right. exists false. vm_compute. reflexivity.
  - exact H.
Defined.

(** ** Timers across the whole page *)

Lemma timersGrow_refl w : timersGrow w w.
Proof.
  unfold timersGrow. repeat apply conj; try reflexivity. intros; auto.
Qed.

Lemma timersGrow_trans w1 w2 w3 :
  timersGrow w1 w2 -> timersGrow w2 w3 -> timersGrow w1 w3.
Proof.
  intros (Hn & Hu & Hr & Hold & Hnew) (Hn' & Hu' & Hr' & Hold' & Hnew').
  unfold timersGrow. repeat apply conj.
  - lia.
  - congruence.
  - congruence.
  - intros h Hh. rewrite Hold' by lia. apply Hold, Hh.
  - intros h t Hh Hl.
    destruct (decide (h < nextTimer w2)%nat) as [Hlt|Hge].
    + rewrite Hold' in Hl by exact Hlt.
      destruct (Hnew h t Hh Hl) as [?|[? ?]]; [left; assumption|right; split; [lia|assumption]].
    + destruct (Hnew' h t ltac:(lia) Hl) as [Hl2|[? ?]]; [|right; split; assumption].
      destruct (Hnew h t Hh Hl2) as [?|[? ?]]; [left; assumption|right; split; [lia|assumption]].
Qed.

Lemma timersGrow_of_state w w' : timerState w' = timerState w -> timersGrow w w'.
Proof.
  unfold timerState. intro H. inversion H as [[Ht Hn Hu Hr]].
  unfold timersGrow. rewrite Ht, Hn. repeat apply conj; auto.
Qed.

Lemma grows_of_keeps {A} (m : M A) : keeps timerState m -> grows m.
Proof. intros H w. apply timersGrow_of_state, H. Qed.

Lemma grows_ret {A} (a : A) : grows (ret a).
Proof. intro w. apply timersGrow_refl. Qed.

Lemma grows_bind {A C} (m : M A) (k : A -> M C) :
  grows m -> (forall a, grows (k a)) -> grows (bind m k).
Proof.
  intros Hm Hk w. unfold bind. specialize (Hm w).
  destruct (m w) as [[a|e] w1]; simpl in *; [|exact Hm].
  eapply timersGrow_trans; [exact Hm | apply Hk].
Qed.

Lemma grows_try_catch {A} (m : M A) h :
  grows m -> (forall e, grows (h e)) -> grows (try_catch m h).
Proof.
  intros Hm Hh w. unfold try_catch. specialize (Hm w).
  destruct (m w) as [[a|e] w1]; simpl in *; [exact Hm|].
  eapply timersGrow_trans; [exact Hm | apply Hh].
Qed.

Lemma grows_when b m : grows m -> grows (when b m).
Proof. intro H. destruct b; [exact H | apply grows_ret]. Qed.

Lemma grows_ifPresent id m : grows m -> grows (ifPresent id m).
Proof.
  intro H. unfold ifPresent. apply grows_bind; [apply grows_of_keeps, keeps_gets|].
  intros [el|]; [exact H | apply grows_ret].
Qed.

Lemma grows_setTimeout_hide d : grows (setTimeout CbHideToast d).
Proof.
  intro w. unfold setTimeout, setTimer, timersGrow. simpl. repeat apply conj; auto.
  - intros h Hh. apply lookup_insert_ne. lia.
  - intros h t Hh Hl. apply lookup_insert_Some in Hl as [[<- <-]|[_ Hl]].
    + right. split; [lia | reflexivity].
    + left. exact Hl.
Qed.

Lemma grows_showNotification msg type d : grows (showNotification msg type d).
Proof.
  unfold showNotification.
  apply grows_bind; [apply grows_of_keeps, keeps_gets|]. intros [toast|].
  2:{ apply grows_of_keeps, keeps_throw. }
  repeat (apply grows_bind; [apply grows_of_keeps; solve [keeps_auto] | intro]).
  apply grows_bind; [apply grows_setTimeout_hide | intro; apply grows_ret].
Qed.

Ltac grows_leaf := apply grows_of_keeps; solve [keeps_auto].

Ltac grows_step :=
  lazymatch goal with
  | |- grows (ret _) => apply grows_ret
  | |- grows (bind _ _) => apply grows_bind; [| intro]
  | |- grows (try_catch _ _) => apply grows_try_catch; [| intro]
  | |- grows (when _ _) => apply grows_when
  | |- grows (ifPresent _ _) => apply grows_ifPresent
  | |- grows (showNotification _ _ _) => apply grows_showNotification
  | |- grows (if ?b then _ else _) => destruct b
  | |- grows (match ?x with _ => _ end) => destruct x
  | |- grows (let _ := _ in _) => cbv zeta
  end.

Section TimersOfThePage.
Variable E : Env.
Variable B : Builtins.

Lemma grows_call endpoint o : grows (makeAuthenticatedApiCall E endpoint o).
Proof. apply grows_of_keeps, keeps_call; reflexivity. Qed.

Lemma keeps_timers_getBotStatus : keeps timerState (getBotStatus E).
Proof.
  unfold getBotStatus.
  apply keeps_try_catch; [|intro; apply keeps_ret].
  apply keeps_bind; [apply keeps_call; reflexivity|]. intro. keeps_auto.
Qed.

Lemma grows_getBotStatus : grows (getBotStatus E).
Proof. apply grows_of_keeps, keeps_timers_getBotStatus. Qed.

Lemma keeps_renderers {X} (f : world -> X) :
  (forall g w, f (set_dom g w) = f w) ->
  (forall p, keeps f (updateProfile B p)) /\
  (forall a, keeps f (updateAccount B a)) /\
  (forall p, keeps f (updatePositions B p)) /\
  (forall s, keeps f (updateStats B s)).
Proof.
  intro Hd.
  repeat apply conj; intro;
    unfold updateProfile, updateAccount, updatePositions, updateStats, positionItem,
      toLowerCaseOf, replaceOf;
    repeat first [ apply keeps_modify; intro; apply Hd | keeps_step ].
Qed.

Lemma grows_loadFallbackData : grows (loadFallbackData E B).
Proof.
  destruct (keeps_renderers timerState ltac:(reflexivity)) as (Hp & _ & _ & Hs).
  unfold loadFallbackData.
  repeat first
    [ apply grows_call
    | apply grows_of_keeps; first [apply Hp | apply Hs]
    | grows_step ].
Qed.

Lemma grows_loadAllDashboardData : grows (loadAllDashboardData E B).
Proof.
  destruct (keeps_renderers timerState ltac:(reflexivity)) as (Hp & Ha & Hpos & Hs).
  unfold loadAllDashboardData.
  repeat first
    [ apply grows_call
    | apply grows_loadFallbackData
    | apply grows_of_keeps;
      first [ apply Hp | apply Ha | apply Hpos | apply Hs | apply keeps_get
            | unfold updateApiStatus, loadTradingPairs_detached; solve [keeps_auto] ]
    | grows_step ].
Qed.

Lemma timerInv_grow w w' : timerInv w -> timersGrow w w' -> timerInv w'.
Proof.
  intros (Hn & Hk & Hp & Hu & Hr & Ht) (Gn & Gu & Gr & Gold & Gnew).
  assert (Hcases : forall h t, timers w' !! h = Some t ->
            (timers w !! h = Some t /\ (h < nextTimer w)%nat) \/
            ((nextTimer w <= h < nextTimer w')%nat /\ timer_callback t = CbHideToast)).
  { intros h t Hl. destruct (decide (h < nextTimer w)%nat) as [Hlt|Hge].
    - left. rewrite Gold in Hl by exact Hlt. auto.
    - destruct (Gnew h t ltac:(lia) Hl) as [Hl'|[? ?]].
      + specialize (Hk _ _ Hl'). lia.
      + right. split; [lia | assumption]. }
  unfold timerInv. repeat apply conj.
  - lia.
  - intros h t Hl. destruct (Hcases h t Hl) as [[Hl' _]|[? _]]; [|lia].
    specialize (Hk _ _ Hl'). lia.
  - intros h t Hl Hc. destruct (Hcases h t Hl) as [[Hl' _]|[_ Hc']]; [|congruence].
    rewrite Gu. eauto.
  - intros h Hh. rewrite Gu in Hh. specialize (Hu h Hh).
    rewrite Gold; [exact Hu|]. specialize (Hk _ _ Hu). lia.
  - intros h t Hl Hc. destruct (Hcases h t Hl) as [[Hl' _]|[_ Hc']]; [|congruence].
    rewrite Gr. eauto.
  - intros h Hh. rewrite Gr in Hh. specialize (Ht h Hh).
    rewrite Gold; [exact Ht|]. specialize (Hk _ _ Ht). lia.
Qed.

Lemma timerInv_pollerInv w : timerInv w -> pollerInv w.
Proof.
  intros (Hn & Hk & Hp & Hu & Hr & Ht). unfold pollerInv. repeat apply conj.
  - exact Hk.
  - intros h Hh. exact (Hk _ _ (Hu h Hh)).
  - exact Hn.
  - intros h t Hl Hc. exact (proj2 (Hp h t Hl Hc)).
Qed.

Lemma size_filter_one {V} (P : nat * V -> Prop) `{!forall x, Decision (P x)}
    (m : gmap nat V) :
  (forall h1 v1 h2 v2, m !! h1 = Some v1 -> P (h1, v1) ->
                       m !! h2 = Some v2 -> P (h2, v2) -> h1 = h2) ->
  (size (filter P m) <= 1)%nat.
Proof.
  intro Huniq.
  destruct (map_choose_or_empty (filter P m)) as [(h & v & Hl)| ->].
  2:{ rewrite map_size_empty. lia. }
  assert (Heq : filter P m = {[h := v]}).
  { apply map_eq. intro i. apply option_eq. intro x.
    rewrite lookup_singleton_Some.
    apply map_lookup_filter_Some in Hl as [Hl HP]. split.
    - intro Hi. apply map_lookup_filter_Some in Hi as [Hi HPi].
      assert (i = h) by (eapply Huniq; eauto). subst i. split; congruence.
    - intros [<- <-]. apply map_lookup_filter_Some. auto. }
  rewrite Heq, map_size_singleton. lia.
Qed.

Lemma timerInv_sizes w :
  timerInv w -> (size (pollTimers w) <= 1)%nat /\ (size (refreshTimers w) <= 1)%nat.
Proof.
  intros (Hn & Hk & Hp & Hu & Hr & Ht). split.
  - apply size_filter_one. simpl. intros h1 t1 h2 t2 H1 C1 H2 C2.
    destruct (Hp _ _ H1 C1) as [_ E1]. destruct (Hp _ _ H2 C2) as [_ E2]. congruence.
  - apply size_filter_one. simpl. intros h1 t1 h2 t2 H1 C1 H2 C2.
    destruct (Hr _ _ H1 C1) as [_ E1]. destruct (Hr _ _ H2 C2) as [_ E2]. congruence.
Qed.

Lemma timerInv_truthy w h :
  timerInv w -> (updateInterval w = Some h \/ tokenRefreshInterval w = Some h) ->
  handle_truthy (Some h) = true.
Proof.
  intros (Hn & Hk & Hp & Hu & Hr & Ht) [Hh|Hh].
  - specialize (Hk _ _ (Hu h Hh)). destruct h; [lia | reflexivity].
  - specialize (Hk _ _ (Ht h Hh)). destruct h; [lia | reflexivity].
Qed.

(** Writes that do not touch the timer table or its two variables. *)
Lemma timerInv_state w w' : timerState w' = timerState w -> timerInv w -> timerInv w'.
Proof. intros H Hinv. eapply timerInv_grow; [exact Hinv | apply timersGrow_of_state, H]. Qed.

Lemma timerInv_start w : timerInv w -> timerInv (snd (startPeriodicUpdates w)).
Proof.
  intros Hinv. pose proof Hinv as (Hn & Hk & Hp & Hu & Hr & Ht).
  rewrite start_eq. simpl.
  assert (Hold : forall h t,
            (if handle_truthy (updateInterval w)
             then delete (default 0%nat (updateInterval w)) (timers w)
             else timers w) !! h = Some t ->
            timers w !! h = Some t /\ timer_callback t <> CbPoll).
  { intros h t Hl. destruct (updateInterval w) as [h0|] eqn:Hu0.
    - rewrite (timerInv_truthy w h0 Hinv) in Hl by (left; exact Hu0). simpl in Hl.
      apply lookup_delete_Some in Hl as [Hne Hl]. split; [exact Hl|].
      intro Hc. destruct (Hp _ _ Hl Hc) as [_ Heq]. congruence.
    - simpl in Hl. split; [exact Hl|]. intro Hc.
      destruct (Hp _ _ Hl Hc) as [_ Heq]. discriminate. }
  unfold timerInv. simpl. repeat apply conj.
  - lia.
  - intros h t Hl. apply lookup_insert_Some in Hl as [[<- _]|[_ Hl]]; [lia|].
    apply Hold in Hl as [Hl _]. specialize (Hk _ _ Hl). lia.
  - intros h t Hl Hc. apply lookup_insert_Some in Hl as [[<- <-]|[_ Hl]]; [auto|].
    apply Hold in Hl as [_ Hl]. contradiction.
  - intros h Hh. inversion Hh; subst h. apply lookup_insert_eq.
  - intros h t Hl Hc. apply lookup_insert_Some in Hl as [[<- <-]|[_ Hl]]; [discriminate|].
    apply Hold in Hl as [Hl _]. eauto.
  - intros h Hh. specialize (Ht h Hh).
    rewrite lookup_insert_ne by (specialize (Hk _ _ Ht); lia).
    destruct (updateInterval w) as [h0|] eqn:Hu0; [|exact Ht].
    rewrite (timerInv_truthy w h0 Hinv) by (left; exact Hu0). simpl.
    rewrite lookup_delete_ne; [exact Ht|].
    intros ->. specialize (Hu _ eq_refl). rewrite Ht in Hu. discriminate.
Qed.

Lemma timerInv_stop w : timerInv w -> timerInv (snd (stopPeriodicUpdates w)).
Proof.
  intros Hinv. pose proof Hinv as (Hn & Hk & Hp & Hu & Hr & Ht).
  rewrite stop_eq. simpl.
  destruct (updateInterval w) as [h0|] eqn:Hu0; [|exact Hinv].
  rewrite (timerInv_truthy w h0 Hinv) by (left; exact Hu0). simpl.
  unfold timerInv. simpl. repeat apply conj.
  - exact Hn.
  - intros h t Hl. apply lookup_delete_Some in Hl as [_ Hl]. eauto.
  - intros h t Hl Hc. apply lookup_delete_Some in Hl as [Hne Hl].
    destruct (Hp _ _ Hl Hc) as [_ Heq]. congruence.
  - intros h Hh. discriminate.
  - intros h t Hl Hc. apply lookup_delete_Some in Hl as [_ Hl]. eauto.
  - intros h Hh. specialize (Ht h Hh). rewrite lookup_delete_ne; [exact Ht|].
    intros ->. specialize (Hu _ eq_refl). rewrite Ht in Hu. discriminate.
Qed.

Lemma setupTokenRefresh_eq w :
  setupTokenRefresh w =
  (Ok tt,
   set_tokenRefreshInterval (Some (nextTimer w))
     (set_timers
        (<[nextTimer w := refreshTimer]>
           (if handle_truthy (tokenRefreshInterval w)
            then delete (default 0%nat (tokenRefreshInterval w)) (timers w)
            else timers w))
        (S (nextTimer w)) w)).
Proof.
  unfold setupTokenRefresh, bind, gets, when, clearInterval, modify, setInterval, setTimer, ret.
  destruct (handle_truthy (tokenRefreshInterval w)); reflexivity.
Qed.

Lemma timerInv_setupTokenRefresh w : timerInv w -> timerInv (snd (setupTokenRefresh w)).
Proof.
  intros Hinv. pose proof Hinv as (Hn & Hk & Hp & Hu & Hr & Ht).
  rewrite setupTokenRefresh_eq. simpl.
  assert (Hold : forall h t,
            (if handle_truthy (tokenRefreshInterval w)
             then delete (default 0%nat (tokenRefreshInterval w)) (timers w)
             else timers w) !! h = Some t ->
            timers w !! h = Some t /\ timer_callback t <> CbTokenRefresh).
  { intros h t Hl. destruct (tokenRefreshInterval w) as [h0|] eqn:Hu0.
    - rewrite (timerInv_truthy w h0 Hinv) in Hl by (right; exact Hu0). simpl in Hl.
      apply lookup_delete_Some in Hl as [Hne Hl]. split; [exact Hl|].
      intro Hc. destruct (Hr _ _ Hl Hc) as [_ Heq]. congruence.
    - simpl in Hl. split; [exact Hl|]. intro Hc.
      destruct (Hr _ _ Hl Hc) as [_ Heq]. discriminate. }
  unfold timerInv. simpl. repeat apply conj.
  - lia.
  - intros h t Hl. apply lookup_insert_Some in Hl as [[<- _]|[_ Hl]]; [lia|].
    apply Hold in Hl as [Hl _]. specialize (Hk _ _ Hl). lia.
  - intros h t Hl Hc. apply lookup_insert_Some in Hl as [[<- <-]|[_ Hl]]; [discriminate|].
    apply Hold in Hl as [Hl _]. eauto.
  - intros h Hh. specialize (Hu h Hh).
    rewrite lookup_insert_ne by (specialize (Hk _ _ Hu); lia).
    destruct (tokenRefreshInterval w) as [h0|] eqn:Hu0; [|exact Hu].
    rewrite (timerInv_truthy w h0 Hinv) by (right; exact Hu0). simpl.
    rewrite lookup_delete_ne; [exact Hu|].
    intros ->. specialize (Ht _ eq_refl). rewrite Ht in Hu. discriminate.
  - intros h t Hl Hc. apply lookup_insert_Some in Hl as [[<- <-]|[_ Hl]]; [auto|].
    apply Hold in Hl as [_ Hl]. contradiction.
  - intros h Hh. inversion Hh; subst h. apply lookup_insert_eq.
Qed.

(** The block [if (tokenRefreshInterval) { clearInterval(...);
    tokenRefreshInterval = null; }] of [logout] and of the signed-out
    branch. *)
Lemma timerInv_dropRefresher w :
  timerInv w ->
  timerInv (snd (when (handle_truthy (tokenRefreshInterval w))
                   (clearInterval (default 0%nat (tokenRefreshInterval w)) ;;
                    modify (set_tokenRefreshInterval None)) w)).
Proof.
  intros Hinv. pose proof Hinv as (Hn & Hk & Hp & Hu & Hr & Ht).
  destruct (tokenRefreshInterval w) as [h0|] eqn:Hu0; [|exact Hinv].
  rewrite (timerInv_truthy w h0 Hinv) by (right; exact Hu0).
  unfold bind, gets, when, clearInterval, modify, ret. simpl.
  unfold timerInv. simpl. repeat apply conj.
  - exact Hn.
  - intros h t Hl. apply lookup_delete_Some in Hl as [_ Hl]. eauto.
  - intros h t Hl Hc. apply lookup_delete_Some in Hl as [_ Hl]. eauto.
  - intros h Hh. specialize (Hu h Hh). rewrite lookup_delete_ne; [exact Hu|].
    intros ->. specialize (Ht _ eq_refl). rewrite Ht in Hu. discriminate.
  - intros h t Hl Hc. apply lookup_delete_Some in Hl as [Hne Hl].
    destruct (Hr _ _ Hl Hc) as [_ Heq]. congruence.
  - intros h Hh. discriminate.
Qed.

End TimersOfThePage.

Section Preserves.
Context (I : world -> Prop).

Lemma preserves_ret {A} (a : A) : preserves I (ret a).
Proof. intros w H. exact H. Qed.

Lemma preserves_bind {A C} (m : M A) (k : A -> M C) :
  preserves I m -> (forall a, preserves I (k a)) -> preserves I (bind m k).
Proof.
  intros Hm Hk w Hw. unfold bind. specialize (Hm w Hw).
  destruct (m w) as [[a|e] w1]; simpl in *; [apply Hk, Hm | exact Hm].
Qed.

Lemma preserves_try_catch {A} (m : M A) h :
  preserves I m -> (forall e, preserves I (h e)) -> preserves I (try_catch m h).
Proof.
  intros Hm Hh w Hw. unfold try_catch. specialize (Hm w Hw).
  destruct (m w) as [[a|e] w1]; simpl in *; [exact Hm | apply Hh, Hm].
Qed.

Lemma preserves_when b m : preserves I m -> preserves I (when b m).
Proof. intro H. destruct b; [exact H | apply preserves_ret]. Qed.

Lemma preserves_at_bind {A C} (m : M A) (k : A -> M C) w :
  I (snd (m w)) -> (forall a, preserves I (k a)) -> I (snd (bind m k w)).
Proof.
  intros Hm Hk. unfold bind.
  destruct (m w) as [[a|e] w1]; simpl in *; [apply Hk, Hm | exact Hm].
Qed.

End Preserves.

Lemma preserves_grows {A} (m : M A) : grows m -> preserves timerInv m.
Proof. intros H w Hw. eapply timerInv_grow; [exact Hw | apply H]. Qed.

Ltac preserves_step :=
  lazymatch goal with
  | |- preserves _ (ret _) => apply preserves_ret
  | |- preserves _ (bind _ _) => apply preserves_bind; [| intro]
  | |- preserves _ (try_catch _ _) => apply preserves_try_catch; [| intro]
  | |- preserves _ (when _ _) => apply preserves_when
  | |- preserves _ (if ?b then _ else _) => destruct b
  | |- preserves _ (match ?x with _ => _ end) => destruct x
  end.

Section PageInvariant.
Variable E : Env.
Variable B : Builtins.

Lemma keeps_getIdToken {X} (f : world -> X) u :
  (forall ev w, f (log ev w) = f w) -> keeps f (getIdToken E u).
Proof. intros H w. apply H. Qed.

Lemma keeps_await {X A} (f : world -> X) (outcome : res A) : keeps f (await outcome).
Proof. intro w. reflexivity. Qed.

Lemma keeps_loadPaymentAndServerInfo {X} (f : world -> X) appInfo :
  (forall g w, f (set_dom g w) = f w) -> keeps f (loadPaymentAndServerInfo B appInfo).
Proof.
  intro Hd. unfold loadPaymentAndServerInfo, joinOf.
  repeat first [ apply keeps_await | apply keeps_modify; intro; apply Hd | keeps_step ].
Qed.

Lemma keeps_updateStrategyInfo {X} (f : world -> X) T :
  (forall g w, f (set_dom g w) = f w) -> keeps f (updateStrategyInfo B T).
Proof.
  intro Hd. unfold updateStrategyInfo.
  repeat first [ apply keeps_modify; intro; apply Hd | keeps_step ].
Qed.

Lemma keeps_timers_dispatch e w : timerState (dispatch B e w) = timerState w.
Proof.
  unfold dispatch. destruct (dom w !! target e); [|reflexivity].
  generalize w.
  change (keeps timerState (bind (browserAction e) (fun _ => listener B e))).
  destruct e;
    unfold browserAction, listener, onTimeframeChange, onStopLossInput, onTakeProfitInput,
      onUseSlRecommendedClick, onUseTpRecommendedClick, onSlRecommendationClick,
      onTpRecommendationClick;
    repeat first [ apply keeps_updateStrategyInfo; reflexivity | keeps_step ].
Qed.

Lemma keeps_botConfig {X} (f : world -> X) : keeps f (botConfig B).
Proof. unfold botConfig. keeps_auto. Qed.

Ltac grows_page :=
  lazymatch goal with
  | |- grows (makeAuthenticatedApiCall _ _ _) => apply grows_call
  | |- grows (getBotStatus _) => apply grows_getBotStatus
  | |- grows (loadAllDashboardData _ _) => apply grows_loadAllDashboardData
  | |- grows (botConfig _) => apply grows_of_keeps, keeps_botConfig
  | |- grows (getIdToken _ _) => apply grows_of_keeps, keeps_getIdToken; reflexivity
  | |- grows (await _) => apply grows_of_keeps, keeps_await
  | |- grows (loadPaymentAndServerInfo _ _) =>
      apply grows_of_keeps, keeps_loadPaymentAndServerInfo; reflexivity
  | |- grows (setupEventListeners _) =>
      apply grows_of_keeps, keeps_updateStrategyInfo; reflexivity
  | |- grows (bind _ _) => grows_step
  | |- grows (try_catch _ _) => grows_step
  | |- grows (when _ _) => grows_step
  | |- grows (ifPresent _ _) => grows_step
  | |- grows (showNotification _ _ _) => grows_step
  | |- grows (ret _) => grows_step
  | |- grows (if _ then _ else _) => grows_step
  | |- grows (match _ with _ => _ end) => grows_step
  | |- grows _ => apply grows_of_keeps; solve [keeps_auto]
  end.

Ltac preserves_page :=
  lazymatch goal with
  | |- preserves _ startPeriodicUpdates => exact timerInv_start
  | |- preserves _ stopPeriodicUpdates => exact timerInv_stop
  | |- preserves _ setupTokenRefresh => exact timerInv_setupTokenRefresh
  | |- preserves _ (bind _ _) => preserves_step
  | |- preserves _ (try_catch _ _) => preserves_step
  | |- preserves _ (when _ _) => preserves_step
  | |- preserves _ (ret _) => preserves_step
  | |- preserves _ (if _ then _ else _) => preserves_step
  | |- preserves _ (match _ with _ => _ end) => preserves_step
  | |- preserves _ _ => apply preserves_grows; repeat grows_page
  end.

Lemma preserves_startBot : preserves timerInv (startBot E B).
Proof. unfold startBot. repeat preserves_page. Qed.

Lemma preserves_stopBot : preserves timerInv (stopBot E B).
Proof. unfold stopBot. repeat preserves_page. Qed.

Lemma grows_closePosition symbol positionSide :
  grows (closePosition E B symbol positionSide).
Proof. unfold closePosition. repeat grows_page. Qed.

Lemma grows_openApiModal : grows (openApiModal E).
Proof. unfold openApiModal. repeat grows_page. Qed.

Lemma preserves_logout signOut : preserves timerInv (logout E signOut).
Proof.
  unfold logout.
  apply preserves_bind; [apply preserves_grows, grows_of_keeps, keeps_gets|].
  intros confirmed. destruct (negb confirmed); [apply preserves_ret|].
  apply preserves_try_catch.
  2:{ intro. apply preserves_grows. repeat grows_page. }
  intros w Hw. unfold bind at 1, gets at 1.
  apply preserves_at_bind; [apply timerInv_dropRefresher, Hw|]. intros _.
  repeat preserves_page.
Qed.

Lemma preserves_onAuthStateChanged u appInfo :
  preserves timerInv (onAuthStateChanged E B u appInfo).
Proof.
  unfold onAuthStateChanged. destruct u as [u|].
  - repeat preserves_page.
  - intros w Hw. unfold bind at 1, gets at 1.
    apply preserves_at_bind; [apply timerInv_dropRefresher, Hw|]. intros _.
    apply preserves_ret.
Qed.

Lemma timerInv_delete_hide w h t :
  timerInv w -> timers w !! h = Some t -> timer_callback t = CbHideToast ->
  timerInv (set_timers (delete h (timers w)) (nextTimer w) w).
Proof.
  intros (Hn & Hk & Hp & Hu & Hr & Ht) Hl Hc.
  unfold timerInv. simpl. repeat apply conj.
  - exact Hn.
  - intros h' t' Hl'. apply lookup_delete_Some in Hl' as [_ Hl']. eauto.
  - intros h' t' Hl' Hc'. apply lookup_delete_Some in Hl' as [_ Hl']. eauto.
  - intros h' Hh. specialize (Hu h' Hh). rewrite lookup_delete_ne; [exact Hu|].
    intros ->. rewrite Hl in Hu. inversion Hu; subst t. discriminate.
  - intros h' t' Hl' Hc'. apply lookup_delete_Some in Hl' as [_ Hl']. eauto.
  - intros h' Hh. specialize (Ht h' Hh). rewrite lookup_delete_ne; [exact Ht|].
    intros ->. rewrite Hl in Ht. inversion Ht; subst t. discriminate.
Qed.

Lemma keeps_tokenRefreshTick {X} (f : world -> X) :
  (forall ev w, f (log ev w) = f w) -> (forall t w, f (set_authToken t w) = f w) ->
  keeps f (tokenRefreshTick E).
Proof.
  intros Hl Ht. unfold tokenRefreshTick.
  apply keeps_try_catch; [|intro; apply keeps_ret].
  apply keeps_bind; [apply keeps_getFreshToken; assumption | intro; apply keeps_ret].
Qed.

Lemma grows_pollTick : grows (pollTick E B).
Proof. unfold pollTick. repeat grows_page. Qed.

Lemma preserves_fire h : preserves timerInv (fire E B h).
Proof.
  intros w Hw. pose proof Hw as (Hn & Hk & Hp & Hu & Hr & Ht).
  unfold fire. unfold bind at 1. unfold gets at 1.
  destruct (timers w !! h) as [t|] eqn:Hl; [|exact Hw].
  destruct (timer_callback t) eqn:Hc.
  - destruct (Hr _ _ Hl Hc) as [-> _].
    apply preserves_at_bind; [exact Hw|]. intros _.
    apply preserves_grows, grows_of_keeps, keeps_tokenRefreshTick; reflexivity.
  - destruct (Hp _ _ Hl Hc) as [-> _].
    apply preserves_at_bind; [exact Hw|]. intros _.
    apply preserves_grows, grows_pollTick.
  - apply preserves_at_bind.
    + destruct (timer_repeats t); [exact Hw|].
      exact (timerInv_delete_hide w h t Hw Hl Hc).
    + intros _. apply preserves_grows, grows_of_keeps. simpl. keeps_auto.
Qed.

Lemma perform_inv a w : timerInv w -> timerInv (perform E B a w).
Proof.
  intro Hw. destruct a; simpl.
  - apply preserves_onAuthStateChanged, Hw.
  - apply preserves_fire, Hw.
  - apply preserves_startBot, Hw.
  - apply preserves_stopBot, Hw.
  - apply (preserves_grows _ (grows_closePosition _ _)), Hw.
  - apply (preserves_grows _ (grows_loadAllDashboardData E B)), Hw.
  - apply preserves_logout, Hw.
  - apply (preserves_grows _ grows_openApiModal), Hw.
  - eapply timerInv_state; [|exact Hw].
    generalize w. change (keeps timerState toggleAdvancedSettings).
    unfold toggleAdvancedSettings. keeps_auto.
  - eapply timerInv_state; [|exact Hw].
    generalize w. change (keeps timerState toggleMobileMenu).
    unfold toggleMobileMenu. keeps_auto.
  - apply (preserves_grows _ (grows_showNotification _ _ _)), Hw.
  - eapply timerInv_state; [apply keeps_timers_dispatch | exact Hw].
Qed.

(** X1.  From a page whose timer table is as the script keeps it,
    whatever happens to the page (auth-state events, timers firing, the
    bot started or stopped, a position closed, a refresh, a logout, the
    API dialog, the settings toggles, the recommendation controls), in
    any order and whatever the backend answers, the table is still as the
    script keeps it: at most one status poller and at most one token
    refresher are live, each the one its variable holds. *)
Theorem timers_stay_single acts w :
  timerInv w ->
  let w' := performAll E B acts w in
  timerInv w' /\
  (size (pollTimers w') <= 1)%nat /\ (size (refreshTimers w') <= 1)%nat.
Proof.
  intros Hw w'. assert (Hw' : timerInv w').
  { subst w'. revert w Hw. induction acts as [|a acts IH]; intros w Hw; simpl; [exact Hw|].
    apply IH, perform_inv, Hw. }
  split; [exact Hw' | apply timerInv_sizes, Hw'].
Qed.

End PageInvariant.

(** ** More on the API client *)

Section ApiClientMore.
Variable E : Env.

Lemma atFirstFetch_truthy w w1 :
  atFirstFetch E w = Some w1 -> token_truthy (authToken w1) = true.
Proof.
  unfold atFirstFetch. destruct (token_truthy (authToken w)) eqn:Ht.
  - intro H. inversion H; subst. exact Ht.
  - destruct (getFreshToken E w) as [[t|e] w2]; [|discriminate].
    destruct (token_truthy (authToken w2)) eqn:Ht2; [|discriminate].
    intro H. inversion H; subst. exact Ht2.
Qed.

Lemma token_truthy_Some t : token_truthy t = true -> exists s, t = Some s /\ s <> "".
Proof.
  destruct t as [s|]; [|discriminate]. simpl. intro H. exists s. split; [reflexivity|].
  intros ->. discriminate.
Qed.

Lemma includes_empty t : t <> "" -> includes "" t = false.
Proof. destruct t; [congruence | reflexivity]. Qed.

Lemma decode_isJson r w :
  fst (decode r w) =
  if isJson r then
    match resp_json r with
    | Some v => Ok v
    | None => Throw (SyntaxError "Unexpected token in JSON")
    end
  else Ok (VStr (resp_text r)).
Proof.
  unfold decode, isJson, response_json.
  destruct (content_type r) as [ct|]; [|reflexivity].
  destruct (String.eqb ct "") eqn:Hct.
  - apply String.eqb_eq in Hct. subst ct. reflexivity.
  - simpl. destruct (includes ct "application/json"); [|reflexivity].
    destruct (resp_json r); reflexivity.
Qed.

(** X2.  A call made without a usable token, when none can be
    obtained, fails before anything is sent to the backend: with no user
    signed in the error is 'No current user' and the identity provider is
    not asked; when the provider fails its error is passed on; when it
    answers with the empty string that string is cached and the error is
    'Could not obtain authentication token'. *)
Theorem call_needs_token endpoint o w :
  atFirstFetch E w = None ->
  let result := makeAuthenticatedApiCall E endpoint o w in
  fetches (newEvents w (snd result)) = [] /\
  (currentUser w = None -> result = (Throw (Error "No current user"), w)) /\
  (forall u e, currentUser w = Some u -> idp E (trace w) u = Throw e ->
     result = (Throw e, log (EvGetIdToken u) w)) /\
  (forall u t, currentUser w = Some u -> idp E (trace w) u = Ok t ->
     t = "" /\
     result = (Throw (Error "Could not obtain authentication token"),
               set_authToken (Some "") (log (EvGetIdToken u) w))).
Proof.
  intros Hp result.
  split; [destruct (call_without_token E endpoint o w Hp) as [e [_ H]]; exact H|].
  subst result. unfold atFirstFetch in Hp. unfold makeAuthenticatedApiCall.
  destruct (token_truthy (authToken w)) eqn:Ht; [discriminate|].
  unfold try_catch, bind, gets, when, ret.
  repeat first [rewrite Ht | progress simpl].
  rewrite getFreshToken_eq in *.
  destruct (currentUser w) as [u|] eqn:Hu.
  - destruct (idp E (trace w) u) as [t|e] eqn:Hi; simpl in *.
    + destruct (negb (t =? "")%string) eqn:Hne; [discriminate|]. simpl.
      assert (t = "") as ->.
      { apply negb_false_iff in Hne. apply String.eqb_eq in Hne. exact Hne. }
      repeat apply conj; [intros; congruence | intros; congruence |].
      intros u' t' Hu' Ht'. inversion Hu'; subst u'. rewrite Hi in Ht'.
      inversion Ht'; subst t'. auto.
    + repeat apply conj; [intros; congruence | | intros; congruence].
      intros u' e' Hu' He'. inversion Hu'; subst u'. rewrite Hi in He'.
      inversion He'; subst e'. reflexivity.
  - simpl. repeat apply conj; [reflexivity | intros; congruence | intros; congruence].
Qed.

(** X3.  A call whose first request is answered 2xx sends that
    one request and asks for no token; its result is the body parsed as
    JSON when the content type contains 'application/json' (a SyntaxError
    when the body does not parse) and the body as text otherwise, a
    missing content type included. *)
Theorem call_success_decodes endpoint o w w1 r1 :
  atFirstFetch E w = Some w1 ->
  server E (trace w1) (mergedOptions endpoint o (authToken w1)) = Ok r1 ->
  ok r1 = true ->
  let result := makeAuthenticatedApiCall E endpoint o w in
  snd result = log (EvFetch (mergedOptions endpoint o (authToken w1))) w1 /\
  (forall v, isJson r1 = true -> resp_json r1 = Some v -> fst result = Ok v) /\
  (isJson r1 = true -> resp_json r1 = None ->
   fst result = Throw (SyntaxError "Unexpected token in JSON")) /\
  (isJson r1 = false -> fst result = Ok (VStr (resp_text r1))) /\
  (content_type r1 = None -> fst result = Ok (VStr (resp_text r1))).
Proof.
  intros Hp Hs Hok result. subst result.
  rewrite (call_eq E endpoint o w w1 Hp). cbv zeta. rewrite Hs, Hok. simpl fst. simpl snd.
  rewrite decode_isJson. repeat apply conj.
  - reflexivity.
  - intros v -> ->. reflexivity.
  - intros -> ->. reflexivity.
  - intros ->. reflexivity.
  - intros Hc. unfold isJson. rewrite Hc. reflexivity.
Qed.

(** X4.  When [fetch] itself rejects on the first request (the
    network is down), the call fails with that very error; the request is
    not sent again and no token is asked for. *)
Theorem call_fetch_rejected endpoint o w w1 e :
  atFirstFetch E w = Some w1 ->
  server E (trace w1) (mergedOptions endpoint o (authToken w1)) = Throw e ->
  makeAuthenticatedApiCall E endpoint o w =
    (Throw e, log (EvFetch (mergedOptions endpoint o (authToken w1))) w1).
Proof.
  intros Hp Hs. rewrite (call_eq E endpoint o w w1 Hp). cbv zeta. rewrite Hs. reflexivity.
Qed.

(** X5.  The first request of a call is the first thing logged
    once a token is at hand.  Its headers are the caller's, completed by
    the defaults: a header the caller gives is sent as given, and where
    the caller gives none, [Authorization] is 'Bearer ' followed by the
    cached token, which is not empty, and [Content-Type] is
    'application/json'. *)
Theorem first_request_headers endpoint o w w1 :
  atFirstFetch E w = Some w1 ->
  let req1 := mergedOptions endpoint o (authToken w1) in
  (exists evs, trace (snd (makeAuthenticatedApiCall E endpoint o w)) =
               (trace w1 ++ EvFetch req1 :: evs)%list) /\
  (exists t, authToken w1 = Some t /\ t <> "" /\
     (opt_headers o !! "Authorization" = None ->
      req_headers req1 !! "Authorization" = Some ("Bearer " ++ t))) /\
  (opt_headers o !! "Content-Type" = None ->
   req_headers req1 !! "Content-Type" = Some "application/json") /\
  (forall k v, opt_headers o !! k = Some v -> req_headers req1 !! k = Some v) /\
  (forall k, k <> "Authorization" -> k <> "Content-Type" ->
     req_headers req1 !! k = opt_headers o !! k).
Proof.
  intros Hp req1. repeat apply conj.
  - rewrite (call_eq E endpoint o w w1 Hp). cbv zeta. fold req1.
    destruct (server E (trace w1) req1) as [r1|e1].
    2:{ exists []. reflexivity. }
    destruct (ok r1).
    { exists []. reflexivity. }
    destruct (status r1 =? 401)%N.
    2:{ exists []. reflexivity. }
    destruct (retryOutcome_trace E req1 (log (EvFetch req1) w1)) as [evs Hevs].
    exists evs. rewrite Hevs. simpl. rewrite <- app_assoc. reflexivity.
  - destruct (token_truthy_Some _ (atFirstFetch_truthy w w1 Hp)) as [t [Ht Hne]].
    exists t. repeat apply conj; [exact Ht | exact Hne |].
    intro Hnone. subst req1. simpl. rewrite lookup_union_r by exact Hnone.
    rewrite lookup_insert_ne by done. rewrite lookup_insert_eq, Ht. reflexivity.
  - intro Hnone. subst req1. simpl. rewrite lookup_union_r by exact Hnone.
    apply lookup_insert_eq.
  - intros k v Hk. subst req1. simpl. apply lookup_union_Some_l, Hk.
  - intros k H1 H2. subst req1. simpl.
    destruct (opt_headers o !! k) as [v|] eqn:Hk.
    + apply lookup_union_Some_l, Hk.
    + rewrite lookup_union_r by exact Hk.
      rewrite !lookup_insert_ne by congruence. apply lookup_empty.
Qed.

(** X6.  [getFreshToken] asks the identity provider for the
    signed-in user's token and never talks to the backend.  With no user
    signed in it fails with 'No current user' and leaves the world as it
    was.  When the provider fails, its error is passed on and the cached
    token stays.  When it answers, the answer is returned and cached, and
    a call made next sends that token without asking again. *)
Theorem refreshed_token_is_used w :
  let result := getFreshToken E w in
  fetches (newEvents w (snd result)) = [] /\
  (currentUser w = None -> result = (Throw (Error "No current user"), w)) /\
  (forall u e, currentUser w = Some u -> idp E (trace w) u = Throw e ->
     fst result = Throw e /\ authToken (snd result) = authToken w /\
     newEvents w (snd result) = [EvGetIdToken u]) /\
  (forall u t, currentUser w = Some u -> idp E (trace w) u = Ok t ->
     fst result = Ok t /\ authToken (snd result) = Some t /\
     newEvents w (snd result) = [EvGetIdToken u] /\
     (t <> "" -> forall endpoint o,
        opt_headers o !! "Authorization" = None ->
        exists req evs,
          newEvents (snd result) (snd (makeAuthenticatedApiCall E endpoint o (snd result))) =
            EvFetch req :: evs /\
          req_endpoint req = endpoint /\
          req_headers req !! "Authorization" = Some ("Bearer " ++ t))).
Proof.
  intro result. subst result. rewrite getFreshToken_eq.
  destruct (currentUser w) as [u|] eqn:Hu.
  2:{ repeat apply conj; try (intros; congruence); try reflexivity.
      unfold newEvents. simpl. rewrite drop_all. reflexivity. }
  assert (Hnew : forall w', trace w' = (trace w ++ [EvGetIdToken u])%list ->
                 newEvents w w' = [EvGetIdToken u]).
  { intros w' H. apply newEvents_app, H. }
  destruct (idp E (trace w) u) as [t|e] eqn:Hi; simpl.
  - repeat apply conj; try (intros; congruence).
    + rewrite Hnew by reflexivity. reflexivity.
    + intros u' t' Hu' Ht'. inversion Hu'; subst u'. rewrite Hi in Ht'.
      inversion Ht'; subst t'.
      repeat apply conj; [reflexivity | reflexivity | apply Hnew; reflexivity|].
      intros Hne endpoint o Hnone.
      set (w1 := set_authToken (Some t) (log (EvGetIdToken u) w)).
      assert (Ht : token_truthy (authToken w1) = true).
      { simpl. apply negb_true_iff. apply String.eqb_neq. exact Hne. }
      destruct (call_first_event E endpoint o w1 Ht) as [evs Hevs].
      exists (mergedOptions endpoint o (authToken w1)), evs.
      repeat apply conj.
      * apply newEvents_app. exact Hevs.
      * reflexivity.
      * simpl. rewrite lookup_union_r by exact Hnone.
        rewrite lookup_insert_ne by done. apply lookup_insert_eq.
  - repeat apply conj; try (intros; congruence).
    + rewrite Hnew by reflexivity. reflexivity.
    + intros u' e' Hu' He'. inversion Hu'; subst u'. rewrite Hi in He'.
      inversion He'; subst e'.
      repeat apply conj; [reflexivity | reflexivity | apply Hnew; reflexivity].
Qed.

End ApiClientMore.

(** ** The token refresher and the toast *)

Section Refresher.
Variable E : Env.
Variable B : Builtins.

Lemma tokenRefreshTick_eq w :
  tokenRefreshTick E w = (Ok tt, snd (getFreshToken E w)).
Proof.
  unfold tokenRefreshTick, try_catch, bind.
  destruct (getFreshToken E w) as [[t|e] w1]; reflexivity.
Qed.

Lemma pollTimers_setupTokenRefresh w :
  timerInv w -> pollTimers (snd (setupTokenRefresh w)) = pollTimers w.
Proof.
  intros Hinv. pose proof Hinv as (Hn & Hk & Hp & Hu & Hr & Ht).
  rewrite setupTokenRefresh_eq. unfold pollTimers. simpl.
  apply map_eq. intro i. apply option_eq. intro t.
  rewrite !map_lookup_filter_Some. simpl.
  split.
  - intros [Hl Hc]. split; [|exact Hc].
    apply lookup_insert_Some in Hl as [[<- <-]|[_ Hl]]; [discriminate Hc|].
    destruct (handle_truthy (tokenRefreshInterval w)); [|exact Hl].
    apply lookup_delete_Some in Hl as [_ Hl]. exact Hl.
  - intros [Hl Hc]. split; [|exact Hc].
    rewrite lookup_insert_ne by (specialize (Hk _ _ Hl); lia).
    destruct (tokenRefreshInterval w) as [h0|] eqn:Hh0; [|exact Hl].
    rewrite (timerInv_truthy w h0 Hinv) by (right; exact Hh0). simpl.
    rewrite lookup_delete_ne; [exact Hl|].
    intros ->. specialize (Ht _ eq_refl). rewrite Ht in Hl. inversion Hl; subst t.
    discriminate Hc.
Qed.

(** X7.  [setupTokenRefresh] registers a repeating timer of
    50 minutes (3,000,000 ms) whose tick is [getFreshToken] with its
    failure swallowed, and keeps its handle in [tokenRefreshInterval]; on
    a page whose timer table is as the script keeps it the refresher that
    ran before is cancelled and the status pollers are untouched.  A tick
    never throws, sends nothing to the backend, and leaves the timer table
    and the document alone; it caches the token the identity provider
    gives and keeps the cached one when the provider gives none. *)
Theorem token_refresher w :
  let ws := snd (setupTokenRefresh w) in
  (exists h, tokenRefreshInterval ws = Some h /\
     timers ws !! h = Some refreshTimer /\
     timer_delay refreshTimer = 50 * 60 * 1000 /\
     fire E B h ws = tokenRefreshTick E ws) /\
  (timerInv w ->
   (forall h, tokenRefreshInterval w = Some h -> timers ws !! h = None) /\
   refreshTimers ws = {[nextTimer w := refreshTimer]} /\
   pollTimers ws = pollTimers w) /\
  (forall w0,
     let w1 := snd (tokenRefreshTick E w0) in
     fst (tokenRefreshTick E w0) = Ok tt /\
     fetches (newEvents w0 w1) = [] /\
     timers w1 = timers w0 /\ dom w1 = dom w0 /\
     (forall u t, currentUser w0 = Some u -> idp E (trace w0) u = Ok t ->
        authToken w1 = Some t) /\
     ((forall u t, currentUser w0 = Some u -> idp E (trace w0) u <> Ok t) ->
        authToken w1 = authToken w0)).
Proof.
  intro ws. split; [|split].
  - exists (nextTimer w). subst ws. rewrite setupTokenRefresh_eq. simpl.
    repeat apply conj; [reflexivity | apply lookup_insert_eq | reflexivity |].
    unfold fire, bind, gets. simpl. rewrite lookup_insert_eq. reflexivity.
  - intro Hinv. pose proof Hinv as (Hn & Hk & Hp & Hu & Hr & Ht).
    pose proof (timerInv_setupTokenRefresh w Hinv) as Hinv'. fold ws in Hinv'.
    assert (Hws : ws = snd (setupTokenRefresh w)) by reflexivity.
    rewrite setupTokenRefresh_eq in Hws. simpl in Hws.
    repeat apply conj.
    + intros h Hh. rewrite Hws. simpl. specialize (Ht h Hh).
      rewrite lookup_insert_ne by (specialize (Hk _ _ Ht); lia).
      rewrite Hh, (timerInv_truthy w h Hinv) by (right; exact Hh). simpl.
      apply lookup_delete_eq.
    + destruct Hinv' as (_ & _ & _ & _ & Hr' & Ht').
      assert (Hvar : tokenRefreshInterval ws = Some (nextTimer w)) by (rewrite Hws; reflexivity).
      unfold refreshTimers. apply map_eq. intro i. apply option_eq. intro t.
      rewrite map_lookup_filter_Some, lookup_singleton_Some. simpl. split.
      * intros [Hl Hc]. destruct (Hr' _ _ Hl Hc) as [-> Hi]. split; congruence.
      * intros [<- <-]. split; [apply Ht', Hvar | reflexivity].
    + apply pollTimers_setupTokenRefresh, Hinv.
  - intros w0 w1. subst w1. rewrite tokenRefreshTick_eq. simpl. rewrite getFreshToken_eq.
    destruct (currentUser w0) as [u|] eqn:Hu.
    2:{ repeat apply conj; try reflexivity; try (intros; congruence).
        unfold newEvents. rewrite drop_all. reflexivity. }
    assert (Hnew : forall w', trace w' = (trace w0 ++ [EvGetIdToken u])%list ->
                   fetches (newEvents w0 w') = []).
    { intros w' H. rewrite (newEvents_app _ _ _ H). reflexivity. }
    destruct (idp E (trace w0) u) as [t|e] eqn:Hi; simpl.
    + repeat apply conj; try reflexivity.
      * apply Hnew. reflexivity.
      * intros u' t' Hu' Ht'. inversion Hu'; subst u'. congruence.
      * intro H. destruct (H u t eq_refl Hi).
    + repeat apply conj; try reflexivity.
      * apply Hnew. reflexivity.
      * intros u' t' Hu' Ht'. inversion Hu'; subst u'. congruence.
Qed.

Lemma showNotification_eq msg type d w :
  toastPresent w = true ->
  showNotification msg type d w =
  (Ok tt,
   set_timers (<[nextTimer w := hideTimer d]> (timers w)) (S (nextTimer w))
     (set_dom
        (alter (add_class "show") "toast"
           (alter (set_prop "textContent" (VStr msg)) "toast .toast-message"
              (alter (set_prop "style.color" (VStr (colors type))) "toast .toast-icon"
                 (alter (set_classes ("toast-icon" :: icons type)) "toast .toast-icon"
                    (dom w))))) w)).
Proof.
  unfold toastPresent. intro H.
  apply andb_true_iff in H as [H H3]. apply andb_true_iff in H as [H1 H2].
  apply present_true in H1 as [t Ht]. apply present_true in H2 as [i Hi].
  apply present_true in H3 as [m Hm].
  unfold showNotification, updateOrThrow, update, setTimeout, setTimer.
  unfold bind, getElementById, gets, modify, ret.
  simpl. rewrite Ht. simpl. rewrite Hi. simpl.
  rewrite !lookup_alter_ne by done. rewrite Hm. reflexivity.
Qed.

Lemma elem_of_add_class c el : c ∈ classes (add_class c el).
Proof.
  unfold add_class. simpl. destruct (bool_decide (c ∈ classes el)) eqn:H.
  - apply bool_decide_eq_true in H. exact H.
  - apply elem_of_app. right. apply list_elem_of_singleton. reflexivity.
Qed.

Lemma not_elem_of_remove_class c el : c ∉ classes (remove_class c el).
Proof.
  unfold remove_class. simpl. intro H. apply list_elem_of_filter in H as [H _].
  apply H. reflexivity.
Qed.

(** X8.  On a page with the toast, [showNotification] never
    throws: it writes the message, shows the toast and registers a
    one-shot timer of the given duration under a fresh handle.  When the
    browser fires that timer the toast is hidden again, the message stays
    and the timer is gone from the table. *)
Theorem toast_shows_then_hides msg type d w :
  toastPresent w = true ->
  let w1 := snd (showNotification msg type d w) in
  let h := nextTimer w in
  let w2 := snd (fire E B h w1) in
  fst (showNotification msg type d w) = Ok tt /\
  ("show" ∈ classes_of (dom w1 !! "toast")) /\
  prop_of (dom w1 !! "toast .toast-message") "textContent" = VStr msg /\
  timers w1 !! h = Some (hideTimer d) /\
  fst (fire E B h w1) = Ok tt /\
  ("show" ∉ classes_of (dom w2 !! "toast")) /\
  prop_of (dom w2 !! "toast .toast-message") "textContent" = VStr msg /\
  timers w2 !! h = None.
Proof.
  intros Hp w1 h w2. subst w2 w1 h. rewrite (showNotification_eq msg type d w Hp).
  unfold toastPresent in Hp.
  apply andb_true_iff in Hp as [Hp H3]. apply andb_true_iff in Hp as [H1 H2].
  apply present_true in H1 as [t Ht]. apply present_true in H3 as [m Hm].
  simpl fst. simpl snd.
  match goal with |- context [fire E B ?h ?w0] => set (w1 := w0) end.
  assert (Htoast : dom w1 !! "toast" = Some (add_class "show" t)).
  { subst w1. simpl. rewrite lookup_alter_eq, !lookup_alter_ne, Ht by done. reflexivity. }
  assert (Hmsg : dom w1 !! "toast .toast-message" =
                 Some (set_prop "textContent" (VStr msg) m)).
  { subst w1. simpl. rewrite lookup_alter_ne, lookup_alter_eq, !lookup_alter_ne, Hm by done.
    reflexivity. }
  assert (Htimer : timers w1 !! nextTimer w = Some (hideTimer d)).
  { subst w1. simpl. apply lookup_insert_eq. }
  assert (Hfire : fire E B (nextTimer w) w1 =
            (Ok tt,
             set_dom (alter (remove_class "show") "toast" (dom w1))
               (set_timers (delete (nextTimer w) (timers w1)) (nextTimer w1) w1))).
  { unfold fire, bind, gets. rewrite Htimer. reflexivity. }
  clearbody w1. rewrite Hfire. simpl fst. simpl snd. simpl dom. simpl timers.
  rewrite Htoast, Hmsg, Htimer.
  rewrite lookup_alter_eq, lookup_alter_ne, Htoast, Hmsg, lookup_delete_eq by done.
  simpl. rewrite lookup_insert_eq.
  repeat apply conj; try reflexivity.
  - exact (elem_of_add_class "show" t).
  - exact (not_elem_of_remove_class "show" (add_class "show" t)).
Qed.

End Refresher.


(** ** More on the renderers *)

Section RenderersMore.
Variable E : Env.
Variable B : Builtins.

Lemma Qle_bool_false x y : Qle_bool x y = false <-> (y < x)%Q.
Proof.
  split.
  - intro H. apply Qnot_le_lt. intro Hle. apply Qle_bool_iff in Hle. congruence.
  - intro H. destruct (Qle_bool x y) eqn:Hb; [|reflexivity].
    apply Qle_bool_iff in Hb. exfalso. exact (Qlt_not_le _ _ H Hb).
Qed.

Lemma num_or_zero_cases n :
  (n = NaN \/ (exists q, n = Fin q /\ (q == 0)%Q)) /\ num_or_zero n = num_of_Z 0 \/
  (exists q, n = Fin q /\ ~ (q == 0)%Q /\ num_or_zero n = Fin q).
Proof.
  unfold num_or_zero. destruct n as [|q]; simpl.
  - left. auto.
  - destruct (Qeq_bool q 0) eqn:Hq; simpl.
    + left. split; [|reflexivity]. right. exists q. split; [reflexivity|].
      apply Qeq_bool_iff, Hq.
    + right. exists q. repeat split. intro H. apply Qeq_bool_iff in H. congruence.
Qed.

(** X10.  The two formatters never print NaN: an amount that
    [parseFloat] cannot read, and zero, are printed as the number 0; any
    other amount is printed as parsed.  [formatPercentage] puts '+' before
    a value that is zero or more (an unreadable one included) and nothing
    before a negative one, whose minus sign comes from the digits. *)
Theorem formatters_never_nan v currency :
  (parseFloat B v = NaN \/ (exists q, parseFloat B v = Fin q /\ (q == 0)%Q) ->
   formatCurrency B v currency = toLocaleTR B (num_of_Z 0) ++ " " ++ currency /\
   formatPercentage B v = "+" ++ toFixed2 B (num_of_Z 0) ++ "%") /\
  (forall q, parseFloat B v = Fin q -> ~ (q == 0)%Q ->
     formatCurrency B v currency = toLocaleTR B (Fin q) ++ " " ++ currency /\
     ((0 < q)%Q -> formatPercentage B v = "+" ++ toFixed2 B (Fin q) ++ "%") /\
     ((q < 0)%Q -> formatPercentage B v = toFixed2 B (Fin q) ++ "%")).
Proof.
  unfold formatCurrency, formatPercentage. cbv zeta.
  destruct (num_or_zero_cases (parseFloat B v)) as [[Hz ->]|[q [Hq [Hnz ->]]]].
  - split.
    + intros _. split; reflexivity.
    + intros q Hq Hnz. exfalso. destruct Hz as [Hz|[q' [Hz Hz']]]; [congruence|].
      rewrite Hq in Hz. inversion Hz; subst q'. contradiction.
  - split.
    + intros [Hz|[q' [Hz Hz']]]; [congruence|].
      rewrite Hq in Hz. inversion Hz; subst q'. contradiction.
    + intros q' Hq' _. rewrite Hq in Hq'. inversion Hq'; subst q'.
      split; [reflexivity|]. split.
      * intro Hpos. unfold num_ge, num_le, num_of_Z.
        assert (Hb : Qle_bool (inject_Z 0) q = true).
        { apply Qle_bool_iff. apply Qlt_le_weak. exact Hpos. }
        rewrite Hb. reflexivity.
      * intro Hneg. unfold num_ge, num_le, num_of_Z.
        assert (Hb : Qle_bool (inject_Z 0) q = false).
        { apply Qle_bool_false. exact Hneg. }
        rewrite Hb. reflexivity.
Qed.

Lemma bind_get_obj {C} fields k (cont : jsval -> M C) w :
  bind (get (VObj fields) k) cont w = cont (assoc k fields) w.
Proof. reflexivity. Qed.

Lemma when_true m : when true m = m.
Proof. reflexivity. Qed.

Lemma updateProfile_subscription fields sfields w dr note :
  assoc "subscription" fields = VObj sfields ->
  dom w !! "days-remaining" = Some dr ->
  dom w !! "subscription-note" = Some note ->
  let daysLeft := or (assoc "daysRemaining" sfields) (VNum (num_of_Z 0)) in
  let left := to_number B daysLeft in
  let w' := snd (updateProfile B (VObj fields) w) in
  prop_of (dom w' !! "days-remaining") "textContent" =
    VStr (if num_gt left (num_of_Z 0)
          then to_string B daysLeft ++ " gün kaldı" else "Süresi dolmuş") /\
  prop_of (dom w' !! "subscription-note") "textContent" =
    VStr (if num_le left (num_of_Z 7) && num_gt left (num_of_Z 0)
          then "Aboneliğiniz yakında sona erecek. Yenilemeyi unutmayın!"
          else if num_le left (num_of_Z 0)
               then "Abonelik süresi dolmuş. Lütfen yenileyin."
               else "Aboneliğiniz aktif durumda.") /\
  prop_of (dom w' !! "subscription-note") "style.color" =
    VStr (if num_le left (num_of_Z 7) && num_gt left (num_of_Z 0)
          then "var(--warning-color)"
          else if num_le left (num_of_Z 0)
               then "var(--danger-color)" else "var(--success-color)").
Proof.
  intros Hsub Hdr Hnote. cbv zeta. unfold updateProfile.
  set (f := fun w : world => (dom w !! "days-remaining", dom w !! "subscription-note")).
  bind_inv_with f; [subst f; keeps_auto | safe_auto | intros _ w1 H1].
  rewrite bind_get_obj, Hsub. change (truthy (VObj sfields)) with true.
  rewrite when_true.
  do 2 (bind_inv_with f; [subst f; keeps_auto | safe_auto |];
        let w2 := fresh "w" in let H2 := fresh "H" in
        intros _ w2 H2; rewrite H1 in H2; clear w1 H1; rename w2 into w1, H2 into H1).
  subst f. simpl in H1. inversion H1 as [[H1d H1n]]. clear H1.
  rewrite Hdr in H1d. rewrite Hnote in H1n.
  unfold ifPresent, bind, getElementById, gets, get, update, modify, ret.
  with_strategy opaque [num_le num_gt to_number or] simpl.
  rewrite H1d.
  with_strategy opaque [num_le num_gt to_number or] simpl.
  rewrite lookup_alter_ne, H1n by done.
  set (left := to_number B (or (assoc "daysRemaining" sfields) (VNum (num_of_Z 0)))).
  set (c1 := num_le left (num_of_Z 7)). set (c2 := num_gt left (num_of_Z 0)).
  set (c3 := num_le left (num_of_Z 0)). clearbody c1 c2 c3.
  destruct c1, c2, c3; simpl;
    repeat first
      [ rewrite lookup_alter_eq | rewrite lookup_alter_ne by done
      | rewrite H1d | rewrite H1n
      | rewrite lookup_insert_eq | rewrite lookup_insert_ne by done
      | progress simpl ];
    auto.
Qed.

Lemma daysLeft_thresholds q :
  let daysLeft := or (VNum (Fin q)) (VNum (num_of_Z 0)) in
  let left := to_number B daysLeft in
  ((7 < q)%Q ->
   daysLeft = VNum (Fin q) /\ num_le left (num_of_Z 7) = false /\
   num_gt left (num_of_Z 0) = true /\ num_le left (num_of_Z 0) = false) /\
  ((0 < q)%Q -> (q <= 7)%Q ->
   daysLeft = VNum (Fin q) /\ num_le left (num_of_Z 7) = true /\
   num_gt left (num_of_Z 0) = true) /\
  ((q <= 0)%Q -> num_gt left (num_of_Z 0) = false /\ num_le left (num_of_Z 0) = true).
Proof.
  cbv zeta. unfold or, truthy, num_is_zero.
  destruct (Qeq_bool q 0) eqn:Hz; simpl.
  - apply Qeq_bool_iff in Hz. repeat apply conj.
    + intro H. rewrite Hz in H. discriminate H.
    + intro H. rewrite Hz in H. discriminate H.
    + intros _. split; reflexivity.
  - assert (Hnz : ~ (q == 0)%Q).
    { intro H. apply Qeq_bool_iff in H. congruence. }
    unfold num_gt, num_lt, num_le, num_of_Z. repeat apply conj.
    + intro H. assert (H0 : (0 < q)%Q) by (eapply Qlt_trans; [|exact H]; reflexivity).
      repeat apply conj; [reflexivity | | |].
      * apply Qle_bool_false. exact H.
      * apply negb_true_iff, Qle_bool_false. exact H0.
      * apply Qle_bool_false. exact H0.
    + intros H0 H7. repeat apply conj; [reflexivity | |].
      * apply Qle_bool_iff. exact H7.
      * apply negb_true_iff, Qle_bool_false. exact H0.
    + intros H0. assert (Hb : Qle_bool q (inject_Z 0) = true) by (apply Qle_bool_iff; exact H0).
      rewrite Hb. split; reflexivity.
Qed.

(** X11.  For a profile with a subscription, on a page that
    has the two elements: more than 7 days left give the 'active' note in
    the success colour and '<n> gün kaldı'; 1 to 7 days (any number above
    0 and up to 7) give the 'ends soon' note in the warning colour; 0 days
    or fewer, and a subscription without [daysRemaining], give the
    'expired' note in the danger colour and 'Süresi dolmuş'. *)
Theorem subscription_note_thresholds fields sfields w dr note :
  assoc "subscription" fields = VObj sfields ->
  dom w !! "days-remaining" = Some dr ->
  dom w !! "subscription-note" = Some note ->
  let w' := snd (updateProfile B (VObj fields) w) in
  let days := prop_of (dom w' !! "days-remaining") "textContent" in
  let text := prop_of (dom w' !! "subscription-note") "textContent" in
  let color := prop_of (dom w' !! "subscription-note") "style.color" in
  (forall q, assoc "daysRemaining" sfields = VNum (Fin q) ->
     ((7 < q)%Q ->
      days = VStr (numToString B (Fin q) ++ " gün kaldı") /\
      text = VStr "Aboneliğiniz aktif durumda." /\
      color = VStr "var(--success-color)") /\
     ((0 < q)%Q -> (q <= 7)%Q ->
      days = VStr (numToString B (Fin q) ++ " gün kaldı") /\
      text = VStr "Aboneliğiniz yakında sona erecek. Yenilemeyi unutmayın!" /\
      color = VStr "var(--warning-color)") /\
     ((q <= 0)%Q ->
      days = VStr "Süresi dolmuş" /\
      text = VStr "Abonelik süresi dolmuş. Lütfen yenileyin." /\
      color = VStr "var(--danger-color)")) /\
  (assoc "daysRemaining" sfields = VUndef ->
   days = VStr "Süresi dolmuş" /\
   text = VStr "Abonelik süresi dolmuş. Lütfen yenileyin." /\
   color = VStr "var(--danger-color)").
Proof.
  intros Hsub Hdr Hnote w' days text color. subst days text color w'.
  destruct (updateProfile_subscription fields sfields w dr note Hsub Hdr Hnote)
    as (Hd & Ht & Hc).
  rewrite Hd, Ht, Hc. clear Hd Ht Hc. split.
  - intros q Hq. rewrite Hq.
    destruct (daysLeft_thresholds q) as (Hhi & Hmid & Hlo). repeat apply conj.
    + intro H. destruct (Hhi H) as (-> & -> & -> & ->). auto.
    + intros H0 H7. destruct (Hmid H0 H7) as (-> & -> & ->). auto.
    + intro H. destruct (Hlo H) as (-> & ->). rewrite andb_false_r. auto.
  - intros ->. repeat apply conj; reflexivity.
Qed.

End RenderersMore.

(** ** Failures end in a toast *)

(** Unfolds the functions of the script down to the primitives the
    [keeps] lemmas know. *)
Ltac keeps_page :=
  lazymatch goal with
  | |- keeps _ (makeAuthenticatedApiCall _ _ _) => apply keeps_call; reflexivity
  | |- keeps _ (getIdToken _ _) => apply keeps_getIdToken; reflexivity
  | |- keeps _ (await _) => apply keeps_await
  | |- keeps _ (botConfig _) => apply keeps_botConfig
  | |- keeps _ (showNotification _ _ _) => unfold showNotification
  | |- keeps _ (getBotStatus _) => unfold getBotStatus
  | |- keeps _ (loadAllDashboardData _ _) => unfold loadAllDashboardData
  | |- keeps _ (loadFallbackData _ _) => unfold loadFallbackData
  | |- keeps _ (loadPaymentAndServerInfo _ _) => unfold loadPaymentAndServerInfo
  | |- keeps _ (joinOf _ _ _) => unfold joinOf
  | |- keeps _ (setupEventListeners _) => unfold setupEventListeners, setupSmartRecommendations
  | |- keeps _ (updateStrategyInfo _ _) => unfold updateStrategyInfo
  | |- keeps _ (updateProfile _ _) => unfold updateProfile
  | |- keeps _ (updateAccount _ _) => unfold updateAccount
  | |- keeps _ (updatePositions _ _) => unfold updatePositions
  | |- keeps _ (positionItem _ _) => unfold positionItem
  | |- keeps _ (toLowerCaseOf _ _) => unfold toLowerCaseOf
  | |- keeps _ (replaceOf _ _ _ _) => unfold replaceOf
  | |- keeps _ (updateStats _ _) => unfold updateStats
  | |- keeps _ (updateApiStatus _) => unfold updateApiStatus
  | |- keeps _ loadTradingPairs_detached => unfold loadTradingPairs_detached
  | |- keeps _ startPeriodicUpdates => unfold startPeriodicUpdates
  | |- keeps _ stopPeriodicUpdates => unfold stopPeriodicUpdates
  | |- keeps _ setupTokenRefresh => unfold setupTokenRefresh
  | |- keeps _ _ => keeps_step
  end.

Section Handlers.
Variable E : Env.
Variable B : Builtins.

Lemma keeps_toast_loadAll : keeps toastPresent (loadAllDashboardData E B).
Proof. repeat keeps_page. Qed.

Lemma keeps_toast_getBotStatus : keeps toastPresent (getBotStatus E).
Proof. repeat keeps_page. Qed.

Lemma try_catch_ok (m : M unit) h w :
  keeps toastPresent m -> toastPresent w = true ->
  (forall e w1, toastPresent w1 = true -> fst (h e w1) = Ok tt) ->
  fst (try_catch m h w) = Ok tt.
Proof.
  intros Hk Hw Hh. unfold try_catch. specialize (Hk w).
  destruct (m w) as [[[]|e] w1]; simpl in *; [reflexivity|].
  apply Hh. rewrite Hk. exact Hw.
Qed.

Lemma bind_ok {A} (m : M unit) (k : unit -> M A) w a :
  fst (m w) = Ok tt -> fst (k tt (snd (m w))) = Ok a -> fst (bind m k w) = Ok a.
Proof.
  intros Hm Hk. unfold bind. destruct (m w) as [[[]|e] w1]; simpl in *; [exact Hk|].
  discriminate.
Qed.

Lemma ifPresent_updates_ok id (m : M unit) w : safe m -> fst (ifPresent id m w) = Ok tt.
Proof.
  intro Hs. destruct (safe_ifPresent id m Hs w) as [[] H]. exact H.
Qed.

Lemma loadFallbackData_ok w : fst (loadFallbackData E B w) = Ok tt.
Proof.
  unfold loadFallbackData, try_catch.
  match goal with |- context [let (_, _) := ?m w in _] => destruct (m w) as [[[]|e] w1] end;
    [reflexivity|].
  rewrite placeholders_eq. reflexivity.
Qed.

Lemma loadAllDashboardData_ok w :
  toastPresent w = true -> fst (loadAllDashboardData E B w) = Ok tt.
Proof.
  intro Hw. unfold loadAllDashboardData. apply try_catch_ok; [repeat keeps_page | exact Hw |].
  intros e w1 Hw1. apply bind_ok; [apply showNotification_ok, Hw1|].
  unfold try_catch. pose proof (loadFallbackData_ok (snd (showNotification
    "Dashboard verileri yüklenirken hata oluştu" "error" 5000 w1))) as H.
  destruct (loadFallbackData E B _) as [[[]|e0] w2]; [reflexivity | discriminate H].
Qed.

Lemma loadPaymentAndServerInfo_ok appInfo w :
  fst (loadPaymentAndServerInfo B appInfo w) = Ok tt.
Proof.
  unfold loadPaymentAndServerInfo, try_catch.
  match goal with |- context [let (_, _) := ?m w in _] => destruct (m w) as [[[]|e] w1] end;
    reflexivity.
Qed.

(** X12.  The status call, the degraded load, the payment-info
    load and the two timer callbacks never throw.  On a page with the
    toast neither do the dashboard load, starting and stopping the bot,
    closing a position, opening the API dialog, logging out and the
    auth-state listener: whatever fails inside them ends in a toast, in
    placeholders or in nothing at all. *)
Theorem handlers_never_throw w :
  (fst (getBotStatus E w) = Ok tt /\
   fst (loadFallbackData E B w) = Ok tt /\
   (forall appInfo, fst (loadPaymentAndServerInfo B appInfo w) = Ok tt) /\
   fst (pollTick E B w) = Ok tt /\
   fst (tokenRefreshTick E w) = Ok tt) /\
  (toastPresent w = true ->
   fst (loadAllDashboardData E B w) = Ok tt /\
   fst (startBot E B w) = Ok tt /\
   fst (stopBot E B w) = Ok tt /\
   (forall symbol positionSide, fst (closePosition E B symbol positionSide w) = Ok tt) /\
   fst (openApiModal E w) = Ok tt /\
   (forall signOut, exists r, fst (logout E signOut w) = Ok r) /\
   (forall u appInfo, exists r, fst (onAuthStateChanged E B u appInfo w) = Ok r)).
Proof.
  split.
  - repeat apply conj.
    + apply getBotStatus_ok.
    + apply loadFallbackData_ok.
    + intro. apply loadPaymentAndServerInfo_ok.
    + rewrite pollTick_eq. cbv zeta. destruct (_ =? 0); reflexivity.
    + rewrite tokenRefreshTick_eq. reflexivity.
  - intro Hw. repeat apply conj.
    + apply loadAllDashboardData_ok, Hw.
    + unfold startBot. apply try_catch_ok; [repeat keeps_page | exact Hw |].
      intros e w1 Hw1. apply bind_ok; [apply showNotification_ok, Hw1|].
      apply ifPresent_updates_ok. safe_auto.
    + unfold stopBot. apply try_catch_ok; [repeat keeps_page | exact Hw |].
      intros e w1 Hw1. apply bind_ok; [apply showNotification_ok, Hw1|].
      apply ifPresent_updates_ok. safe_auto.
    + intros symbol positionSide. unfold closePosition, bind at 1, gets at 1.
      destruct (negb _); [reflexivity|].
      apply try_catch_ok; [repeat keeps_page | exact Hw |].
      intros e w1 Hw1. apply showNotification_ok, Hw1.
    + unfold openApiModal, ifPresent at 1, bind at 1, getElementById at 1, gets at 1.
      destruct (dom w !! "api-modal") as [modal|]; [|reflexivity].
      repeat (apply bind_ok; [first [apply ifPresent_updates_ok; safe_auto | reflexivity]|]).
      apply try_catch_ok; [repeat keeps_page | |].
      * match goal with |- toastPresent (snd (?m ?w0)) = true =>
          transitivity (toastPresent w0); [generalize w0; change (keeps toastPresent m)|]
        end.
        -- repeat keeps_page.
        -- repeat match goal with |- toastPresent (snd (?m ?w0)) = true =>
             transitivity (toastPresent w0);
               [generalize w0; change (keeps toastPresent m); repeat keeps_page|]
           end.
           exact Hw.
      * intros e w1 Hw1. apply showNotification_ok, Hw1.
    + intro signOut. unfold logout, bind at 1, gets at 1.
      destruct (negb _); [eexists; reflexivity|].
      unfold try_catch.
      match goal with |- context [let (_, _) := ?m w in _] =>
        assert (Hk : toastPresent (snd (m w)) = true);
          [rewrite <- Hw; generalize w; change (keeps toastPresent m); repeat keeps_page|];
        destruct (m w) as [[r|e] w1]
      end; [eexists; reflexivity|].
      simpl in Hk.
      pose proof (showNotification_ok "Çıkış yapılırken hata oluştu" "error" 5000 w1 Hk) as Hn.
      unfold bind. destruct (showNotification _ _ _ w1) as [[[]|e0] w2]; [|discriminate Hn].
      eexists; reflexivity.
    + intros u appInfo. unfold onAuthStateChanged. destruct u as [u|].
      * unfold bind at 1, modify at 1.
        match goal with |- context [try_catch ?m ?h] =>
          assert (Hok : fst (try_catch m h (set_currentUser (Some u) w)) = Ok tt)
        end.
        { apply try_catch_ok; [repeat keeps_page | exact Hw |].
          intros e w1 Hw1. apply showNotification_ok, Hw1. }
        unfold bind. destruct (try_catch _ _ _) as [[[]|e] w1]; [|discriminate Hok].
        eexists; reflexivity.
      * unfold bind, gets, when, clearInterval, modify, ret.
        destruct (handle_truthy (tokenRefreshInterval w)); eexists; reflexivity.
Qed.

Lemma get_pure v k w : snd (get v k w) = w.
Proof.
  unfold get. destruct v; try reflexivity; destruct (String.eqb k "length"); reflexivity.
Qed.

Lemma updateProfile_nullish p w :
  nullish p = true -> exists m, updateProfile B p w = (Throw (TypeError m), w).
Proof.
  intro Hp. unfold updateProfile, ifPresent, bind, getElementById, gets.
  destruct (dom w !! "user-name"); destruct p; try discriminate Hp;
    simpl; eexists; reflexivity.
Qed.

(** X13.  A 2xx answer to the aggregate request whose body has no
    profile (an object without one, a body sent as text, [null]) is
    handled as a failed request is: nothing of it is rendered, the error
    toast is shown and the degraded load runs. *)
Theorem payload_without_profile w data w1 :
  toastPresent w = true ->
  makeAuthenticatedApiCall E "/api/user/dashboard-data" no_options w = (Ok data, w1) ->
  (forall p, fst (get data "profile" w1) = Ok p -> nullish p = true) ->
  loadAllDashboardData E B w =
    (Ok tt,
     snd (loadFallbackData E B
            (snd (showNotification "Dashboard verileri yüklenirken hata oluştu"
                    "error" 5000 w1)))).
Proof.
  intros Hw Hcall Hprofile.
  assert (Hw1 : toastPresent w1 = true).
  { rewrite <- Hw. change w1 with (snd (Ok data, w1)). rewrite <- Hcall.
    apply keeps_toast_call. }
  assert (Hhandler :
    (showNotification "Dashboard verileri yüklenirken hata oluştu" "error" 5000 ;;
     try_catch (loadFallbackData E B) (fun _ => ret tt)) w1 =
    (Ok tt,
     snd (loadFallbackData E B
            (snd (showNotification "Dashboard verileri yüklenirken hata oluştu"
                    "error" 5000 w1))))).
  { unfold bind.
    pose proof (showNotification_ok "Dashboard verileri yüklenirken hata oluştu"
                  "error" 5000 w1 Hw1) as Hn.
    destruct (showNotification _ _ _ w1) as [[[]|e0] w2]; [|discriminate Hn].
    simpl snd. unfold try_catch. pose proof (loadFallbackData_ok w2) as Hf.
    destruct (loadFallbackData E B w2) as [[[]|e0] w3]; [reflexivity | discriminate Hf]. }
  unfold loadAllDashboardData, try_catch. unfold bind at 1. rewrite Hcall.
  unfold bind at 1.
  pose proof (get_pure data "profile" w1) as Hpure.
  destruct (get data "profile" w1) as [[p|e] w1'] eqn:Hg; simpl in Hpure; subst w1'.
  - destruct (updateProfile_nullish p w1 (Hprofile p eq_refl)) as [m Hm].
    unfold bind at 1. rewrite Hm. exact Hhandler.
  - exact Hhandler.
Qed.

End Handlers.

(** ** What the renderers write *)

Section Written.
Variable E : Env.
Variable B : Builtins.

Lemma updateAccount_pnl afields w el :
  dom w !! "total-pnl" = Some el ->
  let v := or (assoc "unrealizedPnl" afields) (VNum (num_of_Z 0)) in
  fst (updateAccount B (VObj afields) w) = Ok tt /\
  dom (snd (updateAccount B (VObj afields) w)) !! "total-pnl" =
    Some (set_prop "style.color" (VStr (pnlColor (parseFloat B v)))
            (set_prop "textContent" (VStr (formatCurrency B v "USDT")) el)).
Proof.
  intros Hel. cbv zeta. split.
  - assert (Hs : safe (updateAccount B (VObj afields))).
    { unfold updateAccount. safe_auto. }
    destruct (Hs w) as [[] H]. exact H.
  - unfold updateAccount.
    bind_inv_with (fun w : world => dom w !! "total-pnl");
      [keeps_auto | safe_auto | intros _ w1 H1].
    rewrite Hel in H1.
    unfold ifPresent, bind, getElementById, gets, get, update, modify, ret.
    simpl. rewrite H1. simpl. rewrite !lookup_alter_eq, H1. reflexivity.
Qed.

Lemma updateStats_pnl sfields w el :
  dom w !! "total-pnl" = Some el ->
  let v := or (assoc "totalPnl" sfields) (VNum (num_of_Z 0)) in
  fst (updateStats B (VObj sfields) w) = Ok tt /\
  dom (snd (updateStats B (VObj sfields) w)) !! "total-pnl" =
    Some (set_prop "style.color" (VStr (pnlColor (parseFloat B v)))
            (set_prop "textContent" (VStr (formatCurrency B v "USDT")) el)).
Proof.
  intros Hel. cbv zeta. split.
  - assert (Hs : safe (updateStats B (VObj sfields))).
    { unfold updateStats. safe_auto. }
    destruct (Hs w) as [[] H]. exact H.
  - unfold updateStats.
    bind_inv_with (fun w : world => dom w !! "total-pnl");
      [keeps_auto | safe_auto | intros _ w1 H1].
    bind_inv_with (fun w : world => dom w !! "total-pnl");
      [keeps_auto | safe_auto | intros _ w2 H2].
    rewrite H1, Hel in H2.
    unfold ifPresent, bind, getElementById, gets, get, update, modify, ret.
    simpl. rewrite H2. simpl. rewrite !lookup_alter_eq, H2. reflexivity.
Qed.

(** X14.  The account view and the statistics view write the same
    element, [total-pnl].  After the account is rendered it shows the
    account's unrealized P&L; once the statistics are rendered after it,
    as [loadAllDashboardData] does, it shows the statistics' total P&L,
    coloured by its sign, and the account's figure is gone. *)
Theorem stats_overwrite_account_pnl afields sfields w el :
  dom w !! "total-pnl" = Some el ->
  let shown v := VStr (formatCurrency B (or v (VNum (num_of_Z 0))) "USDT") in
  let wa := snd (updateAccount B (VObj afields) w) in
  let both := (updateAccount B (VObj afields) ;; updateStats B (VObj sfields)) w in
  prop_of (dom wa !! "total-pnl") "textContent" = shown (assoc "unrealizedPnl" afields) /\
  fst both = Ok tt /\
  prop_of (dom (snd both) !! "total-pnl") "textContent" = shown (assoc "totalPnl" sfields) /\
  prop_of (dom (snd both) !! "total-pnl") "style.color" =
    VStr (pnlColor (parseFloat B (or (assoc "totalPnl" sfields) (VNum (num_of_Z 0))))).
Proof.
  intros Hel shown wa both. subst shown wa both.
  destruct (updateAccount_pnl afields w el Hel) as [Ha1 Ha2].
  split.
  { rewrite Ha2. simpl. rewrite lookup_insert_ne by done. rewrite lookup_insert_eq.
    reflexivity. }
  unfold bind. destruct (updateAccount B (VObj afields) w) as [[[]|e] wa]; [|discriminate Ha1].
  simpl in Ha2.
  destruct (updateStats_pnl sfields wa _ Ha2) as [Hs1 Hs2].
  rewrite Hs1, Hs2. simpl. rewrite lookup_insert_eq.
  rewrite lookup_insert_ne by done. rewrite lookup_insert_eq. auto.
Qed.


Lemma safe_fst (m : M unit) w : safe m -> fst (m w) = Ok tt.
Proof. intro Hs. destruct (Hs w) as [[] H]. exact H. Qed.


Lemma positionItem_pure p w : snd (positionItem B p w) = w.
Proof.
  generalize w. change (keeps (fun w : world => w) (positionItem B p)).
  unfold positionItem, toLowerCaseOf, replaceOf. keeps_auto.
Qed.

Lemma mapM_throws items :
  Exists (fun p => forall w, exists e, fst (positionItem B p w) = Throw e) items ->
  forall w, exists e, mapM (positionItem B) items w = (Throw e, w).
Proof.
  induction 1 as [p ps Hp|p ps _ IH]; intro w; simpl; unfold bind.
  - destruct (Hp w) as [e He]. pose proof (positionItem_pure p w) as Hw.
    destruct (positionItem B p w) as [r w1]. simpl in *. subst r w1. eauto.
  - pose proof (positionItem_pure p w) as Hw.
    destruct (positionItem B p w) as [[h|e] w1]; simpl in Hw; subst w1; [|eauto].
    destruct (IH w) as [e He]. rewrite He. eauto.
Qed.

Lemma string_length_not_zero s :
  s <> "" -> is_zero (VNum (num_of_Z (Z.of_nat (String.length s)))) = false.
Proof.
  intro Hs. destruct s as [|c s]; [congruence|].
  unfold is_zero, num_is_zero, num_of_Z, Qeq_bool, inject_Z. simpl Qnum. simpl Qden.
  apply Z.eqb_neq. simpl String.length. lia.
Qed.

(** X16.  On a page with the positions container: one position
    the item template cannot render ([null], or an object whose
    [positionSide] is not a string) makes the whole rendering throw, and
    the container keeps the content it had; so does a value that is
    neither empty nor a list (text, a number, an object whose [length] is
    not 0), with 'positions.map is not a function'. *)
Theorem positions_malformed w container :
  dom w !! "positions-container" = Some container ->
  (forall p, nullish p = true \/
             (exists fields, p = VObj fields /\
                forall s, assoc "positionSide" fields <> VStr s) ->
     forall w0, exists e, fst (positionItem B p w0) = Throw e) /\
  (forall items,
     Exists (fun p => forall w0, exists e, fst (positionItem B p w0) = Throw e) items ->
     exists e, updatePositions B (VArr items) w = (Throw e, w)) /\
  (forall positions,
     truthy positions = true -> (forall items, positions <> VArr items) ->
     (forall fields, positions = VObj fields -> is_zero (assoc "length" fields) = false) ->
     updatePositions B positions w =
       (Throw (TypeError "positions.map is not a function"), w)).
Proof.
  intro Hc. split; [|split].
  - intros p [Hp|(fields & -> & Hside)] w0.
    + unfold positionItem, bind. destruct p; try discriminate Hp; simpl; eauto.
    + unfold positionItem. rewrite bind_get_obj. cbv beta. rewrite bind_get_obj. cbv beta.
      unfold bind at 1, toLowerCaseOf.
      destruct (assoc "positionSide" fields) as [| | | |s| |] eqn:Hs; simpl; eauto.
      exfalso. exact (Hside s eq_refl).
  - intros items Hex.
    assert (Hne : exists p ps, items = p :: ps).
    { destruct Hex; eauto. }
    destruct Hne as (p & ps & ->).
    destruct (mapM_throws _ Hex w) as [e He]. exists e.
    unfold updatePositions, bind at 1, getElementById, gets. simpl fst. rewrite Hc.
    unfold bind at 1. unfold get. simpl (String.eqb _ _). cbv iota.
    change (truthy (VArr (p :: ps))) with true. unfold ret at 1. cbv iota beta.
    rewrite length_not_zero. simpl (negb true || false). cbv iota.
    unfold bind. rewrite He. reflexivity.
  - intros positions Ht Hna Hlen.
    unfold updatePositions, bind at 1, getElementById, gets. simpl fst. rewrite Hc.
    rewrite Ht. simpl negb. cbv iota.
    destruct positions as [| |b|n|s|items|fields]; try discriminate Ht.
    + reflexivity.
    + reflexivity.
    + unfold bind, get, ret. simpl (String.eqb _ _). cbv iota beta.
      rewrite string_length_not_zero; [reflexivity|].
      intros ->. discriminate Ht.
    + exfalso. exact (Hna items eq_refl).
    + rewrite bind_get_obj. cbv beta. rewrite (Hlen fields eq_refl). reflexivity.
Qed.

End Written.

(** ** Status and actions *)

Section StatusMore.
Variable E : Env.
Variable B : Builtins.

Lemma safe_get v k : nullish v = false -> safe (get v k).
Proof.
  intros Hv w. unfold get.
  destruct v; try discriminate Hv; try (eexists; reflexivity);
    destruct (String.eqb k "length"); eexists; reflexivity.
Qed.

Lemma safe_getOpt v k : safe (getOpt v k).
Proof.
  unfold getOpt. destruct (nullish v) eqn:Hv; [apply safe_ret | apply safe_get, Hv].
Qed.

Lemma truthy_not_nullish v : truthy v = true -> nullish v = false.
Proof. destruct v; try reflexivity; discriminate. Qed.

Lemma reportsRunning_eq response w :
  nullish response = false ->
  exists st r,
    get response "status" w = (Ok st, w) /\
    (if truthy st then get st "is_running" else ret VUndef) w = (Ok r, w) /\
    truthy st && truthy r = reportsRunning response.
Proof.
  intro Hr. destruct response as [| |b|n|s|items|fields]; try discriminate Hr;
    try (exists VUndef, VUndef; repeat split; reflexivity).
  unfold reportsRunning.
  change (get (VObj fields) "status" w) with (Ok (assoc "status" fields), w).
  destruct (assoc "status" fields) as [| |b|n|s|items|sfields].
  7:{ exists (VObj sfields), (assoc "is_running" sfields). repeat split; reflexivity. }
  all: eexists; exists VUndef; repeat split; try reflexivity.
  all: try (destruct (truthy _); reflexivity).
  all: rewrite andb_false_r; reflexivity.
Qed.

Lemma try_catch_bind {A C} (m : M A) (k : A -> M C) h w a w1 :
  m w = (Ok a, w1) -> try_catch (bind m k) h w = try_catch (k a) h w1.
Proof. intro H. unfold try_catch, bind. rewrite H. reflexivity. Qed.

Lemma try_catch_ret_snd (m : M unit) w :
  snd (try_catch m (fun _ => ret tt) w) = snd (m w).
Proof. unfold try_catch. destruct (m w) as [[[]|e] w1]; reflexivity. Qed.

(** Past the first three steps of either branch of [getBotStatus], the two
    buttons are written. *)
Ltac buttons_chain side :=
  do 3 (bind_inv_with (fun w : world => (dom w !! "start-bot-btn", dom w !! "stop-bot-btn"));
        [ keeps_auto
        | repeat first [side | safe_step]
        | let H := fresh in
          let Ha := fresh in
          let Hb := fresh in
          intros _ ? H; simpl in H; inversion H as [[Ha Hb]];
          match goal with
          | Hstart : dom _ !! "start-bot-btn" = Some _,
            Hstop : dom _ !! "stop-bot-btn" = Some _ |- _ =>
              rewrite <- Ha in Hstart; rewrite <- Hb in Hstop
          end;
          clear H Ha Hb ]);
  unfold ifPresent, bind, getElementById, gets, update, modify, ret; simpl;
  match goal with
  | Hstart : dom _ !! "start-bot-btn" = Some _,
    Hstop : dom _ !! "stop-bot-btn" = Some _ |- _ =>
      rewrite Hstart; simpl; rewrite lookup_alter_ne, Hstop by done; simpl;
      repeat first
        [ rewrite lookup_alter_eq | rewrite lookup_alter_ne by done
        | rewrite Hstart | rewrite Hstop
        | rewrite lookup_insert_eq | progress simpl ];
      reflexivity
  end.

Ltac text_chain :=
  bind_inv_with (fun w : world => dom w !! "status-text"); [keeps_auto | safe_auto |];
  let H := fresh in
  intros _ ? H;
  match goal with
  | Hel : dom _ !! "status-text" = Some _ |- _ => rewrite <- H in Hel
  end;
  rewrite (bind_keeps_snd (fun w : world => dom w !! "status-text"))
    by (intro; keeps_auto);
  unfold ifPresent, bind, getElementById, gets, update, modify, ret; simpl;
  match goal with
  | Hel : dom _ !! "status-text" = Some _ |- _ =>
      rewrite Hel; simpl; rewrite lookup_alter_eq, Hel; simpl;
      rewrite lookup_insert_eq; reflexivity
  end.

(** X17.  When the status call fails, [getBotStatus] swallows the
    failure and the document is as it was.  When it answers, the two
    buttons are set against each other: the start button is disabled
    exactly when the answer says that the bot runs, and the stop button
    exactly when it does not; the status text says 'Çalışıyor' or
    'Durduruldu' accordingly. *)
Theorem status_buttons_complementary w :
  (forall e w1,
     makeAuthenticatedApiCall E "/api/bot/status" no_options w = (Throw e, w1) ->
     getBotStatus E w = (Ok tt, w1) /\ dom w1 = dom w) /\
  (forall response w1 start stop,
     makeAuthenticatedApiCall E "/api/bot/status" no_options w = (Ok response, w1) ->
     nullish response = false ->
     dom w !! "start-bot-btn" = Some start ->
     dom w !! "stop-bot-btn" = Some stop ->
     let w' := snd (getBotStatus E w) in
     let running := reportsRunning response in
     prop_of (dom w' !! "start-bot-btn") "disabled" = VBool running /\
     prop_of (dom w' !! "stop-bot-btn") "disabled" = VBool (negb running) /\
     (forall el, dom w !! "status-text" = Some el ->
        prop_of (dom w' !! "status-text") "textContent" =
          VStr (if running then "Çalışıyor" else "Durduruldu"))).
Proof.
  split.
  - intros e w1 Hcall. split.
    + unfold getBotStatus, try_catch, bind. rewrite Hcall. reflexivity.
    + change w1 with (snd (@Throw jsval e, w1)). rewrite <- Hcall.
      apply (keeps_call E dom); reflexivity.
  - intros response w1 start stop Hcall Hr Hstart Hstop w' running. subst w' running.
    assert (Hdom : dom w1 = dom w).
    { change w1 with (snd (Ok response, w1)). rewrite <- Hcall.
      apply (keeps_call E dom); reflexivity. }
    rewrite <- Hdom in Hstart, Hstop.
    assert (Htext : forall el, dom w !! "status-text" = Some el ->
                               dom w1 !! "status-text" = Some el).
    { intros el H. rewrite Hdom. exact H. }
    clear Hdom.
    destruct (reportsRunning_eq response w1 Hr) as (st & r & Hst & Hrun & <-).
    unfold getBotStatus.
    rewrite (try_catch_bind _ _ _ _ _ _ Hcall). cbv beta.
    rewrite (try_catch_bind _ _ _ _ _ _ Hst). cbv beta.
    rewrite (try_catch_bind _ _ _ _ _ _ Hrun). cbv beta.
    rewrite try_catch_ret_snd.
    assert (Hsafe : forall (C : Type) (cont : jsval -> M C),
              (forall x, safe (cont x)) -> safe (bind (get response "status") cont)).
    { intros C cont Hc. apply safe_bind; [apply safe_get, Hr | exact Hc]. }
    destruct (truthy st && truthy r) eqn:Hrunning.
    + apply andb_true_iff in Hrunning as [Hts _].
      repeat apply conj.
      * buttons_chain ltac:(apply safe_get, truthy_not_nullish, Hts).
      * buttons_chain ltac:(apply safe_get, truthy_not_nullish, Hts).
      * intros el Hel. apply Htext in Hel. text_chain.
    + repeat apply conj.
      * buttons_chain ltac:(first [apply Hsafe; intro | apply safe_getOpt]).
      * buttons_chain ltac:(first [apply Hsafe; intro | apply safe_getOpt]).
      * intros el Hel. apply Htext in Hel. text_chain.
Qed.

End StatusMore.

(** [f] of the world after a chain of steps that keep [f]. *)
Ltac kept_by_chain :=
  repeat match goal with
  | |- ?f (snd (?m ?w0)) = _ =>
      transitivity (f w0); [generalize w0; change (keeps f m); solve [keeps_auto]|]
  end;
  reflexivity.

Ltac lookup_kept :=
  match goal with
  | |- dom (snd (?m ?w0)) !! ?id = _ =>
      generalize w0; change (keeps (fun w => dom w !! id) m); solve [keeps_auto]
  end.

Section ActionsMore.
Variable E : Env.
Variable B : Builtins.

(** The tail the three actions share: the call, then [response.success]
    decides between the success path and an error made of
    [response.message]. *)
Lemma respond_cases {C} (call : M jsval) (onSuccess : M C) (dflt : string) w :
  let tail :=
    (response <- call ;;
     success <- get response "success" ;;
     if truthy success then onSuccess
     else
       m <- get response "message" ;;
       throw (Error (to_string B (or m (VStr dflt))))) in
  let w0 := snd (call w) in
  (exists e, tail w = (Throw e, w0) /\
     (forall fields, fst (call w) = Ok (VObj fields) ->
        e = Error (to_string B (or (assoc "message" fields) (VStr dflt))))) \/
  ((exists response s, fst (call w) = Ok response /\
      fst (get response "success" w0) = Ok s /\ truthy s = true) /\
   tail w = onSuccess w0).
Proof.
  cbv zeta. unfold bind.
  destruct (call w) as [[response|e] w0]; simpl snd; simpl fst.
  2:{ left. exists e. split; [reflexivity | intros; discriminate]. }
  pose proof (get_pure response "success" w0) as Hp.
  destruct (get response "success" w0) as [[s|e] w0'] eqn:Hg; simpl in Hp; subst w0'.
  2:{ left. exists e. split; [reflexivity|]. intros fields Hf. inversion Hf; subst response.
      discriminate Hg. }
  destruct (truthy s) eqn:Hs.
  - right. split; [|reflexivity]. exists response, s. rewrite Hg. auto.
  - left. pose proof (get_pure response "message" w0) as Hp.
    destruct (get response "message" w0) as [[m|e] w0'] eqn:Hm; simpl in Hp; subst w0'.
    + eexists. split; [reflexivity|]. intros fields Hf. inversion Hf; subst response.
      inversion Hm. reflexivity.
    + exists e. split; [reflexivity|]. intros fields Hf. inversion Hf; subst response.
      discriminate Hm.
Qed.

Lemma pollTimers_held w h :
  timerInv w -> updateInterval w = Some h -> pollTimers w = {[h := pollTimer]}.
Proof.
  intros (Hn & Hk & Hp & Hu & Hr & Ht) Hh. unfold pollTimers.
  apply map_eq. intro i. apply option_eq. intro t.
  rewrite map_lookup_filter_Some, lookup_singleton_Some. simpl. split.
  - intros [Hl Hc]. destruct (Hp _ _ Hl Hc) as [-> Hi]. split; congruence.
  - intros [<- <-]. split; [apply Hu, Hh | reflexivity].
Qed.

Lemma pollTimers_none w : timerInv w -> updateInterval w = None -> pollTimers w = ∅.
Proof.
  intros (Hn & Hk & Hp & Hu & Hr & Ht) Hh. unfold pollTimers.
  apply map_empty. intro i. apply map_lookup_filter_None. right. intros t Hl Hc.
  simpl in Hc. destruct (Hp _ _ Hl Hc) as [_ Hi]. congruence.
Qed.

Lemma pollTimers_grow w w' :
  timerInv w -> timersGrow w w' -> pollTimers w' = pollTimers w.
Proof.
  intros Hinv Hg. pose proof (timerInv_grow w w' Hinv Hg) as Hinv'.
  destruct Hg as (_ & Gu & _).
  destruct (updateInterval w) as [h|] eqn:Hh.
  - rewrite (pollTimers_held w h Hinv Hh). apply pollTimers_held; [exact Hinv' | congruence].
  - rewrite (pollTimers_none w Hinv Hh). apply pollTimers_none; [exact Hinv' | congruence].
Qed.

Lemma bind_gets {A C} (g : world -> A) (k : A -> M C) w :
  bind (gets g) k w = k (g w) w.
Proof. reflexivity. Qed.

Lemma safe_eq (m : M unit) w : safe m -> m w = (Ok tt, snd (m w)).
Proof. intro Hs. pose proof (safe_fst m w Hs) as H. destruct (m w) as [r w1]. simpl in *. congruence. Qed.

Lemma bind_unit_eq {C} (m : M unit) (k : unit -> M C) w :
  fst (m w) = Ok tt -> bind m k w = k tt (snd (m w)).
Proof. intro H. unfold bind. destruct (m w) as [[[]|e] w1]; [reflexivity | discriminate H]. Qed.

Lemma toastText_shown msg type d w :
  toastPresent w = true -> toastText (snd (showNotification msg type d w)) = VStr msg.
Proof.
  intro Hp. rewrite (showNotification_eq msg type d w Hp).
  unfold toastPresent in Hp. apply andb_true_iff in Hp as [_ H3].
  apply present_true in H3 as [m Hm].
  unfold toastText. simpl.
  rewrite lookup_alter_ne, lookup_alter_eq, !lookup_alter_ne, Hm by done. simpl.
  rewrite lookup_insert_eq. reflexivity.
Qed.

(** X18.  Once the user has confirmed, on a page with the toast:
    every request [closePosition] sends for the closing itself is a POST
    to the close-position endpoint with the symbol and the side it was
    given.  When the call fails, or the answer's [success] is not truthy,
    the error toast 'Pozisyon kapatma hatası: ...' is shown, with the
    answer's [message] (or 'Pozisyon kapatılamadı' for want of one), and
    nothing is reloaded.  Otherwise the success toast is shown, then the
    dashboard is reloaded, then the bot's status. *)
Theorem close_position_outcomes symbol positionSide w :
  confirm E (trace w)
    (symbol ++ " " ++ positionSide ++
     " pozisyonunu kapatmak istediğinizden emin misiniz?") = true ->
  toastPresent w = true ->
  let request :=
    post (Some (VObj [("symbol", VStr symbol); ("positionSide", VStr positionSide)])) in
  let call := makeAuthenticatedApiCall E "/api/user/close-position" request in
  let w0 := snd (call w) in
  let result := closePosition E B symbol positionSide w in
  (forall r, EvFetch r ∈ newEvents w w0 ->
     req_endpoint r = "/api/user/close-position" /\ req_method r = Some "POST" /\
     req_body r = opt_body request) /\
  ((exists e,
      result =
        (Ok tt,
         snd (showNotification ("Pozisyon kapatma hatası: " ++ message_of e)
                "error" 5000 w0)) /\
      (forall fields, fst (call w) = Ok (VObj fields) ->
         e = Error (to_string B (or (assoc "message" fields)
                                    (VStr "Pozisyon kapatılamadı"))))) \/
   ((exists response s,
       fst (call w) = Ok response /\
       fst (get response "success" w0) = Ok s /\ truthy s = true) /\
    result =
      (Ok tt,
       snd (getBotStatus E
              (snd (loadAllDashboardData E B
                      (snd (showNotification "Pozisyon başarıyla kapatıldı!"
                              "success" 5000 w0)))))))).
Proof.
  intros Hconfirm Hw request call w0 result.
  assert (Hw0 : toastPresent w0 = true).
  { rewrite <- Hw. apply keeps_toast_call. }
  split.
  - intros r Hin.
    destruct (emits_call E "/api/user/close-position" request w) as [evs [Htr Hq]].
    change (snd (makeAuthenticatedApiCall E "/api/user/close-position" request w))
      with w0 in Htr.
    rewrite (newEvents_app _ _ _ Htr) in Hin.
    rewrite Forall_forall in Hq. exact (Hq _ Hin).
  - subst result. unfold closePosition. rewrite bind_gets. cbv beta. rewrite Hconfirm.
    cbn [negb]. unfold try_catch.
    destruct (respond_cases call
                (showNotification "Pozisyon başarıyla kapatıldı!" "success" 5000 ;;
                 loadAllDashboardData E B ;; getBotStatus E)
                "Pozisyon kapatılamadı" w) as [[e [Ht He]]|[Hs Ht]];
      fold w0 in Ht; subst call request; rewrite Ht.
    + left. exists e. split; [|exact He].
      pose proof (showNotification_ok ("Pozisyon kapatma hatası: " ++ message_of e)
                    "error" 5000 w0 Hw0) as Hn.
      destruct (showNotification _ _ _ w0) as [[[]|e0] w1]; [reflexivity | discriminate Hn].
    + right. split; [exact Hs|].
      rewrite bind_unit_eq by (apply showNotification_ok, Hw0).
      set (w1 := snd (showNotification _ _ _ w0)).
      assert (Hw1 : toastPresent w1 = true).
      { subst w1. rewrite <- Hw0. apply keeps_toast_showNotification. }
      rewrite bind_unit_eq by (apply loadAllDashboardData_ok, Hw1).
      pose proof (getBotStatus_ok E (snd (loadAllDashboardData E B w1))) as Hg.
      destruct (getBotStatus E _) as [[[]|e0] w3]; [reflexivity | discriminate Hg].
Qed.

Lemma timersGrow_chain w w1 w2 w3 :
  timerState w1 = timerState w -> timersGrow w1 w2 -> timerState w3 = timerState w2 ->
  timersGrow w w3.
Proof.
  intros H1 H2 H3.
  eapply timersGrow_trans; [apply timersGrow_of_state; exact H1|].
  eapply timersGrow_trans; [exact H2 | apply timersGrow_of_state; exact H3].
Qed.

(** X19.  On a page with the toast whose timer table is as the
    script keeps it, [startBot] ends in one of two ways.  Either the error
    toast 'Bot başlatma hatası: ...' is shown, the status poller is as it
    was and the start button is enabled again; or the success toast is
    shown and exactly one status poller is live, a new one, the one that
    ran before having been cancelled. *)
Theorem start_bot_outcomes w :
  timerInv w -> toastPresent w = true ->
  let w' := snd (startBot E B w) in
  (exists e,
     toastText w' = VStr ("Bot başlatma hatası: " ++ message_of e) /\
     updateInterval w' = updateInterval w /\ pollTimers w' = pollTimers w /\
     (forall el, dom w !! "start-bot-btn" = Some el ->
        prop_of (dom w' !! "start-bot-btn") "disabled" = VBool false)) \/
  (exists h,
     toastText w' = VStr "Bot başarıyla başlatıldı!" /\
     updateInterval w' = Some h /\ pollTimers w' = {[h := pollTimer]} /\
     (forall h0, updateInterval w = Some h0 -> h <> h0 /\ timers w' !! h0 = None)).
Proof.
  intros Hinv Hw w'.
  assert (Hw' : w' = snd (startBot E B w)) by reflexivity. clearbody w'.
  unfold startBot in Hw'.
  erewrite try_catch_bind in Hw' by (apply safe_eq; safe_auto). cbv beta in Hw'.
  erewrite try_catch_bind in Hw' by (apply safe_eq; safe_auto). cbv beta in Hw'.
  match type of Hw' with context [try_catch _ _ ?w0] => set (wp := w0) in Hw' end.
  assert (Hstate : timerState wp = timerState w) by (subst wp; kept_by_chain).
  assert (Htoast : toastPresent wp = true) by (rewrite <- Hw; subst wp; kept_by_chain).
  assert (Hbtn : present "start-bot-btn" wp = present "start-bot-btn" w)
    by (subst wp; kept_by_chain).
  clearbody wp.
  destruct (botConfig_notifications B wp) as [fields [Hc _]].
  erewrite try_catch_bind in Hw' by exact Hc. cbv beta in Hw'.
  unfold try_catch in Hw'.
  match type of Hw' with context [bind ?call (fun response => bind _ (fun success =>
      if _ then ?S else _))] =>
    destruct (respond_cases call S "Bot başlatılamadı" wp) as [[e [Ht _]]|[_ Ht]];
    rewrite Ht in Hw'; clear Ht;
    set (w1 := snd (call wp)) in Hw';
    assert (Hstate1 : timerState w1 = timerState w)
      by (rewrite <- Hstate; subst w1; apply (keeps_call E timerState); reflexivity);
    assert (Htoast1 : toastPresent w1 = true)
      by (rewrite <- Htoast; subst w1; apply keeps_toast_call);
    assert (Hbtn1 : present "start-bot-btn" w1 = present "start-bot-btn" w)
      by (rewrite <- Hbtn; subst w1;
          apply (keeps_call E (present "start-bot-btn")); reflexivity);
    clearbody w1; clear Hstate Htoast Hbtn
  end.
  - left. exists e.
    rewrite bind_unit_eq in Hw' by (apply showNotification_ok, Htoast1).
    set (w2 := snd (showNotification _ _ _ w1)) in Hw'.
    assert (Hgrow : timersGrow w w').
    { apply (timersGrow_chain w w1 w2 w'); [exact Hstate1 | apply grows_showNotification|].
      rewrite Hw'. kept_by_chain. }
    repeat apply conj.
    + rewrite <- (toastText_shown ("Bot başlatma hatası: " ++ message_of e) "error" 5000
                    w1 Htoast1).
      fold w2. rewrite Hw'. unfold toastText. f_equal. lookup_kept.
    + apply Hgrow.
    + apply pollTimers_grow; assumption.
    + intros el Hel.
      assert (Hp2 : present "start-bot-btn" w2 = true).
      { transitivity (present "start-bot-btn" w1);
          [subst w2; generalize w1; change (keeps (present "start-bot-btn")
             (showNotification ("Bot başlatma hatası: " ++ message_of e) "error" 5000));
           unfold showNotification; keeps_auto|].
        rewrite Hbtn1. unfold present. rewrite Hel. apply bool_decide_eq_true. eauto. }
      apply present_true in Hp2 as [el2 Hel2].
      rewrite Hw'. unfold ifPresent, bind, getElementById, gets, update, modify, ret.
      simpl. rewrite Hel2. simpl. rewrite !lookup_alter_eq, Hel2. simpl.
      rewrite lookup_insert_ne by done. rewrite lookup_insert_eq. reflexivity.
  - right.
    rewrite bind_unit_eq in Hw' by (apply showNotification_ok, Htoast1).
    set (w2 := snd (showNotification _ _ _ w1)) in Hw'.
    rewrite bind_unit_eq in Hw' by apply getBotStatus_ok.
    set (w3 := snd (getBotStatus E w2)) in Hw'.
    assert (Hinv3 : timerInv w3).
    { apply (timerInv_grow w); [exact Hinv|].
      apply (timersGrow_chain w w1 w2 w3); [exact Hstate1 | apply grows_showNotification|].
      apply keeps_timers_getBotStatus. }
    assert (Hu3 : updateInterval w3 = updateInterval w).
    { transitivity (updateInterval w1); [|injection Hstate1; auto].
      subst w3. transitivity (updateInterval w2).
      - generalize w2. change (keeps updateInterval (getBotStatus E)).
        unfold getBotStatus.
        apply keeps_try_catch; [|intro; apply keeps_ret].
        apply keeps_bind; [apply keeps_call; reflexivity|]. intro. keeps_auto.
      - subst w2. generalize w1.
        change (keeps updateInterval
                  (showNotification "Bot başarıyla başlatıldı!" "success" 5000)).
        unfold showNotification. keeps_auto. }
    pose proof (timerInv_start w3 Hinv3) as Hinv'.
    rewrite start_eq in Hw'. simpl in Hw'.
    exists (nextTimer w3).
    assert (Hvar : updateInterval w' = Some (nextTimer w3)) by (rewrite Hw'; reflexivity).
    rewrite start_eq in Hinv'. simpl in Hinv'. rewrite <- Hw' in Hinv'.
    repeat apply conj.
    + rewrite <- (toastText_shown "Bot başarıyla başlatıldı!" "success" 5000 w1 Htoast1).
      fold w2. rewrite Hw'. unfold toastText. simpl. f_equal.
      subst w3. generalize w2.
      change (keeps (fun w => dom w !! "toast .toast-message") (getBotStatus E)).
      unfold getBotStatus.
      apply keeps_try_catch; [|intro; apply keeps_ret].
      apply keeps_bind; [apply keeps_call; reflexivity|]. intro. keeps_auto.
    + exact Hvar.
    + apply pollTimers_held; assumption.
    + intros h0 Hh0. rewrite <- Hu3 in Hh0.
      destruct Hinv3 as (_ & Hk3 & _ & Hheld & _).
      pose proof (Hk3 _ _ (Hheld h0 Hh0)) as Hlt. split; [lia|].
      rewrite Hw'. simpl. rewrite lookup_insert_ne by lia.
      rewrite Hh0. destruct h0; [lia|]. simpl. apply lookup_delete_eq.
Qed.

(** X20.  On a page with the toast whose timer table is as the
    script keeps it, [stopBot] ends in one of two ways.  Either the error
    toast 'Bot durdurma hatası: ...' is shown, the status poller is as it
    was (it goes on polling) and the stop button is enabled again; or the
    success toast is shown and no status poller is left. *)
Theorem stop_bot_outcomes w :
  timerInv w -> toastPresent w = true ->
  let w' := snd (stopBot E B w) in
  (exists e,
     toastText w' = VStr ("Bot durdurma hatası: " ++ message_of e) /\
     updateInterval w' = updateInterval w /\ pollTimers w' = pollTimers w /\
     (forall el, dom w !! "stop-bot-btn" = Some el ->
        prop_of (dom w' !! "stop-bot-btn") "disabled" = VBool false)) \/
  (toastText w' = VStr "Bot başarıyla durduruldu!" /\
   updateInterval w' = None /\ pollTimers w' = ∅ /\
   (forall h0, updateInterval w = Some h0 -> timers w' !! h0 = None)).
Proof.
  intros Hinv Hw w'.
  assert (Hw' : w' = snd (stopBot E B w)) by reflexivity. clearbody w'.
  unfold stopBot in Hw'.
  erewrite try_catch_bind in Hw' by (apply safe_eq; safe_auto). cbv beta in Hw'.
  erewrite try_catch_bind in Hw' by (apply safe_eq; safe_auto). cbv beta in Hw'.
  match type of Hw' with context [try_catch _ _ ?w0] => set (wp := w0) in Hw' end.
  assert (Hstate : timerState wp = timerState w) by (subst wp; kept_by_chain).
  assert (Htoast : toastPresent wp = true) by (rewrite <- Hw; subst wp; kept_by_chain).
  assert (Hbtn : present "stop-bot-btn" wp = present "stop-bot-btn" w)
    by (subst wp; kept_by_chain).
  clearbody wp.
  unfold try_catch in Hw'.
  match type of Hw' with context [bind ?call (fun response => bind _ (fun success =>
      if _ then ?S else _))] =>
    destruct (respond_cases call S "Bot durdurulamadı" wp) as [[e [Ht _]]|[_ Ht]];
    rewrite Ht in Hw'; clear Ht;
    set (w1 := snd (call wp)) in Hw';
    assert (Hstate1 : timerState w1 = timerState w)
      by (rewrite <- Hstate; subst w1; apply (keeps_call E timerState); reflexivity);
    assert (Htoast1 : toastPresent w1 = true)
      by (rewrite <- Htoast; subst w1; apply keeps_toast_call);
    assert (Hbtn1 : present "stop-bot-btn" w1 = present "stop-bot-btn" w)
      by (rewrite <- Hbtn; subst w1;
          apply (keeps_call E (present "stop-bot-btn")); reflexivity);
    clearbody w1; clear Hstate Htoast Hbtn
  end.
  - left. exists e.
    rewrite bind_unit_eq in Hw' by (apply showNotification_ok, Htoast1).
    set (w2 := snd (showNotification _ _ _ w1)) in Hw'.
    assert (Hgrow : timersGrow w w').
    { apply (timersGrow_chain w w1 w2 w'); [exact Hstate1 | apply grows_showNotification|].
      rewrite Hw'. kept_by_chain. }
    repeat apply conj.
    + rewrite <- (toastText_shown ("Bot durdurma hatası: " ++ message_of e) "error" 5000
                    w1 Htoast1).
      fold w2. rewrite Hw'. unfold toastText. f_equal. lookup_kept.
    + apply Hgrow.
    + apply pollTimers_grow; assumption.
    + intros el Hel.
      assert (Hp2 : present "stop-bot-btn" w2 = true).
      { transitivity (present "stop-bot-btn" w1);
          [subst w2; generalize w1; change (keeps (present "stop-bot-btn")
             (showNotification ("Bot durdurma hatası: " ++ message_of e) "error" 5000));
           unfold showNotification; keeps_auto|].
        rewrite Hbtn1. unfold present. rewrite Hel. apply bool_decide_eq_true. eauto. }
      apply present_true in Hp2 as [el2 Hel2].
      rewrite Hw'. unfold ifPresent, bind, getElementById, gets, update, modify, ret.
      simpl. rewrite Hel2. simpl. rewrite !lookup_alter_eq, Hel2. simpl.
      rewrite lookup_insert_ne by done. rewrite lookup_insert_eq. reflexivity.
  - right.
    rewrite bind_unit_eq in Hw' by (apply showNotification_ok, Htoast1).
    set (w2 := snd (showNotification _ _ _ w1)) in Hw'.
    rewrite bind_unit_eq in Hw' by apply getBotStatus_ok.
    set (w3 := snd (getBotStatus E w2)) in Hw'.
    assert (Hinv3 : timerInv w3).
    { apply (timerInv_grow w); [exact Hinv|].
      apply (timersGrow_chain w w1 w2 w3); [exact Hstate1 | apply grows_showNotification|].
      apply keeps_timers_getBotStatus. }
    assert (Hu3 : updateInterval w3 = updateInterval w).
    { transitivity (updateInterval w1); [|injection Hstate1; auto].
      subst w3. transitivity (updateInterval w2).
      - generalize w2. change (keeps updateInterval (getBotStatus E)).
        unfold getBotStatus.
        apply keeps_try_catch; [|intro; apply keeps_ret].
        apply keeps_bind; [apply keeps_call; reflexivity|]. intro. keeps_auto.
      - subst w2. generalize w1.
        change (keeps updateInterval
                  (showNotification "Bot başarıyla durduruldu!" "success" 5000)).
        unfold showNotification. keeps_auto. }
    pose proof (timerInv_stop w3 Hinv3) as Hinv'.
    assert (Htext : toastText w3 = VStr "Bot başarıyla durduruldu!").
    { rewrite <- (toastText_shown "Bot başarıyla durduruldu!" "success" 5000 w1 Htoast1).
      fold w2. unfold toastText. f_equal.
      subst w3. generalize w2.
      change (keeps (fun w => dom w !! "toast .toast-message") (getBotStatus E)).
      unfold getBotStatus.
      apply keeps_try_catch; [|intro; apply keeps_ret].
      apply keeps_bind; [apply keeps_call; reflexivity|]. intro. keeps_auto. }
    rewrite stop_eq in Hw', Hinv'. simpl in Hw', Hinv'. rewrite <- Hw' in Hinv'.
    destruct (updateInterval w3) as [h3|] eqn:Hh3.
    + rewrite (timerInv_truthy w3 h3 Hinv3) in Hw' by (left; exact Hh3). simpl in Hw'.
      assert (Hvar : updateInterval w' = None) by (rewrite Hw'; reflexivity).
      repeat apply conj.
      * rewrite Hw'. exact Htext.
      * exact Hvar.
      * apply pollTimers_none; assumption.
      * intros h0 Hh0. rewrite <- Hu3 in Hh0. inversion Hh0; subst h0.
        rewrite Hw'. simpl. apply lookup_delete_eq.
    + simpl in Hw'. subst w'.
      repeat apply conj.
      * exact Htext.
      * exact Hh3.
      * apply pollTimers_none; assumption.
      * intros h0 Hh0. congruence.
Qed.

End ActionsMore.

(** ** The API client and the document *)

Section Frame.
Variable E : Env.
Variable B : Builtins.

Lemma getFreshToken_frame d w :
  getFreshToken E (set_dom d w) =
  (fst (getFreshToken E w), set_dom d (snd (getFreshToken E w))).
Proof.
  rewrite !getFreshToken_eq. simpl.
  destruct (currentUser w) as [u|]; [|reflexivity].
  destruct (idp E (trace w) u); reflexivity.
Qed.

Lemma atFirstFetch_frame d w :
  atFirstFetch E (set_dom d w) = set_dom d <$> atFirstFetch E w.
Proof.
  unfold atFirstFetch. rewrite getFreshToken_frame. simpl.
  destruct (token_truthy (authToken w)); [reflexivity|].
  destruct (getFreshToken E w) as [[t|e] w1]; simpl; [|reflexivity].
  destruct (token_truthy (authToken w1)); reflexivity.
Qed.

Lemma decode_fst_frame r w w' : fst (decode r w) = fst (decode r w').
Proof. rewrite !decode_isJson. reflexivity. Qed.

Lemma retryOutcome_frame req d w :
  retryOutcome E req (set_dom d w) =
  (fst (retryOutcome E req w), set_dom d (snd (retryOutcome E req w))).
Proof.
  unfold retryOutcome. simpl.
  destruct (currentUser w) as [u|]; [|reflexivity].
  destruct (idp E (trace w) u) as [t|e]; [|reflexivity].
  simpl.
  match goal with |- context [server E ?tr ?r] => destruct (server E tr r) as [r2|e2] end;
    [|reflexivity].
  destruct (ok r2); [|reflexivity].
  match goal with |- context [fst (decode r2 ?wa)] =>
    match goal with |- context [fst (decode r2 ?wb)] =>
      tryif constr_eq wa wb then fail else rewrite (decode_fst_frame r2 wa wb)
    end
  end.
  destruct (fst (decode r2 _)); reflexivity.
Qed.

Lemma call_no_token_eq endpoint o w :
  atFirstFetch E w = None ->
  makeAuthenticatedApiCall E endpoint o w =
  match getFreshToken E w with
  | (Ok _, w1) => (Throw (Error "Could not obtain authentication token"), w1)
  | (Throw e, w1) => (Throw e, w1)
  end.
Proof.
  unfold atFirstFetch, makeAuthenticatedApiCall. intro Hp.
  destruct (token_truthy (authToken w)) eqn:Ht; [discriminate|].
  unfold try_catch, bind, gets, when, ret.
  repeat first [rewrite Ht | progress simpl].
  destruct (getFreshToken E w) as [[t|e] w1]; [|reflexivity].
  simpl. destruct (token_truthy (authToken w1)); [discriminate | reflexivity].
Qed.

Lemma call_frame endpoint o d w :
  makeAuthenticatedApiCall E endpoint o (set_dom d w) =
    (fst (makeAuthenticatedApiCall E endpoint o w),
     set_dom d (snd (makeAuthenticatedApiCall E endpoint o w))).
Proof.
  destruct (atFirstFetch E w) as [w1|] eqn:Hp.
  - assert (Hp' : atFirstFetch E (set_dom d w) = Some (set_dom d w1)).
    { rewrite atFirstFetch_frame, Hp. reflexivity. }
    rewrite (call_eq E endpoint o _ _ Hp'), (call_eq E endpoint o _ _ Hp). cbv zeta.
    simpl authToken. simpl trace.
    destruct (server E (trace w1) _) as [r1|e1]; [|reflexivity].
    destruct (ok r1).
    + simpl. f_equal. apply decode_fst_frame.
    + destruct (status r1 =? 401)%N; [|reflexivity].
      apply (retryOutcome_frame _ d (log _ w1)).
  - assert (Hp' : atFirstFetch E (set_dom d w) = None).
    { rewrite atFirstFetch_frame, Hp. reflexivity. }
    rewrite (call_no_token_eq endpoint o _ Hp'), (call_no_token_eq endpoint o _ Hp).
    rewrite getFreshToken_frame.
    destruct (getFreshToken E w) as [[t|e] w1]; reflexivity.
Qed.

Lemma same_besides_dom w0 w : besidesDom w0 = besidesDom w -> w0 = set_dom (dom w0) w.
Proof.
  destruct w0, w. unfold besidesDom, set_dom. simpl. intro H.
  inversion H. subst. reflexivity.
Qed.

Lemma call_after_writes endpoint o w0 w :
  besidesDom w0 = besidesDom w ->
  makeAuthenticatedApiCall E endpoint o w0 =
    (fst (makeAuthenticatedApiCall E endpoint o w),
     set_dom (dom w0) (snd (makeAuthenticatedApiCall E endpoint o w))).
Proof. intro H. rewrite (same_besides_dom w0 w H) at 1. apply call_frame. Qed.

(** X21.  The API client and the document do not meet: a call
    leaves the document as it is, and on two pages that differ in the
    document only it gives the same result, sends the same requests and
    caches the same token. *)
Theorem call_ignores_document endpoint o w :
  dom (snd (makeAuthenticatedApiCall E endpoint o w)) = dom w /\
  (forall d,
     makeAuthenticatedApiCall E endpoint o (set_dom d w) =
       (fst (makeAuthenticatedApiCall E endpoint o w),
        set_dom d (snd (makeAuthenticatedApiCall E endpoint o w)))) /\
  (forall w0, besidesDom w0 = besidesDom w ->
     fst (makeAuthenticatedApiCall E endpoint o w0) =
       fst (makeAuthenticatedApiCall E endpoint o w) /\
     besidesDom (snd (makeAuthenticatedApiCall E endpoint o w0)) =
       besidesDom (snd (makeAuthenticatedApiCall E endpoint o w))).
Proof.
  split; [apply (keeps_call E dom); reflexivity|]. split.
  - intro d. apply call_frame.
  - intros w0 H. rewrite (call_after_writes endpoint o w0 w H). split; reflexivity.
Qed.

End Frame.

(** ** Dialogs and toggles *)

Section Dialogs.
Variable E : Env.
Variable B : Builtins.

Lemma has_class_add c el : has_class c (add_class c el) = true.
Proof. apply bool_decide_eq_true. apply elem_of_add_class. Qed.

Lemma has_class_remove c el : has_class c (remove_class c el) = false.
Proof. apply bool_decide_eq_false. apply not_elem_of_remove_class. Qed.

(** X22.  On a page with the advanced-settings panel and its
    toggle, [toggleAdvancedSettings] flips the panel between shown and
    hidden and leaves the toggle showing the chevron of the new state (up
    when shown, down when hidden); two calls bring the panel back to where
    it was.  When either element is missing nothing happens. *)
Theorem advanced_settings_toggle w :
  let shown w :=
    match dom w !! "advanced-settings-content" with
    | Some c => has_class "show" c
    | None => false
    end in
  let w1 := snd (toggleAdvancedSettings w) in
  (dom w !! "advanced-settings-content" = None \/ dom w !! "advanced-toggle" = None ->
   toggleAdvancedSettings w = (Ok tt, w)) /\
  (forall content toggle,
     dom w !! "advanced-settings-content" = Some content ->
     dom w !! "advanced-toggle" = Some toggle ->
     fst (toggleAdvancedSettings w) = Ok tt /\
     shown w1 = negb (shown w) /\
     prop_of (dom w1 !! "advanced-toggle") "innerHTML" =
       VStr ("<i class=" ++ dq ++
             (if shown w1 then "fas fa-chevron-up" else "fas fa-chevron-down") ++
             dq ++ "></i>") /\
     shown (snd (toggleAdvancedSettings w1)) = shown w).
Proof.
  intros shown w1.
  assert (Hstep : forall w0 content toggle,
    dom w0 !! "advanced-settings-content" = Some content ->
    dom w0 !! "advanced-toggle" = Some toggle ->
    toggleAdvancedSettings w0 =
      (Ok tt,
       if has_class "show" content then
         set_dom
           (alter (set_prop "innerHTML"
                     (VStr ("<i class=" ++ dq ++ "fas fa-chevron-down" ++ dq ++ "></i>")))
              "advanced-toggle"
              (alter (remove_class "show") "advanced-settings-content" (dom w0))) w0
       else
         set_dom
           (alter (set_prop "innerHTML"
                     (VStr ("<i class=" ++ dq ++ "fas fa-chevron-up" ++ dq ++ "></i>")))
              "advanced-toggle"
              (alter (add_class "show") "advanced-settings-content" (dom w0))) w0)).
  { intros w0 content toggle Hc Ht.
    unfold toggleAdvancedSettings, bind, getElementById, gets. rewrite Hc, Ht.
    destruct (has_class "show" content); reflexivity. }
  split.
  - intros [H|H]; unfold toggleAdvancedSettings, bind, getElementById, gets; rewrite H;
      [reflexivity|]. destruct (dom w !! "advanced-settings-content"); reflexivity.
  - intros content toggle Hc Ht. subst w1.
    rewrite (Hstep w content toggle Hc Ht). simpl fst. simpl snd.
    subst shown. cbv beta. rewrite Hc.
    destruct (has_class "show" content) eqn:Hshown.
    + set (w1 := set_dom _ w).
      assert (Hc1 : dom w1 !! "advanced-settings-content" = Some (remove_class "show" content)).
      { subst w1. simpl. rewrite lookup_alter_ne by done. rewrite lookup_alter_eq, Hc.
        reflexivity. }
      assert (Ht1 : dom w1 !! "advanced-toggle" =
                    Some (set_prop "innerHTML"
                      (VStr ("<i class=" ++ dq ++ "fas fa-chevron-down" ++ dq ++ "></i>"))
                      toggle)).
      { subst w1. simpl. rewrite lookup_alter_eq, lookup_alter_ne, Ht by done.
        reflexivity. }
      clearbody w1. rewrite (Hstep w1 _ _ Hc1 Ht1). rewrite Hc1, Ht1.
      rewrite has_class_remove. simpl snd. simpl dom.
      rewrite lookup_alter_ne, lookup_alter_eq, Hc1 by done. simpl.
      rewrite lookup_insert_eq. rewrite has_class_add. auto.
    + set (w1 := set_dom _ w).
      assert (Hc1 : dom w1 !! "advanced-settings-content" = Some (add_class "show" content)).
      { subst w1. simpl. rewrite lookup_alter_ne by done. rewrite lookup_alter_eq, Hc.
        reflexivity. }
      assert (Ht1 : dom w1 !! "advanced-toggle" =
                    Some (set_prop "innerHTML"
                      (VStr ("<i class=" ++ dq ++ "fas fa-chevron-up" ++ dq ++ "></i>"))
                      toggle)).
      { subst w1. simpl. rewrite lookup_alter_eq, lookup_alter_ne, Ht by done.
        reflexivity. }
      clearbody w1. rewrite (Hstep w1 _ _ Hc1 Ht1). rewrite Hc1, Ht1.
      rewrite has_class_add. simpl snd. simpl dom.
      rewrite lookup_alter_ne, lookup_alter_eq, Hc1 by done. simpl.
      rewrite lookup_insert_eq. rewrite has_class_remove. auto.
Qed.

Lemma ifPresent_some id (m : M unit) w el :
  dom w !! id = Some el -> ifPresent id m w = m w.
Proof. intro H. unfold ifPresent, bind, getElementById, gets. rewrite H. reflexivity. Qed.

Lemma prop_kept id name id' name' v (d : gmap string element) :
  name <> name' ->
  prop_of (alter (set_prop name' v) id' d !! id) name = prop_of (d !! id) name.
Proof.
  intro Hne. destruct (decide (id' = id)) as [->|Hid].
  - rewrite lookup_alter_eq. destruct (d !! id) as [el|]; [|reflexivity].
    simpl. rewrite lookup_insert_ne by congruence. reflexivity.
  - rewrite lookup_alter_ne by exact Hid. reflexivity.
Qed.

Lemma keeps_secret_value (m : M unit) :
  m = update "api-secret" (set_prop "placeholder" (VStr "API Secret")) \/
  m = update "api-secret"
        (set_prop "placeholder"
           (VStr "Mevcut secret korunuyor (değiştirmek için yeni girin)")) ->
  keeps (fun w => prop_of (dom w !! "api-secret") "value") m.
Proof. intros [->| ->] w; simpl; apply prop_kept; discriminate. Qed.

Ltac keeps_dialog :=
  lazymatch goal with
  | |- keeps _ (makeAuthenticatedApiCall _ _ _) => apply keeps_call; reflexivity
  | |- keeps _ (showNotification _ _ _) => unfold showNotification
  | |- keeps _ (update "api-secret" (set_prop "placeholder" _)) =>
      first [ apply keeps_secret_value; auto | keeps_step ]
  | |- keeps _ _ => keeps_step
  end.

(** X23.  Without the dialog element [openApiModal] does
    nothing.  With it (and the toast) the dialog is shown, the value of
    the secret field is never written, and the key field is emptied
    before the stored keys are asked for: it then shows the masked key
    the backend reports when it has keys ([hasKeys]), stays empty when it
    has none, and stays empty under the error toast when the call fails. *)
Theorem api_dialog_opens w :
  (dom w !! "api-modal" = None -> openApiModal E w = (Ok tt, w)) /\
  (forall modal, dom w !! "api-modal" = Some modal ->
     toastPresent w = true ->
     let answer := fst (makeAuthenticatedApiCall E "/api/user/api-info" no_options w) in
     let w' := snd (openApiModal E w) in
     ("show" ∈ classes_of (dom w' !! "api-modal")) /\
     prop_of (dom w' !! "api-secret") "value" = prop_of (dom w !! "api-secret") "value" /\
     (forall key, dom w !! "api-key" = Some key ->
        (forall fields, answer = Ok (VObj fields) ->
           prop_of (dom w' !! "api-key") "value" =
             if truthy (assoc "hasKeys" fields)
             then or (assoc "maskedApiKey" fields) (VStr "") else VStr "") /\
        (forall e, answer = Throw e ->
           prop_of (dom w' !! "api-key") "value" = VStr "" /\
           toastText w' =
             VStr "API key bilgileri yüklenirken hata oluştu. Lütfen tekrar deneyin."))).
Proof.
  split.
  { intro H. unfold openApiModal, ifPresent, bind, getElementById, gets. rewrite H.
    reflexivity. }
  intros modal Hmodal Htoast answer w'.
  assert (Hw' : w' = snd (openApiModal E w)) by reflexivity. clearbody w'.
  unfold openApiModal in Hw'. rewrite (ifPresent_some _ _ _ _ Hmodal) in Hw'.
  do 4 (rewrite bind_unit_eq in Hw' by (apply safe_fst; safe_auto)).
  match type of Hw' with context [try_catch _ _ ?w0] => set (wp := w0) in Hw' end.
  assert (Hbd : besidesDom wp = besidesDom w) by (subst wp; kept_by_chain).
  assert (Htoastp : toastPresent wp = true) by (rewrite <- Htoast; subst wp; kept_by_chain).
  assert (Hmodalp : dom wp !! "api-modal" = Some (add_class "show" modal)).
  { subst wp.
    repeat match goal with
    | |- dom (snd (ifPresent ?id ?m ?w0)) !! "api-modal" = _ =>
        transitivity (dom w0 !! "api-modal");
          [generalize w0; change (keeps (fun w => dom w !! "api-modal") (ifPresent id m));
           solve [keeps_auto]|]
    end.
    unfold update, modify. simpl. rewrite lookup_alter_eq, Hmodal. reflexivity. }
  assert (Hsecretp : prop_of (dom wp !! "api-secret") "value" =
                     prop_of (dom w !! "api-secret") "value").
  { subst wp.
    repeat match goal with
    | |- prop_of (dom (snd (?m ?w0)) !! "api-secret") "value" = _ =>
        transitivity (prop_of (dom w0 !! "api-secret") "value");
          [generalize w0;
           change (keeps (fun w => prop_of (dom w !! "api-secret") "value") m);
           solve [repeat keeps_dialog]|]
    end.
    reflexivity. }
  assert (Hkeyp : forall key, dom w !! "api-key" = Some key ->
                  dom wp !! "api-key" = Some (set_prop "value" (VStr "") key)).
  { intros key Hkey. subst wp.
    do 2 match goal with
    | |- dom (snd (ifPresent ?id ?m ?w0)) !! "api-key" = _ =>
        transitivity (dom w0 !! "api-key");
          [generalize w0; change (keeps (fun w => dom w !! "api-key") (ifPresent id m));
           solve [keeps_auto]|]
    end.
    unfold ifPresent, bind, getElementById, gets, update, modify, ret. simpl.
    rewrite lookup_alter_ne, Hkey by done. simpl.
    rewrite lookup_alter_eq, lookup_alter_ne, Hkey by done. reflexivity. }
  clearbody wp.
  assert (Hgen : dom w' !! "api-modal" = dom wp !! "api-modal" /\
                 prop_of (dom w' !! "api-secret") "value" =
                 prop_of (dom wp !! "api-secret") "value").
  { rewrite Hw'. split.
    - match goal with |- dom (snd (?m wp)) !! _ = _ =>
        generalize wp; change (keeps (fun w => dom w !! "api-modal") m);
        solve [repeat keeps_dialog] end.
    - match goal with |- prop_of (dom (snd (?m wp)) !! _) _ = _ =>
        generalize wp;
        change (keeps (fun w => prop_of (dom w !! "api-secret") "value") m);
        solve [repeat keeps_dialog] end. }
  destruct Hgen as [Hg1 Hg2].
  repeat apply conj.
  - rewrite Hg1, Hmodalp. simpl. apply elem_of_add_class.
  - rewrite Hg2. exact Hsecretp.
  - intros key Hkey.
    unfold try_catch in Hw'. unfold bind at 1 in Hw'.
    rewrite (call_after_writes E _ _ wp w Hbd) in Hw'. fold answer in Hw'.
    set (w1 := set_dom (dom wp) _) in Hw'.
    assert (Hkey1 : dom w1 !! "api-key" = Some (set_prop "value" (VStr "") key))
      by (apply Hkeyp; assumption).
    assert (Htoast1 : toastPresent w1 = true) by exact Htoastp.
    clearbody w1. split.
    + intros fields Hanswer. rewrite Hanswer in Hw'.
      rewrite bind_get_obj in Hw'. cbv beta in Hw'.
      destruct (truthy (assoc "hasKeys" fields)).
      * rewrite when_true in Hw'.
        match type of Hw' with context [let (_, _) := ?m w1 in _] =>
          assert (Hs : safe m) by safe_auto;
          assert (Hk : dom (snd (m w1)) !! "api-key" =
                       Some (set_prop "value" (or (assoc "maskedApiKey" fields) (VStr ""))
                               (set_prop "value" (VStr "") key)));
            [|rewrite (safe_eq m w1 Hs) in Hw'; cbn [fst snd] in Hw'; rewrite Hw', Hk; simpl;
              rewrite lookup_insert_eq; reflexivity]
        end.
        rewrite (bind_keeps_snd (fun w => dom w !! "api-key")) by (intro; keeps_auto).
        unfold ifPresent, bind, getElementById, gets, get, update, modify, ret. simpl.
        rewrite Hkey1. simpl. rewrite lookup_alter_eq, Hkey1. reflexivity.
      * simpl in Hw'. rewrite Hw', Hkey1. simpl. rewrite lookup_insert_eq. reflexivity.
    + intros e He. rewrite He in Hw'. rewrite Hw'. split.
      * transitivity (prop_of (dom w1 !! "api-key") "value").
        -- f_equal. generalize w1.
           match goal with |- forall w0, dom (snd (?m w0)) !! _ = _ =>
             change (keeps (fun w => dom w !! "api-key") m) end.
           unfold showNotification. keeps_auto.
        -- rewrite Hkey1. simpl. rewrite lookup_insert_eq. reflexivity.
      * apply toastText_shown, Htoast1.
Qed.

End Dialogs.

(** ** Signing in and out *)

Section Session.
Variable E : Env.
Variable B : Builtins.

Lemma refreshTimers_held w h :
  timerInv w -> tokenRefreshInterval w = Some h -> refreshTimers w = {[h := refreshTimer]}.
Proof.
  intros (Hn & Hk & Hp & Hu & Hr & Ht) Hh. unfold refreshTimers.
  apply map_eq. intro i. apply option_eq. intro t.
  rewrite map_lookup_filter_Some, lookup_singleton_Some. simpl. split.
  - intros [Hl Hc]. destruct (Hr _ _ Hl Hc) as [-> Hi]. split; congruence.
  - intros [<- <-]. split; [apply Ht, Hh | reflexivity].
Qed.

Lemma refreshTimers_none w :
  timerInv w -> tokenRefreshInterval w = None -> refreshTimers w = ∅.
Proof.
  intros (Hn & Hk & Hp & Hu & Hr & Ht) Hh. unfold refreshTimers.
  apply map_empty. intro i. apply map_lookup_filter_None. right. intros t Hl Hc.
  simpl in Hc. destruct (Hr _ _ Hl Hc) as [_ Hi]. congruence.
Qed.

Lemma dropRefresher_eq w :
  when (handle_truthy (tokenRefreshInterval w))
    (clearInterval (default 0%nat (tokenRefreshInterval w)) ;;
     modify (set_tokenRefreshInterval None)) w =
  (Ok tt,
   if handle_truthy (tokenRefreshInterval w)
   then set_tokenRefreshInterval None
          (set_timers (delete (default 0%nat (tokenRefreshInterval w)) (timers w))
             (nextTimer w) w)
   else w).
Proof. destruct (handle_truthy (tokenRefreshInterval w)); reflexivity. Qed.

(** The world once the token refresher is dropped. *)
Lemma dropRefresher_facts w :
  timerInv w ->
  let wd := snd (when (handle_truthy (tokenRefreshInterval w))
                   (clearInterval (default 0%nat (tokenRefreshInterval w)) ;;
                    modify (set_tokenRefreshInterval None)) w) in
  timerInv wd /\ tokenRefreshInterval wd = None /\ refreshTimers wd = ∅ /\
  updateInterval wd = updateInterval w /\ pollTimers wd = pollTimers w /\
  currentUser wd = currentUser w /\ authToken wd = authToken w /\
  trace wd = trace w /\ dom wd = dom w /\ nextTimer wd = nextTimer w.
Proof.
  intros Hinv wd. pose proof (timerInv_dropRefresher w Hinv) as Hinvd. fold wd in Hinvd.
  assert (Hwd : wd = snd (when (handle_truthy (tokenRefreshInterval w))
                   (clearInterval (default 0%nat (tokenRefreshInterval w)) ;;
                    modify (set_tokenRefreshInterval None)) w)) by reflexivity.
  clearbody wd. rewrite dropRefresher_eq in Hwd. simpl in Hwd.
  assert (Hnone : tokenRefreshInterval wd = None).
  { destruct (tokenRefreshInterval w) as [h|] eqn:Hh.
    - rewrite (timerInv_truthy w h Hinv) in Hwd by (right; exact Hh). rewrite Hwd. reflexivity.
    - simpl in Hwd. rewrite Hwd. exact Hh. }
  assert (Hupd : updateInterval wd = updateInterval w).
  { rewrite Hwd. destruct (handle_truthy _); reflexivity. }
  split; [exact Hinvd|]. split; [exact Hnone|].
  split; [apply refreshTimers_none; assumption|].
  split; [exact Hupd|].
  split.
  { destruct (updateInterval w) as [h|] eqn:Hh.
    - rewrite (pollTimers_held w h Hinv Hh). apply pollTimers_held; [exact Hinvd | congruence].
    - rewrite (pollTimers_none w Hinv Hh). apply pollTimers_none; [exact Hinvd | congruence]. }
  rewrite Hwd. destruct (handle_truthy _); repeat split; reflexivity.
Qed.

(** X24.  [logout] does nothing when the user declines.  When the
    user confirms and signing out succeeds, the token refresher and the
    status poller are cancelled, the token and the user are forgotten and
    the page goes to the login page; nothing was sent to the backend.
    When signing out fails, the error toast is shown and the user stays
    signed in with the cached token and the status poller, but the token
    refresher is gone: it was cancelled before signing out was tried. *)
Theorem logout_outcomes signOut w :
  timerInv w ->
  let question := "Çıkış yapmak istediğinizden emin misiniz?" in
  let result := logout E signOut w in
  (confirm E (trace w) question = false -> result = (Ok None, w)) /\
  (confirm E (trace w) question = true -> signOut = Ok tt ->
   fst result = Ok (Some loginPage) /\
   currentUser (snd result) = None /\ authToken (snd result) = None /\
   tokenRefreshInterval (snd result) = None /\ updateInterval (snd result) = None /\
   refreshTimers (snd result) = ∅ /\ pollTimers (snd result) = ∅ /\
   trace (snd result) = trace w /\ dom (snd result) = dom w) /\
  (forall e, confirm E (trace w) question = true -> signOut = Throw e ->
   toastPresent w = true ->
   fst result = Ok None /\
   currentUser (snd result) = currentUser w /\ authToken (snd result) = authToken w /\
   tokenRefreshInterval (snd result) = None /\ refreshTimers (snd result) = ∅ /\
   updateInterval (snd result) = updateInterval w /\
   pollTimers (snd result) = pollTimers w /\
   toastText (snd result) = VStr "Çıkış yapılırken hata oluştu").
Proof.
  intros Hinv question result.
  assert (Hres : result = logout E signOut w) by reflexivity. clearbody result.
  unfold logout in Hres. rewrite bind_gets in Hres. cbv beta in Hres. fold question in Hres.
  split; [|split].
  - intro Hc. rewrite Hc in Hres. exact Hres.
  - intros Hc Hs. rewrite Hc in Hres. cbn [negb] in Hres.
    unfold try_catch in Hres. rewrite bind_gets in Hres. cbv beta in Hres.
    rewrite bind_unit_eq in Hres by (rewrite dropRefresher_eq; reflexivity).
    destruct (dropRefresher_facts w Hinv)
      as (Hinvd & Hnone & Hrt & Hupd & Hpt & Hcu & Hat & Htr & Hdom & Hnt).
    set (wd := snd (when _ _ w)) in *. clearbody wd.
    rewrite Hs in Hres. unfold await in Hres. unfold bind at 1 in Hres.
    rewrite bind_unit_eq in Hres by (rewrite stop_eq; reflexivity).
    pose proof (timerInv_stop wd Hinvd) as Hinvs.
    assert (Hstop : updateInterval (snd (stopPeriodicUpdates wd)) = None /\
                    tokenRefreshInterval (snd (stopPeriodicUpdates wd)) = None /\
                    trace (snd (stopPeriodicUpdates wd)) = trace w /\
                    dom (snd (stopPeriodicUpdates wd)) = dom w).
    { rewrite stop_eq. simpl.
      destruct (updateInterval wd) as [h|] eqn:Hh.
      - rewrite (timerInv_truthy wd h Hinvd) by (left; exact Hh). simpl. auto.
      - simpl. auto. }
    destruct Hstop as (Hs1 & Hs2 & Hs3 & Hs4).
    set (ws := snd (stopPeriodicUpdates wd)) in *. clearbody ws.
    unfold bind, modify, ret in Hres. simpl in Hres. rewrite Hres. simpl.
    assert (Hinv' : timerInv (set_currentUser None (set_authToken None ws)))
      by (eapply timerInv_state; [|exact Hinvs]; reflexivity).
    repeat apply conj; try assumption; try reflexivity.
    + apply refreshTimers_none; [exact Hinv' | exact Hs2].
    + apply pollTimers_none; [exact Hinv' | exact Hs1].
  - intros e Hc Hs Htoast. rewrite Hc in Hres. cbn [negb] in Hres.
    unfold try_catch in Hres. rewrite bind_gets in Hres. cbv beta in Hres.
    rewrite bind_unit_eq in Hres by (rewrite dropRefresher_eq; reflexivity).
    destruct (dropRefresher_facts w Hinv)
      as (Hinvd & Hnone & Hrt & Hupd & Hpt & Hcu & Hat & Htr & Hdom & Hnt).
    set (wd := snd (when _ _ w)) in *.
    assert (Htoastd : toastPresent wd = true).
    { unfold toastPresent, present in *. rewrite Hdom. exact Htoast. }
    clearbody wd.
    rewrite Hs in Hres. unfold await in Hres. unfold bind at 1 in Hres.
    rewrite bind_unit_eq in Hres by (apply showNotification_ok, Htoastd).
    unfold ret in Hres. rewrite Hres. simpl fst. simpl snd.
    set (w2 := snd (showNotification _ _ _ wd)).
    assert (Hgrow : timersGrow wd w2) by apply grows_showNotification.
    pose proof (timerInv_grow wd w2 Hinvd Hgrow) as Hinv2.
    assert (Hkept : currentUser w2 = currentUser wd /\ authToken w2 = authToken wd).
    { subst w2. split.
      - generalize wd. match goal with |- forall w0, _ (snd (?m w0)) = _ =>
          change (keeps currentUser m) end. unfold showNotification. keeps_auto.
      - generalize wd. match goal with |- forall w0, _ (snd (?m w0)) = _ =>
          change (keeps authToken m) end. unfold showNotification. keeps_auto. }
    destruct Hkept as [Hk1 Hk2]. destruct Hgrow as (_ & Gu & Gr & _).
    repeat apply conj.
    + reflexivity.
    + congruence.
    + congruence.
    + congruence.
    + apply refreshTimers_none; [exact Hinv2 | congruence].
    + congruence.
    + rewrite <- Hpt. apply pollTimers_grow; [exact Hinvd | apply grows_showNotification].
    + apply toastText_shown, Htoastd.
Qed.

Lemma bind_modify {C} g (k : unit -> M C) w : bind (modify g) k w = k tt (g w).
Proof. reflexivity. Qed.

Lemma bind_inv_at {C X} (f : world -> X) (m : M unit) (k : unit -> M C)
    (Q : world -> Prop) w :
  keeps f m -> fst (m w) = Ok tt ->
  (forall w1, f w1 = f w -> Q (snd (k tt w1))) ->
  Q (snd (bind m k w)).
Proof.
  intros Hk Hok H. unfold bind. specialize (Hk w).
  destruct (m w) as [[[]|e] w1]; simpl in *; [apply H, Hk | discriminate Hok].
Qed.

Lemma refreshTimers_grow w w' :
  timerInv w -> timersGrow w w' -> refreshTimers w' = refreshTimers w.
Proof.
  intros Hinv Hg. pose proof (timerInv_grow w w' Hinv Hg) as Hinv'.
  destruct Hg as (_ & _ & Gr & _).
  destruct (tokenRefreshInterval w) as [h|] eqn:Hh.
  - rewrite (refreshTimers_held w h Hinv Hh).
    apply refreshTimers_held; [exact Hinv' | congruence].
  - rewrite (refreshTimers_none w Hinv Hh).
    apply refreshTimers_none; [exact Hinv' | congruence].
Qed.

Lemma safe_setupEventListeners : safe (setupEventListeners B).
Proof.
  unfold setupEventListeners, setupSmartRecommendations, updateStrategyInfo.
  destruct (timeframeRecommendations "15m"); safe_auto.
Qed.

Lemma try_catch_done {A} (m : M A) h w a :
  fst (m w) = Ok a -> try_catch m h w = m w.
Proof. intro H. unfold try_catch. destruct (m w) as [[a0|e] w1]; [reflexivity | discriminate H]. Qed.

Lemma grows_session appInfo : grows (session E B appInfo).
Proof.
  unfold session.
  apply grows_bind; [apply grows_loadAllDashboardData | intro].
  apply grows_of_keeps. repeat keeps_page.
Qed.

Lemma keeps_toast_session appInfo : keeps toastPresent (session E B appInfo).
Proof. unfold session. repeat keeps_page. Qed.

Lemma keeps_user_session appInfo : keeps currentUser (session E B appInfo).
Proof. unfold session. repeat keeps_page. Qed.

Lemma session_ok appInfo w : toastPresent w = true -> fst (session E B appInfo w) = Ok tt.
Proof.
  intro Hw. unfold session.
  apply bind_ok; [apply loadAllDashboardData_ok, Hw|].
  apply bind_ok; [apply getBotStatus_ok|].
  apply bind_ok; [apply loadPaymentAndServerInfo_ok|].
  apply safe_fst. pose proof safe_setupEventListeners. safe_auto. assumption.
Qed.

Lemma session_hides_loading appInfo w el :
  toastPresent w = true -> dom w !! "loading-screen" = Some el ->
  prop_of (dom (snd (session E B appInfo w)) !! "loading-screen") "style.display" = VStr "none".
Proof.
  intros Hw Hel. unfold session.
  assert (Hp : present "loading-screen" w = true) by (unfold present; rewrite Hel; reflexivity).
  apply (bind_inv_at (present "loading-screen"));
    [repeat keeps_page | apply loadAllDashboardData_ok, Hw |].
  intros w1 H1. rewrite Hp in H1. clear w Hw Hel el Hp.
  apply (bind_inv_at (present "loading-screen"));
    [repeat keeps_page | apply getBotStatus_ok |].
  intros w2 H2. rewrite H1 in H2. clear w1 H1.
  apply (bind_inv_at (present "loading-screen"));
    [repeat keeps_page | apply loadPaymentAndServerInfo_ok |].
  intros w3 H3. rewrite H2 in H3. clear w2 H2.
  apply (bind_inv_at (present "loading-screen"));
    [repeat keeps_page | apply safe_fst, safe_setupEventListeners |].
  intros w4 H4. rewrite H3 in H4. clear w3 H3.
  apply present_true in H4 as [el Hel].
  cbv [bind ifPresent getElementById gets update modify ret]. rewrite Hel. simpl.
  match goal with |- context [match ?x with Some _ => _ | None => _ end] => destruct x end;
    simpl; rewrite ?lookup_alter_ne by done; rewrite lookup_alter_eq, Hel;
    simpl; rewrite lookup_insert_eq; reflexivity.
Qed.

(** X25.  The auth-state listener, on a page whose timer table is
    as the script keeps it.  Signed out: the token refresher is cancelled
    and the page goes to the login page; the status poller and the cached
    token are left as they are and nothing is sent.  Signed in, the
    identity provider failing: the error toast is shown and nothing is
    sent to the backend; no refresher is started.  Signed in with a
    token: exactly one token refresher is live, a new one; the status
    poller is as it was (signing in starts none); the first request after
    the token is the dashboard payload, sent with that token; and the
    loading screen is hidden. *)
Theorem auth_state_listener appInfo w :
  timerInv w ->
  (let result := onAuthStateChanged E B None appInfo w in
   fst result = Ok (Some loginPage) /\
   tokenRefreshInterval (snd result) = None /\ refreshTimers (snd result) = ∅ /\
   updateInterval (snd result) = updateInterval w /\
   pollTimers (snd result) = pollTimers w /\
   authToken (snd result) = authToken w /\
   trace (snd result) = trace w /\ dom (snd result) = dom w) /\
  (forall u e,
     idp E (trace w) u = Throw e -> toastPresent w = true ->
     let result := onAuthStateChanged E B (Some u) appInfo w in
     fst result = Ok None /\ currentUser (snd result) = Some u /\
     authToken (snd result) = authToken w /\
     newEvents w (snd result) = [EvGetIdToken u] /\
     tokenRefreshInterval (snd result) = tokenRefreshInterval w /\
     refreshTimers (snd result) = refreshTimers w /\
     toastText (snd result) = VStr "Dashboard verileri yüklenemedi") /\
  (forall u t,
     idp E (trace w) u = Ok t -> toastPresent w = true ->
     let result := onAuthStateChanged E B (Some u) appInfo w in
     let w' := snd result in
     fst result = Ok None /\ currentUser w' = Some u /\
     (exists h, tokenRefreshInterval w' = Some h /\
                refreshTimers w' = {[h := refreshTimer]} /\
                forall h0, tokenRefreshInterval w = Some h0 -> h <> h0) /\
     updateInterval w' = updateInterval w /\ pollTimers w' = pollTimers w /\
     (t <> "" ->
      exists evs,
        newEvents w w' =
          EvGetIdToken u ::
          EvFetch (mergedOptions "/api/user/dashboard-data" no_options (Some t)) :: evs) /\
     (forall el, dom w !! "loading-screen" = Some el ->
        prop_of (dom w' !! "loading-screen") "style.display" = VStr "none")).
Proof.
  intros Hinv. split; [|split].
  - intro result. subst result. unfold onAuthStateChanged.
    rewrite bind_gets. cbv beta.
    rewrite bind_unit_eq by (rewrite dropRefresher_eq; reflexivity).
    destruct (dropRefresher_facts w Hinv)
      as (Hinvd & Hnone & Hrt & Hupd & Hpt & Hcu & Hat & Htr & Hdom & Hnt).
    unfold ret. simpl fst. simpl snd. repeat apply conj; try assumption. reflexivity.
  - intros u e Hidp Htoast result.
    assert (Hres : result = onAuthStateChanged E B (Some u) appInfo w) by reflexivity.
    clearbody result. unfold onAuthStateChanged in Hres.
    rewrite bind_modify in Hres. cbv beta in Hres.
    set (w0 := set_currentUser (Some u) w) in Hres.
    match type of Hres with context [try_catch (bind (getIdToken E u) ?k) ?h] =>
      assert (Htry : try_catch (bind (getIdToken E u) k) h w0 =
                     h e (log (EvGetIdToken u) w0))
    end.
    { unfold try_catch, bind at 1, getIdToken. simpl trace. rewrite Hidp. reflexivity. }
    unfold bind at 1 in Hres. rewrite Htry in Hres. clear Htry.
    set (w1 := log (EvGetIdToken u) w0) in Hres.
    assert (Htoast1 : toastPresent w1 = true) by exact Htoast.
    assert (Hinv1 : timerInv w1) by (eapply timerInv_state; [|exact Hinv]; reflexivity).
    pose proof (showNotification_ok "Dashboard verileri yüklenemedi" "error" 5000 w1 Htoast1)
      as Hok.
    pose proof (toastText_shown "Dashboard verileri yüklenemedi" "error" 5000 w1 Htoast1)
      as Htext.
    pose proof (grows_showNotification "Dashboard verileri yüklenemedi" "error" 5000 w1)
      as Hgrow.
    assert (Hkept : sessionLog (snd (showNotification "Dashboard verileri yüklenemedi"
                                          "error" 5000 w1)) = sessionLog w1).
    { generalize w1. match goal with |- forall w0, _ (snd (?m w0)) = _ =>
        change (keeps sessionLog m) end. unfold showNotification. keeps_auto. }
    destruct (showNotification _ _ _ w1) as [[[]|e0] w2]; [|discriminate Hok].
    simpl in Htext, Hgrow, Hkept. unfold ret in Hres. rewrite Hres. simpl fst. simpl snd.
    unfold sessionLog in Hkept. inversion Hkept as [[Hk1 Hk2 Hk3]].
    repeat apply conj; try assumption; try reflexivity.
    + apply newEvents_app. rewrite Hk3. reflexivity.
    + apply Hgrow.
    + rewrite (refreshTimers_grow w1 w2 Hinv1 Hgrow). reflexivity.
  - intros u t Hidp Htoast result w'.
    assert (Hres : result = onAuthStateChanged E B (Some u) appInfo w) by reflexivity.
    subst w'. clearbody result. unfold onAuthStateChanged in Hres.
    rewrite bind_modify in Hres. cbv beta in Hres.
    set (w0 := set_currentUser (Some u) w) in Hres.
    set (w1 := log (EvGetIdToken u) w0) in Hres.
    set (wa := set_authToken (Some t) w1).
    set (ws := snd (setupTokenRefresh wa)).
    match type of Hres with context [try_catch ?body ?h] =>
      assert (Hbody : try_catch body h w0 = try_catch (session E B appInfo) h ws)
    end.
    { erewrite try_catch_bind
        by (unfold getIdToken; change (trace w0) with (trace w); rewrite Hidp; reflexivity).
      erewrite try_catch_bind by reflexivity.
      erewrite try_catch_bind by apply setupTokenRefresh_eq.
      subst ws. rewrite setupTokenRefresh_eq. reflexivity. }
    unfold bind at 1 in Hres. rewrite Hbody in Hres. clear Hbody.
    assert (Hinva : timerInv wa) by (eapply timerInv_state; [|exact Hinv]; reflexivity).
    assert (Hinvs : timerInv ws) by apply (timerInv_setupTokenRefresh wa Hinva).
    assert (Htoasts : toastPresent ws = true).
    { subst ws. rewrite setupTokenRefresh_eq. exact Htoast. }
    assert (Hok : fst (session E B appInfo ws) = Ok tt) by apply (session_ok appInfo ws Htoasts).
    rewrite (try_catch_done _ _ _ _ Hok) in Hres.
    pose proof (grows_session appInfo ws) as Hgrow.
    pose proof (keeps_user_session appInfo ws) as Huser.
    pose proof (fun el => session_hides_loading appInfo ws el Htoasts) as Hload.
    assert (Hfirst : t <> "" -> exists evs,
              trace (snd (session E B appInfo ws)) =
              (trace ws ++ EvFetch (mergedOptions "/api/user/dashboard-data" no_options
                                      (Some t)) :: evs)%list).
    { intro Ht.
      assert (Htok : token_truthy (authToken ws) = true).
      { subst ws. rewrite setupTokenRefresh_eq. simpl. destruct t; [congruence | reflexivity]. }
      destruct (loadAllDashboardData_first E B ws Htok) as [evs Hevs].
      assert (Hat : authToken ws = Some t) by (subst ws; rewrite setupTokenRefresh_eq; reflexivity).
      rewrite Hat in Hevs. unfold session.
      assert (Hrest : emits anyEvent (getBotStatus E ;;
                loadPaymentAndServerInfo B appInfo ;; setupEventListeners B ;;
                ifPresent "loading-screen"
                  (update "loading-screen" (set_prop "style.display" (VStr "none"))) ;;
                ifPresent "dashboard" (update "dashboard" (remove_class "hidden")))).
      { apply emits_bind; [eapply emits_weaken; [|apply emits_getBotStatus]; intros; exact I|].
        intro. apply emits_keeps. repeat keeps_page. }
      unfold bind at 1. destruct (loadAllDashboardData E B ws) as [[[]|e] wl]; simpl in Hevs |- *.
      - destruct (Hrest wl) as [evs1 [H1 _]]. rewrite H1, Hevs.
        exists (evs ++ evs1)%list. rewrite <- app_assoc. reflexivity.
      - exists evs. exact Hevs. }
    destruct (session E B appInfo ws) as [[[]|e] w']; [|discriminate Hok].
    simpl in Hgrow, Huser, Hload, Hfirst. unfold ret in Hres. rewrite Hres. simpl fst. simpl snd.
    clear Hok Hres result.
    assert (Hws : currentUser ws = Some u /\ tokenRefreshInterval ws = Some (nextTimer w) /\
                  updateInterval ws = updateInterval w /\
                  trace ws = (trace w ++ [EvGetIdToken u])%list /\ dom ws = dom w).
    { subst ws. rewrite setupTokenRefresh_eq. repeat split. }
    destruct Hws as (Hcu & Hti & Hui & Htr & Hdom).
    assert (Hpoll : pollTimers ws = pollTimers w)
      by apply (pollTimers_setupTokenRefresh wa Hinva).
    pose proof (timerInv_grow ws w' Hinvs Hgrow) as Hinv'.
    pose proof (pollTimers_grow ws w' Hinvs Hgrow) as Hpoll'.
    destruct Hgrow as (_ & Gu & Gr & _).
    clearbody ws. clear wa w1 w0 Hinva.
    split; [reflexivity|]. split; [congruence|]. split; [|split; [congruence|]].
    + exists (nextTimer w). split; [congruence|]. split.
      * apply refreshTimers_held; [exact Hinv' | congruence].
      * intros h0 Hh0 Heq. destruct Hinv as (Hn & Hk & Hp & Hu & Hr & Ht).
        pose proof (Hk _ _ (Ht _ Hh0)). lia.
    + split; [congruence|]. split.
      * intro Hne. destruct (Hfirst Hne) as [evs Hevs]. exists evs.
        apply newEvents_app. rewrite Hevs, Htr, <- app_assoc. reflexivity.
      * intros el Hel. apply (Hload el). rewrite Hdom. exact Hel.
Qed.

End Session.

(** ** The properties on the sample pages *)

Lemma timerInv_fresh w :
  timers w = ∅ -> (0 < nextTimer w)%nat ->
  updateInterval w = None -> tokenRefreshInterval w = None -> timerInv w.
Proof.
  intros Ht Hn Hu Hr. unfold timerInv. rewrite Ht, Hu, Hr.
  repeat split; intros; try assumption; try discriminate;
    rewrite lookup_empty in *; discriminate.
Qed.

Lemma timerInv_signedIn : timerInv signedIn.
Proof. apply timerInv_fresh; [reflexivity | simpl; lia | reflexivity | reflexivity]. Qed.

Lemma timerInv_atDashboard : timerInv atDashboard.
Proof. apply timerInv_fresh; [reflexivity | simpl; lia | reflexivity | reflexivity]. Qed.

Lemma timers_stay_single_witness :
  timerInv signedIn /\
  (size (refreshTimers
           (performAll envConfirmed sampleBuiltins
              [AuthStateChanged (Some alice) sampleAppInfo; ClickStartBot; TimerFires 2;
               ClickStartBot; AuthStateChanged (Some alice) sampleAppInfo;
               ClickLogout (Ok tt)]
              signedIn)) <= 1)%nat.
Proof.
  split; [exact timerInv_signedIn|].
  destruct (timers_stay_single envConfirmed sampleBuiltins
              [AuthStateChanged (Some alice) sampleAppInfo; ClickStartBot; TimerFires 2;
               ClickStartBot; AuthStateChanged (Some alice) sampleAppInfo;
               ClickLogout (Ok tt)]
              signedIn timerInv_signedIn) as (_ & _ & H).
  exact H.
Defined.

Lemma call_needs_token_witness :
  atFirstFetch envRefreshFails noToken = None /\
  makeAuthenticatedApiCall envRefreshFails "/api/bot/status" no_options noToken =
    (Throw (Error "auth/network-request-failed"), log (EvGetIdToken alice) noToken).
Proof.
  split; [vm_compute; reflexivity|].
  destruct (call_needs_token envRefreshFails "/api/bot/status" no_options noToken)
    as (_ & _ & H & _); [vm_compute; reflexivity|].
  apply H; reflexivity.
Defined.

Lemma call_success_decodes_witness :
  fst (makeAuthenticatedApiCall envHealthy "/api/user/stats" no_options signedIn) =
    Ok (VObj [("success", VBool true)]).
Proof.
  destruct (call_success_decodes envHealthy "/api/user/stats" no_options signedIn signedIn
              (jsonResponse 200 (VObj [("success", VBool true)])))
    as (_ & H & _); [vm_compute; reflexivity .. |].
  apply H; vm_compute; reflexivity.
Defined.

Lemma call_fetch_rejected_witness :
  makeAuthenticatedApiCall envOffline "/api/user/stats" no_options signedIn =
    (Throw (TypeError "Failed to fetch"),
     log (EvFetch (mergedOptions "/api/user/stats" no_options (authToken signedIn))) signedIn).
Proof.
  apply (call_fetch_rejected envOffline "/api/user/stats" no_options signedIn signedIn);
    vm_compute; reflexivity.
Defined.

Lemma first_request_headers_witness :
  exists t,
    authToken signedIn = Some t /\ t <> "" /\
    req_headers (mergedOptions "/api/bot/stop" (post None) (authToken signedIn))
      !! "Authorization" = Some ("Bearer " ++ t).
Proof.
  destruct (first_request_headers envHealthy "/api/bot/stop" (post None) signedIn signedIn)
    as (_ & (t & H1 & H2 & H3) & _); [vm_compute; reflexivity|].
  exists t. split; [exact H1|]. split; [exact H2|]. apply H3. vm_compute. reflexivity.
Defined.

Lemma refreshed_token_is_used_witness :
  authToken (snd (getFreshToken envHealthy signedIn)) = Some "fresh-token".
Proof.
  destruct (refreshed_token_is_used envHealthy signedIn) as (_ & _ & _ & H).
  destruct (H alice "fresh-token") as (_ & H2 & _); [reflexivity | reflexivity | exact H2].
Defined.

Lemma token_refresher_witness :
  refreshTimers (snd (setupTokenRefresh signedIn)) = {[1%nat := refreshTimer]}.
Proof.
  destruct (token_refresher envHealthy sampleBuiltins signedIn) as (_ & H & _).
  destruct (H timerInv_signedIn) as (_ & H2 & _). exact H2.
Defined.

Lemma toast_shows_then_hides_witness :
  let w1 := snd (showNotification "Kaydedildi" "success" 5000 signedIn) in
  ("show" ∈ classes_of (dom w1 !! "toast")) /\
  ("show" ∉ classes_of (dom (snd (fire envHealthy sampleBuiltins 1 w1)) !! "toast")).
Proof.
  destruct (toast_shows_then_hides envHealthy sampleBuiltins "Kaydedildi" "success" 5000 signedIn)
    as (_ & H1 & _ & _ & _ & H2 & _); [vm_compute; reflexivity|].
  split; [exact H1 | exact H2].
Defined.


Lemma formatters_never_nan_witness :
  formatCurrency sampleBuiltins (VStr "n/a") "USDT" = "0,00 USDT" /\
  formatPercentage sampleBuiltins (VNum (num_of_Z (-3))) = "-3.00%".
Proof.
  split.
  - destruct (formatters_never_nan sampleBuiltins (VStr "n/a") "USDT") as [H _].
    destruct H as [H _]; [left; reflexivity|].
    etransitivity; [exact H | vm_compute; reflexivity].
  - destruct (formatters_never_nan sampleBuiltins (VNum (num_of_Z (-3))) "USDT") as [_ H].
    destruct (H (inject_Z (-3)) eq_refl) as (_ & _ & H3); [discriminate|].
    etransitivity; [apply H3; reflexivity | vm_compute; reflexivity].
Defined.

Lemma subscription_note_thresholds_witness :
  prop_of (dom (snd (updateProfile sampleBuiltins sampleProfile atDashboard))
             !! "subscription-note") "textContent" =
    VStr "Aboneliğiniz aktif durumda.".
Proof.
  destruct (subscription_note_thresholds sampleBuiltins
              [("email", VStr "trader@example.com");
               ("subscription", VObj [("plan", VStr "Pro"); ("status", VStr "active");
                                      ("daysRemaining", VNum (num_of_Z 12))])]
              [("plan", VStr "Pro"); ("status", VStr "active");
               ("daysRemaining", VNum (num_of_Z 12))]
              atDashboard blank blank) as [H _]; [vm_compute; reflexivity .. |].
  destruct (H (inject_Z 12) eq_refl) as (H1 & _).
  destruct H1 as (_ & H2 & _); [reflexivity | exact H2].
Defined.

Lemma handlers_never_throw_witness :
  fst (startBot envOffline sampleBuiltins signedIn) = Ok tt.
Proof.
  destruct (handlers_never_throw envOffline sampleBuiltins signedIn) as [_ H].
  destruct H as (_ & H2 & _); [vm_compute; reflexivity | exact H2].
Defined.

Lemma payload_without_profile_witness :
  let w1 := snd (makeAuthenticatedApiCall envHealthy "/api/user/dashboard-data" no_options
                   signedIn) in
  loadAllDashboardData envHealthy sampleBuiltins signedIn =
    (Ok tt,
     snd (loadFallbackData envHealthy sampleBuiltins
            (snd (showNotification "Dashboard verileri yüklenirken hata oluştu"
                    "error" 5000 w1)))).
Proof.
  intro w1.
  apply (payload_without_profile envHealthy sampleBuiltins signedIn
           (VObj [("success", VBool true)]) w1).
  - vm_compute. reflexivity.
  - vm_compute. reflexivity.
  - intros p Hp. simpl in Hp. injection Hp as <-. reflexivity.
Defined.

Lemma stats_overwrite_account_pnl_witness :
  prop_of (dom (snd ((updateAccount sampleBuiltins
                        (VObj [("unrealizedPnl", VNum (num_of_Z 20))]) ;;
                      updateStats sampleBuiltins
                        (VObj [("totalPnl", VNum (num_of_Z (-5)))])) signedIn))
             !! "total-pnl") "textContent" = VStr "-5,00 USDT".
Proof.
  destruct (stats_overwrite_account_pnl sampleBuiltins
              [("unrealizedPnl", VNum (num_of_Z 20))]
              [("totalPnl", VNum (num_of_Z (-5)))] signedIn blank)
    as (_ & _ & H & _); [vm_compute; reflexivity|].
  etransitivity; [exact H | vm_compute; reflexivity].
Defined.


Lemma positions_malformed_witness :
  exists e,
    updatePositions sampleBuiltins (VArr [samplePosition; VNull]) signedIn = (Throw e, signedIn).
Proof.
  destruct (positions_malformed sampleBuiltins signedIn blank) as (H1 & H2 & _);
    [vm_compute; reflexivity|].
  apply H2. apply Exists_cons_tl, Exists_cons_hd. apply H1. left. reflexivity.
Defined.

Lemma status_buttons_complementary_witness :
  let w' := snd (getBotStatus envHealthy atDashboard) in
  prop_of (dom w' !! "start-bot-btn") "disabled" = VBool true /\
  prop_of (dom w' !! "stop-bot-btn") "disabled" = VBool false.
Proof.
  intro w'.
  destruct (status_buttons_complementary envHealthy atDashboard) as [_ H].
  destruct (H (VObj [("status", VObj [("is_running", VBool true)])])
              (snd (makeAuthenticatedApiCall envHealthy "/api/bot/status" no_options atDashboard))
              blank blank) as (H1 & H2 & _); [vm_compute; reflexivity .. |].
  split; [exact H1 | exact H2].
Defined.

Lemma close_position_outcomes_witness :
  fst (closePosition envConfirmed sampleBuiltins "BTCUSDT" "LONG" signedIn) = Ok tt.
Proof.
  assert (Hc : confirm envConfirmed (trace signedIn)
                 ("BTCUSDT" ++ " " ++ "LONG" ++
                  " pozisyonunu kapatmak istediğinizden emin misiniz?") = true)
    by reflexivity.
  assert (Ht : toastPresent signedIn = true) by (vm_compute; reflexivity).
  destruct (close_position_outcomes envConfirmed sampleBuiltins "BTCUSDT" "LONG" signedIn Hc Ht)
    as (_ & [(e & H & _) | (_ & H)]); rewrite H; reflexivity.
Defined.

Lemma start_bot_outcomes_witness :
  exists msg, toastText (snd (startBot envHealthy sampleBuiltins signedIn)) = VStr msg.
Proof.
  assert (Ht : toastPresent signedIn = true) by (vm_compute; reflexivity).
  destruct (start_bot_outcomes envHealthy sampleBuiltins signedIn timerInv_signedIn Ht)
    as [(e & H & _) | (h & H & _)]; eexists; exact H.
Defined.

Lemma stop_bot_outcomes_witness :
  exists msg, toastText (snd (stopBot envHealthy sampleBuiltins atDashboard)) = VStr msg.
Proof.
  assert (Ht : toastPresent atDashboard = true) by (vm_compute; reflexivity).
  destruct (stop_bot_outcomes envHealthy sampleBuiltins atDashboard timerInv_atDashboard Ht)
    as [(e & H & _) | (H & _)]; eexists; exact H.
Defined.

Lemma call_ignores_document_witness :
  makeAuthenticatedApiCall envHealthy "/api/user/stats" no_options atDashboard =
    (fst (makeAuthenticatedApiCall envHealthy "/api/user/stats" no_options signedIn),
     set_dom dashboardPage
       (snd (makeAuthenticatedApiCall envHealthy "/api/user/stats" no_options signedIn))).
Proof.
  destruct (call_ignores_document envHealthy "/api/user/stats" no_options signedIn)
    as (_ & H & _).
  exact (H dashboardPage).
Defined.

Lemma advanced_settings_toggle_witness :
  match dom (snd (toggleAdvancedSettings atDashboard)) !! "advanced-settings-content" with
  | Some c => has_class "show" c
  | None => false
  end = true.
Proof.
  destruct (advanced_settings_toggle atDashboard) as [_ H].
  destruct (H blank blank) as (_ & H2 & _); [vm_compute; reflexivity .. |].
  etransitivity; [exact H2 | vm_compute; reflexivity].
Defined.

Lemma api_dialog_opens_witness :
  prop_of (dom (snd (openApiModal envKeys atDashboard)) !! "api-key") "value" =
    VStr "abcd****wxyz".
Proof.
  destruct (api_dialog_opens envKeys atDashboard) as [_ H].
  destruct (H blank) as (_ & _ & H3); [vm_compute; reflexivity .. |].
  destruct (H3 blank) as [H4 _]; [vm_compute; reflexivity|].
  etransitivity;
    [apply (H4 [("hasKeys", VBool true); ("maskedApiKey", VStr "abcd****wxyz")]);
     vm_compute; reflexivity
    | reflexivity].
Defined.

Lemma logout_outcomes_witness :
  let result := logout envConfirmed (Ok tt) signedIn in
  fst result = Ok (Some loginPage) /\ currentUser (snd result) = None /\
  authToken (snd result) = None.
Proof.
  intro result.
  destruct (logout_outcomes envConfirmed (Ok tt) signedIn timerInv_signedIn) as (_ & H & _).
  destruct H as (H1 & H2 & H3 & _); [vm_compute; reflexivity | reflexivity |].
  split; [exact H1|]. split; [exact H2 | exact H3].
Defined.

Lemma auth_state_listener_witness :
  let w' := snd (onAuthStateChanged envConfirmed sampleBuiltins (Some alice) sampleAppInfo
                   atDashboard) in
  currentUser w' = Some alice /\ tokenRefreshInterval w' = Some 1%nat /\
  prop_of (dom w' !! "loading-screen") "style.display" = VStr "none".
Proof.
  intro w'.
  destruct (auth_state_listener envConfirmed sampleBuiltins sampleAppInfo atDashboard
              timerInv_atDashboard) as (_ & _ & H).
  destruct (H alice "fresh-token") as (_ & H2 & _ & _ & _ & _ & H7);
    [vm_compute; reflexivity .. |].
  split; [exact H2|]. split; [vm_compute; reflexivity|].
  apply (H7 blank). vm_compute. reflexivity.
Defined.
